(** * The spreadsheet formula engine of makenbreak (src/Spreadsheet.tsx)

    A shallow embedding of [evaluateFormula], [parseValues],
    [evaluateValue], [evaluateCondition], [parseRange], [handleCellBlur],
    [addToHistory], [undo] and [redo], with the JavaScript built-ins they
    call, and the properties of the engine stated over it.

    Conventions of the embedding.
    - A JavaScript string is a [string]; the character with code [n < 128]
      is the ASCII code unit [n], and the 128 characters above stand for
      code units that have no case mapping and are neither white space,
      line terminators, digits nor letters.
    - A JavaScript number is a [number]: NaN, an infinity, or the exact
      rational value of a finite binary64.  Every arithmetic operation is
      the exact operation followed by [round64], rounding to nearest, ties
      to even.  The sign of zero is not kept: nothing in the program tells
      -0 from 0 ([toString] prints both as 0, [||] treats both as falsy,
      comparisons equate them, and no number is ever divided by a zero).
    - A loop of the source is a function with a [fuel] argument that
      bounds the number of iterations; it answers [OutOfFuel] when the
      fuel runs out before the loop ends.
    - The engine that runs the code bounds the length of an array and the
      number of arguments of a call: [push] on a full array and a spread
      call with too many arguments throw a RangeError.  The bounds differ
      from engine to engine; they are the two numbers of a [Limits], and
      the functions that push or spread take the engine as an argument.
      All that is taken for granted of an engine is that an array and a
      call can hold as many elements as the grid has cells. *)

From Stdlib Require Import ZArith QArith Qcanon Qround String Ascii List Lia Bool.
From Stdlib Require Import DecimalString DecimalZ.
From stdpp Require Import base list strings.

Open Scope Z_scope.

(** ** Numbers *)

Module Num.

Inductive number : Type :=
  | NaN : number
  | Inf (neg : bool) : number
  | Fin (q : Q) : number.

Definition ofZ (z : Z) : number := Fin (inject_Z z).

(** [floor (log2 (n / d))] for [n > 0]. *)
Definition log2Q (n : Z) (d : positive) : Z :=
  let k := Z.log2 n - Z.log2 (Zpos d) in
  let below :=
    if 0 <=? k then n <? 2 ^ k * Zpos d else n * 2 ^ (- k) <? Zpos d in
  if below then k - 1 else k.

(** [a / b] rounded to the nearest integer, ties to even, for [0 <= a] and
    [0 < b]. *)
Definition rdiv (a b : Z) : Z :=
  let q := a / b in
  match 2 * (a mod b) ?= b with
  | Lt => q
  | Gt => q + 1
  | Eq => if Z.even q then q else q + 1
  end.

(** The value [m * 2^e] as a reduced fraction. *)
Definition scale2 (m e : Z) : Q :=
  if 0 <=? e then inject_Z (m * 2 ^ e) else Qred (m # Z.to_pos (2 ^ (- e))).

(** Rounding of an exact rational to binary64: 53 bits of precision, least
    exponent -1074 (subnormal numbers included), overflow to an infinity
    from [2^1024 - 2^970] on. *)
Definition round64 (q : Q) : number :=
  let n := Z.abs (Qnum q) in
  let d := Qden q in
  let neg := Qnum q <? 0 in
  if n =? 0 then Fin 0
  else
    let e := Z.max (log2Q n d - 52) (- 1074) in
    let m := if 0 <=? e then rdiv n (Zpos d * 2 ^ e)
             else rdiv (n * 2 ^ (- e)) (Zpos d) in
    if (971 <? e) || ((e =? 971) && (2 ^ 53 <=? m)) then Inf neg
    else Fin (scale2 (if neg then - m else m) e).

Definition isNaN (x : number) : bool :=
  match x with NaN => true | _ => false end.

(** ToBoolean on a number: NaN and zero are falsy. *)
Definition truthy (x : number) : bool :=
  match x with
  | NaN => false
  | Inf _ => true
  | Fin q => negb (Qeq_bool q 0)
  end.

(** [x || y] on numbers. *)
Definition or_else (x y : number) : number := if truthy x then x else y.

Definition add (x y : number) : number :=
  match x, y with
  | NaN, _ | _, NaN => NaN
  | Inf a, Inf b => if Bool.eqb a b then Inf a else NaN
  | Inf a, Fin _ => Inf a
  | Fin _, Inf b => Inf b
  | Fin p, Fin q => round64 (p + q)
  end.

Definition opp (x : number) : number :=
  match x with
  | NaN => NaN
  | Inf a => Inf (negb a)
  | Fin q => Fin (Qred (- q))
  end.

Definition sub (x y : number) : number := add x (opp y).

Definition is_neg (q : Q) : bool := Qnum q <? 0.

Definition div (x y : number) : number :=
  match x, y with
  | NaN, _ | _, NaN => NaN
  | Inf _, Inf _ => NaN
  | Inf a, Fin q => Inf (xorb a (is_neg q))
  | Fin _, Inf _ => Fin 0
  | Fin p, Fin q =>
      if Qeq_bool q 0
      then (if Qeq_bool p 0 then NaN else Inf (is_neg p))
      else round64 (p / q)
  end.

(** The comparisons [<], [<=] and [===]; all are false on NaN. *)
Definition ltb (x y : number) : bool :=
  match x, y with
  | NaN, _ | _, NaN => false
  | Inf a, Inf b => a && negb b
  | Inf a, Fin _ => a
  | Fin _, Inf b => negb b
  | Fin p, Fin q => match p ?= q with Lt => true | _ => false end
  end%Q.

Definition eqb (x y : number) : bool :=
  match x, y with
  | NaN, _ | _, NaN => false
  | Inf a, Inf b => Bool.eqb a b
  | Inf _, Fin _ | Fin _, Inf _ => false
  | Fin p, Fin q => Qeq_bool p q
  end.

(** Whether two numbers are the same number: unlike [eqb], true on two
    NaN. *)
Definition same (x y : number) : bool :=
  match x, y with
  | NaN, NaN => true
  | Inf a, Inf b => Bool.eqb a b
  | Fin p, Fin q => (Qnum p =? Qnum q) && (Zpos (Qden p) =? Zpos (Qden q))
  | _, _ => false
  end.

Definition leb (x y : number) : bool := ltb x y || eqb x y.
Definition gtb (x y : number) : bool := ltb y x.
Definition geb (x y : number) : bool := leb y x.

(** [Math.min] and [Math.max] applied to the arguments [xs].  Whether a
    call takes that many arguments is up to the engine: the spread calls
    [Math.min(...numbers)] and [Math.max(...numbers)] of the source are
    [Engine.spread Math_min numbers] and [Engine.spread Math_max numbers]. *)
Definition min2 (x y : number) : number :=
  match x, y with
  | NaN, _ | _, NaN => NaN
  | _, _ => if ltb y x then y else x
  end.

Definition max2 (x y : number) : number :=
  match x, y with
  | NaN, _ | _, NaN => NaN
  | _, _ => if ltb x y then y else x
  end.

Definition Math_min (xs : list number) : number := fold_left min2 xs (Inf false).
Definition Math_max (xs : list number) : number := fold_left max2 xs (Inf true).

(** *** Conversions between strings and numbers *)

Definition code (c : ascii) : Z := Z.of_N (N_of_ascii c).

Definition is_digit (c : ascii) : bool := (48 <=? code c) && (code c <=? 57).
Definition is_upper (c : ascii) : bool := (65 <=? code c) && (code c <=? 90).
Definition is_lower (c : ascii) : bool := (97 <=? code c) && (code c <=? 122).

(** White space and line terminators (the class [\s], and what [trim],
    [parseInt] and [parseFloat] skip). *)
Definition is_space (c : ascii) : bool :=
  ((9 <=? code c) && (code c <=? 13)) || (code c =? 32).

(** The characters [.] does not match. *)
Definition is_line_terminator (c : ascii) : bool :=
  (code c =? 10) || (code c =? 13).

Fixpoint trimStart (s : string) : string :=
  match s with
  | String c s' => if is_space c then trimStart s' else s
  | EmptyString => EmptyString
  end.

(** The longest prefix of characters satisfying [p], and the rest. *)
Fixpoint span (p : ascii -> bool) (s : string) : string * string :=
  match s with
  | String c s' =>
      if p c then let '(a, b) := span p s' in (String c a, b)
      else (EmptyString, s)
  | EmptyString => (EmptyString, EmptyString)
  end.

Definition digit_val (c : ascii) : Z :=
  if is_digit c then code c - 48
  else if is_upper c then code c - 55
  else code c - 87.

Definition is_hex_digit (c : ascii) : bool :=
  is_digit c || ((65 <=? code c) && (code c <=? 70))
  || ((97 <=? code c) && (code c <=? 102)).

Fixpoint digits_val (radix : Z) (acc : Z) (s : string) : Z :=
  match s with
  | String c s' => digits_val radix (acc * radix + digit_val c) s'
  | EmptyString => acc
  end.

Definition pow10 (n : Z) : Q :=
  if 0 <=? n then inject_Z (10 ^ n) else 1 # Z.to_pos (10 ^ (- n)).

Definition strip_sign (s : string) : bool * string :=
  match s with
  | String "-" s' => (true, s')
  | String "+" s' => (false, s')
  | _ => (false, s)
  end.

Definition signed (neg : bool) (z : Z) : Z := if neg then - z else z.

(** [parseInt(s)] with no radix argument. *)
Definition parseInt (s : string) : number :=
  let '(neg, s1) := strip_sign (trimStart s) in
  let '(radix, s2) :=
    match s1 with
    | String "0" (String "x" r) | String "0" (String "X" r) => (16, r)
    | _ => (10, s1)
    end in
  let '(ds, _) := span (if radix =? 16 then is_hex_digit else is_digit) s2 in
  match ds with
  | EmptyString => NaN
  | _ => round64 (inject_Z (signed neg (digits_val radix 0 ds)))
  end.

(** The exponent part [e], [e+] or [e-] followed by digits, if [s] starts
    with one. *)
Definition exponent_part (s : string) : Z :=
  match s with
  | String c s' =>
      if (code c =? 101) || (code c =? 69) then
        let '(neg, s1) := strip_sign s' in
        let '(ds, _) := span is_digit s1 in
        match ds with
        | EmptyString => 0
        | _ => signed neg (digits_val 10 0 ds)
        end
      else 0
  | EmptyString => 0
  end.

(** [parseFloat(s)]: the longest prefix of the trimmed string that is a
    decimal literal, rounded to binary64. *)
Definition parseFloat (s : string) : number :=
  let '(neg, s1) := strip_sign (trimStart s) in
  if String.prefix "Infinity" s1 then Inf neg
  else
    let '(ip, s2) := span is_digit s1 in
    let '(fp, s3) :=
      match s2 with
      | String "." r => span is_digit r
      | _ => (EmptyString, s2)
      end in
    match (ip ++ fp)%string with
    | EmptyString => NaN
    | ds =>
        let m := digits_val 10 0 ds in
        let e := exponent_part s3 - Z.of_nat (String.length fp) in
        round64 (Qred (inject_Z (signed neg m) * pow10 e))
    end.

Definition string_of_Z (z : Z) : string := NilZero.string_of_int (Z.to_int z).

Fixpoint zeros (n : nat) : string :=
  match n with
  | O => EmptyString
  | S n' => String "0" (zeros n')
  end.

(** The least [n], among [c, c+1, ...], with [x < 10^n]. *)
Fixpoint least_pow10 (fuel : nat) (x : Q) (c : Z) : Z :=
  match fuel with
  | O => c
  | S f => if Qle_bool (pow10 c) x then least_pow10 f x (c + 1) else c
  end.

Definition digits10 (x : Q) : Z :=
  let l := log2Q (Qnum x) (Qden x) in
  least_pow10 4 x ((l * 30103) / 100000 - 1).

Definition rounds_to (x : Q) (c : Q) : bool := eqb (round64 c) (Fin x).

(** One attempt at printing [x > 0] with [k] digits: the digits [s] and
    the position [n] of the decimal point such that [s * 10^(n-k)] rounds
    to [x], the one nearest to [x] when there are two. *)
Definition digits_at (x : Q) (n0 k : Z) : option (Z * Z) :=
  let u := pow10 (n0 - k) in
  let y := (x / u)%Q in
  let lo := Qfloor y in
  let hi := lo + 1 in
  let norm s := if s =? 10 ^ k then (10 ^ (k - 1), n0 + 1) else (s, n0) in
  let ok_lo := rounds_to x (inject_Z lo * u) in
  let ok_hi := rounds_to x (inject_Z hi * u) in
  match ok_lo, ok_hi with
  | true, true =>
      match (y - inject_Z lo ?= inject_Z hi - y)%Q with
      | Lt => Some (norm lo)
      | Gt => Some (norm hi)
      | Eq => Some (norm (if Z.even lo then lo else hi))
      end
  | true, false => Some (norm lo)
  | false, true => Some (norm hi)
  | false, false => None
  end.

(** The shortest digit string that reads back as [x]. *)
Fixpoint shortest (fuel : nat) (x : Q) (n0 k : Z) : Z * Z * Z :=
  match fuel with
  | O => (Qfloor (x / pow10 (n0 - k)), n0, k)
  | S f =>
      match digits_at x n0 k with
      | Some (s, n) => (s, n, k)
      | None => shortest f x n0 (k + 1)
      end
  end.

Definition substring_from (n : nat) (s : string) : string :=
  String.substring n (String.length s - n) s.

(** The layout of Number::toString for digits [ds] ([k] of them) and
    decimal point position [n]. *)
Definition layout (ds : string) (k n : Z) : string :=
  if (k <=? n) && (n <=? 21) then (ds ++ zeros (Z.to_nat (n - k)))%string
  else if (0 <? n) && (n <=? 21) then
    (String.substring 0 (Z.to_nat n) ds ++ "." ++ substring_from (Z.to_nat n) ds)%string
  else if (-6 <? n) && (n <=? 0) then
    ("0." ++ zeros (Z.to_nat (- n)) ++ ds)%string
  else
    let e := n - 1 in
    let sg : string := if e <? 0 then "-"%string else "+"%string in
    let es := (sg ++ string_of_Z (Z.abs e))%string in
    if k =? 1 then (ds ++ "e" ++ es)%string
    else (String.substring 0 1 ds ++ "." ++ substring_from 1 ds ++ "e" ++ es)%string.

Definition toString_pos (x : Q) : string :=
  let '(s, n, k) := shortest 17 x (digits10 x) 1 in
  layout (string_of_Z s) k n.

(** [x.toString()], and the conversion of a number in a template string. *)
Definition toString (x : number) : string :=
  match x with
  | NaN => "NaN"
  | Inf neg => if neg then "-Infinity" else "Infinity"
  | Fin q =>
      match (q ?= 0)%Q with
      | Eq => "0"
      | Gt => toString_pos q
      | Lt => ("-" ++ toString_pos (Qred (- q)))%string
      end
  end.

End Num.

(** ** Strings *)

Module Str.

Import Num.
Open Scope string_scope.
Open Scope Z_scope.

(** [s.toUpperCase()]. *)
Definition upper_char (c : ascii) : ascii :=
  if is_lower c then ascii_of_N (N_of_ascii c - 32) else c.

Fixpoint toUpperCase (s : string) : string :=
  match s with
  | String c s' => String (upper_char c) (toUpperCase s')
  | EmptyString => EmptyString
  end.

Fixpoint trimEnd (s : string) : string :=
  match s with
  | String c s' =>
      match trimEnd s' with
      | EmptyString => if is_space c then EmptyString else String c EmptyString
      | t => String c t
      end
  | EmptyString => EmptyString
  end.

(** [s.trim()]. *)
Definition trim (s : string) : string := trimEnd (trimStart s).

Fixpoint forallb_str (p : ascii -> bool) (s : string) : bool :=
  match s with
  | String c s' => p c && forallb_str p s'
  | EmptyString => true
  end.

(** [s.includes(c)] for a one-character [c]. *)
Definition includes (c : ascii) (s : string) : bool :=
  negb (forallb_str (fun x => negb (Ascii.eqb x c)) s).

(** [s.split(c)] for a one-character separator [c]. *)
Fixpoint split_on (c : ascii) (s : string) : list string :=
  match s with
  | String x s' =>
      if Ascii.eqb x c then EmptyString :: split_on c s'
      else match split_on c s' with
           | p :: ps => String x p :: ps
           | [] => [String x EmptyString]
           end
  | EmptyString => [EmptyString]
  end.

(** [s.charCodeAt(0)]. *)
Definition charCodeAt0 (s : string) : number :=
  match s with
  | String c _ => ofZ (code c)
  | EmptyString => NaN
  end.

(** [s.slice(1)]. *)
Definition slice1 (s : string) : string :=
  match s with
  | String _ s' => s'
  | EmptyString => EmptyString
  end.

(** [String.fromCharCode(x)]: the code unit [x mod 2^16]; it is a
    character of the alphabet whenever [x] is the code of one. *)
Definition fromCharCode (x : number) : string :=
  match x with
  | Fin q =>
      let t := if Qnum q <? 0 then - Qfloor (- q)%Q else Qfloor q in
      String (ascii_of_N (Z.to_N (t mod 65536))) EmptyString
  | _ => String zero EmptyString
  end.

(** The [replace] of [evaluateValue]: every single quote and every double
    quote of [s] is removed. *)
Fixpoint remove_quotes (s : string) : string :=
  match s with
  | String c s' =>
      if (code c =? 39) || (code c =? 34) then remove_quotes s'
      else String c (remove_quotes s')
  | EmptyString => EmptyString
  end.

(** If [s] is [p] followed by [r], then [r]. *)
Fixpoint strip_prefix (p s : string) : option string :=
  match p, s with
  | EmptyString, _ => Some s
  | String a p', String b s' => if Ascii.eqb a b then strip_prefix p' s' else None
  | String _ _, EmptyString => None
  end.

(** If [s] is [r] followed by the character [c], then [r]. *)
Fixpoint strip_last (c : ascii) (s : string) : option string :=
  match s with
  | String x EmptyString => if Ascii.eqb x c then Some EmptyString else None
  | String x s' => option_map (String x) (strip_last c s')
  | EmptyString => None
  end.

Definition nonempty (s : string) : bool :=
  match s with EmptyString => false | _ => true end.

(** The match of [/^NAME\((.+)\)$/] on [s]: its group 1.  The group is
    all that lies between the opening parenthesis and the last character,
    which must be a closing parenthesis; [.] matches no line terminator. *)
Definition match_call (name s : string) : option string :=
  match strip_prefix (name ++ "(") s with
  | Some r =>
      match strip_last ")" r with
      | Some g =>
          if nonempty g && forallb_str (fun c => negb (is_line_terminator c)) g
          then Some g else None
      | None => None
      end
  | None => None
  end.

Definition not_comma (c : ascii) : bool := negb (Ascii.eqb c ",").
Definition not_rparen (c : ascii) : bool := negb (Ascii.eqb c ")").

(** The match of [/^IF\(([^,]+),([^,]+),([^)]+)\)$/] on [s]: its three
    groups. *)
Definition match_if (s : string) : option (string * string * string) :=
  match strip_prefix "IF(" s with
  | Some r =>
      let '(g1, r1) := span not_comma r in
      match r1 with
      | String _ r1' =>
          let '(g2, r2) := span not_comma r1' in
          match r2 with
          | String _ r2' =>
              let '(g3, r3) := span not_rparen r2' in
              match r3 with
              | String _ EmptyString =>
                  if nonempty g1 && nonempty g2 && nonempty g3
                  then Some (g1, g2, g3) else None
              | _ => None
              end
          | EmptyString => None
          end
      | EmptyString => None
      end
  | None => None
  end.

(** Whether [/^([A-Z]+)(\d+)$/] matches [s]. *)
Definition match_cell (s : string) : bool :=
  let '(letters, r) := span is_upper s in
  let '(digits, r') := span is_digit r in
  nonempty letters && nonempty digits && negb (nonempty r').

Definition is_op (c : ascii) : bool :=
  (code c =? 60) || (code c =? 62) || (code c =? 61) || (code c =? 33).

(** The match of [/\s*([<>=!]+)\s*/] at the start of [s]: its group 1 and
    what follows the match. *)
Definition match_sep (s : string) : option (string * string) :=
  let '(_, s1) := span is_space s in
  let '(ops, s2) := span is_op s1 in
  match ops with
  | EmptyString => None
  | _ => let '(_, s3) := span is_space s2 in Some (ops, s3)
  end.

(** [s.split(/\s*([<>=!]+)\s*/)]: the text before each match, the group of
    the match, and at last the text after the last match.  [cur] is the
    text read since the last match. *)
Fixpoint split_sep (fuel : nat) (s cur : string) : list string :=
  match fuel with
  | O => [cur ++ s]
  | S f =>
      match s with
      | EmptyString => [cur]
      | String c s' =>
          match match_sep s with
          | Some (ops, rest) => cur :: ops :: split_sep f rest EmptyString
          | None => split_sep f s' (cur ++ String c EmptyString)
          end
      end
  end.

Definition split_condition (s : string) : list string :=
  split_sep (String.length s) s EmptyString.

(** [s.match(re)?.[1]] for [re] one of [/([A-Z]+)/] and [/(\d+)/]: the
    first longest run of characters of the class [p] in [s]. *)
Fixpoint first_run (p : ascii -> bool) (s : string) : option string :=
  match s with
  | String c s' => if p c then Some (fst (span p s)) else first_run p s'
  | EmptyString => None
  end.

(** No character of [s] is a line terminator: [s] can be matched by [.+]. *)
Definition no_line_terminator (s : string) : bool :=
  forallb_str (fun c => negb (is_line_terminator c)) s.

(** No character of [s] is one of the comparison characters. *)
Definition no_op (s : string) : bool := forallb_str (fun c => negb (is_op c)) s.

(** No character of [s] is a comma; none is a closing parenthesis. *)
Definition no_comma (s : string) : bool := forallb_str not_comma s.
Definition no_rparen (s : string) : bool := forallb_str not_rparen s.

(** The characters of the keys of the grid, and of a range of two keys. *)
Definition key_char (c : ascii) : bool := is_upper c || is_digit c.
Definition key_text (s : string) : bool := nonempty s && forallb_str key_char s.
Definition range_char (c : ascii) : bool := key_char c || Ascii.eqb c ":".

End Str.

(** ** Formula evaluation *)

Module Engine.

Import Num Str.
Open Scope string_scope.
Open Scope Z_scope.

(** [interface CellData { value: string; formula?: string }] *)
Record CellData : Type := mkCell { value : string; formula : option string }.

(** What a function sees of a [Record<string, CellData>]: [data[key]]. *)
Definition Data : Type := string -> option CellData.

(** The end of a call: it returns, it throws (a TypeError or a
    RangeError), or the fuel of the model ran out before its loops ended. *)
Inductive outcome (A : Type) : Type :=
  | Returned (a : A)
  | Thrown
  | OutOfFuel.
Arguments Returned {A} a.
Arguments Thrown {A}.
Arguments OutOfFuel {A}.

Definition bind {A B : Type} (m : outcome A) (k : A -> outcome B) : outcome B :=
  match m with
  | Returned a => k a
  | Thrown => Thrown
  | OutOfFuel => OutOfFuel
  end.

Notation "x <- m ;; k" := (bind m (fun x => k))
  (at level 100, m at next level, right associativity).

(** The grid has [COLUMNS * ROWS] cells. *)
Definition GRID_CELLS : nat := 2600.

(** The limits of the engine that runs the code, as what it allows beyond
    the cells of the grid: an array holds [array_limit] elements and no
    more, a call takes [arguments_limit] arguments and no more. *)
Class Limits : Type := mkLimits { array_spare : nat; arguments_spare : nat }.

Definition array_limit `{Limits} : nat := (GRID_CELLS + array_spare)%nat.
Definition arguments_limit `{Limits} : nat := (GRID_CELLS + arguments_spare)%nat.

(** [cells.push(x)]: a RangeError when the array is full. *)
Definition push `{Limits} {A : Type} (cells : list A) (x : A) : outcome (list A) :=
  if (length cells <? array_limit)%nat then Returned (cells ++ [x])%list
  else Thrown.

(** [f(...args)]: a RangeError when there are more arguments than a call
    takes. *)
Definition spread `{Limits} {A B : Type} (f : list A -> B) (args : list A)
    : outcome B :=
  if (length args <=? arguments_limit)%nat then Returned (f args)
  else Thrown.

(** An engine without room beyond the grid, for the examples, and one
    whose arrays hold one element more than its calls take arguments. *)
Definition small_engine : Limits := mkLimits 0 0.
Definition short_call_engine : Limits := mkLimits 1 0.

(** [s || '0'] on strings: the empty string is falsy. *)
Definition or_zero (s : string) : string :=
  match s with EmptyString => "0" | _ => s end.

(** [data[key]?.value || '0'] *)
Definition cell_text (data : Data) (key : string) : string :=
  match data key with
  | Some cell => or_zero (value cell)
  | None => "0"
  end.

Definition evaluateValue (val : string) (data : Data) : string :=
  if match_cell val then cell_text data (toUpperCase val)
  else remove_quotes val.

(** [parseFloat(s) || 0] *)
Definition number_or_zero (s : string) : number := or_else (parseFloat s) (ofZ 0).

Definition evaluateCondition (condition : string) (data : Data) : bool :=
  match split_condition condition with
  | [l; op; r] =>
      let left := number_or_zero (evaluateValue l data) in
      let right := number_or_zero (evaluateValue r data) in
      if String.eqb op ">" then gtb left right
      else if String.eqb op "<" then ltb left right
      else if String.eqb op ">=" then geb left right
      else if String.eqb op "<=" then leb left right
      else if String.eqb op "==" || String.eqb op "=" then eqb left right
      else if String.eqb op "!=" || String.eqb op "<>" then negb (eqb left right)
      else false
  | _ => false
  end.

(** The inner loop of [parseRange]:
    [for (let c = startCol; c <= endCol; c++) cells.push(...)]. *)
Fixpoint for_cols `{Limits} (fuel : nat) (c endCol r : number) (data : Data)
    (cells : list string) : outcome (list string) :=
  match fuel with
  | O => OutOfFuel
  | S f =>
      if leb c endCol then
        let key := fromCharCode (add (ofZ 65) c) ++ toString (add r (ofZ 1)) in
        cells' <- push cells (cell_text data key) ;;
        for_cols f (add c (ofZ 1)) endCol r data cells'
      else Returned cells
  end.

(** The outer loop: [for (let r = startRow; r <= endRow; r++) ...]. *)
Fixpoint for_rows `{Limits} (fuel : nat) (r endRow startCol endCol : number) (data : Data)
    (cells : list string) : outcome (list string) :=
  match fuel with
  | O => OutOfFuel
  | S f =>
      if leb r endRow then
        cells' <- for_cols fuel startCol endCol r data cells ;;
        for_rows f (add r (ofZ 1)) endRow startCol endCol data cells'
      else Returned cells
  end.

Definition parseRange `{Limits} (fuel : nat) (range : string) (data : Data)
    : outcome (list string) :=
  match split_on ":" range with
  | start :: end_ :: _ =>
      let startCol := sub (charCodeAt0 start) (ofZ 65) in
      let startRow := sub (parseInt (slice1 start)) (ofZ 1) in
      let endCol := sub (charCodeAt0 end_) (ofZ 65) in
      let endRow := sub (parseInt (slice1 end_)) (ofZ 1) in
      for_rows fuel startRow endRow startCol endCol data []
  | _ => Thrown
  end.

Definition parseValues `{Limits} (fuel : nat) (arg : string) (data : Data)
    : outcome (list number) :=
  let trimmed := trim arg in
  if includes ":" trimmed then
    cells <- parseRange fuel trimmed data ;;
    Returned (map number_or_zero cells)
  else
    Returned [number_or_zero (evaluateValue trimmed data)].

(** [values.reduce((sum, val) => sum + val, 0)] *)
Definition sum_values (values : list number) : number :=
  fold_left add values (ofZ 0).

(** [values.filter(val => !isNaN(val))] *)
Definition numbers_of (values : list number) : list number :=
  List.filter (fun val => negb (isNaN val)) values.

Definition length_number {A : Type} (l : list A) : number :=
  ofZ (Z.of_nat (length l)).

Definition evaluateFormula `{Limits} (fuel : nat) (formula : string) (data : Data)
    : outcome string :=
  let upperFormula := toUpperCase formula in
  match match_call "SUM" upperFormula with
  | Some arg =>
      values <- parseValues fuel arg data ;;
      Returned (toString (sum_values values))
  | None =>
  match match_call "AVERAGE" upperFormula with
  | Some arg =>
      values <- parseValues fuel arg data ;;
      Returned (match values with
                | [] => "0"
                | _ => toString (div (sum_values values) (length_number values))
                end)
  | None =>
  match match_call "COUNT" upperFormula with
  | Some arg =>
      values <- parseValues fuel arg data ;;
      Returned (toString (length_number (numbers_of values)))
  | None =>
  match match_call "MIN" upperFormula with
  | Some arg =>
      values <- parseValues fuel arg data ;;
      match numbers_of values with
      | [] => Returned "0"
      | numbers => m <- spread Math_min numbers ;; Returned (toString m)
      end
  | None =>
  match match_call "MAX" upperFormula with
  | Some arg =>
      values <- parseValues fuel arg data ;;
      match numbers_of values with
      | [] => Returned "0"
      | numbers => m <- spread Math_max numbers ;; Returned (toString m)
      end
  | None =>
  match match_if upperFormula with
  | Some (g1, g2, g3) =>
      let condition := trim g1 in
      let trueVal := trim g2 in
      let falseVal := trim g3 in
      if evaluateCondition condition data
      then Returned (evaluateValue trueVal data)
      else Returned (evaluateValue falseVal data)
  | None => Returned "0"
  end end end end end end.

(** Whether one of the six patterns of [evaluateFormula] matches. *)
Definition recognized (formula : string) : bool :=
  let u := toUpperCase formula in
  match match_call "SUM" u, match_call "AVERAGE" u, match_call "COUNT" u,
        match_call "MIN" u, match_call "MAX" u, match_if u with
  | None, None, None, None, None, None => false
  | _, _, _, _, _, _ => true
  end.

(** The key [parseRange] builds for column index [c] and row index [r]:
    [`${String.fromCharCode(65 + c)}${r + 1}`]. *)
Definition address (c r : Z) : string :=
  fromCharCode (add (ofZ 65) (ofZ c)) ++ toString (add (ofZ r) (ofZ 1)).

(** [lo; lo + 1; ...], [n] numbers. *)
Fixpoint Zcount (lo : Z) (n : nat) : list Z :=
  match n with
  | O => []
  | S n' => lo :: Zcount (lo + 1) n'
  end.

(** [lo; lo + 1; ...; hi], empty when [hi < lo]. *)
Definition Zrange (lo hi : Z) : list Z := Zcount lo (Z.to_nat (hi - lo + 1)).

(** The texts of the cells of columns [c1..c2] and rows [r1..r2], row by
    row; empty when [c2 < c1] or [r2 < r1]. *)
Definition rectangle (data : Data) (c1 r1 c2 r2 : Z) : list string :=
  flat_map (fun r => map (fun c => cell_text data (address c r)) (Zrange c1 c2))
           (Zrange r1 r2).

(** A double quote, and a text between double quotes. *)
Definition dquote : string := String (ascii_of_N 34) EmptyString.
Definition quoted (s : string) : string := dquote ++ s ++ dquote.

(** A sheet written out as a list of cells, read as a [Data]. *)
Fixpoint sheet (cells : list (string * CellData)) : Data :=
  fun key =>
    match cells with
    | (k, c) :: rest => if String.eqb k key then Some c else sheet rest key
    | [] => None
    end.

(** The sheets of the examples of the specification. *)
Definition sheet_1_x_3 : Data :=
  sheet [("A1", mkCell "1" None); ("A2", mkCell "x" None); ("A3", mkCell "3" None)].
Definition sheet_5_x : Data :=
  sheet [("A1", mkCell "5" None); ("A2", mkCell "x" None)].
Definition sheet_A1 (v : string) : Data := sheet [("A1", mkCell v None)].

(** A row number that binary64 cannot tell from its successor. *)
Definition huge_row : Z := 100000000000000000000.

(** The formula [IF(A1>5,q big q,q small q)], where q is a double quote. *)
Definition if_big_small : string :=
  "IF(A1>5," ++ quoted "big" ++ "," ++ quoted "small" ++ ")".

End Engine.

(** ** The state of the [Spreadsheet] component and its handlers *)

Module Sheet.

Import Num Str Engine.
Open Scope string_scope.
Open Scope Z_scope.

(** Cell objects live in a heap and are named by their address: a
    [Record<string, CellData>] object holds, for each of its keys in the
    order of their insertion, the address of a cell object.  Two records
    made by a spread copy [{ ...data }] hold the same addresses. *)
Notation ref := nat (only parsing).
Notation obj := (list (string * nat)) (only parsing).
Notation heap := (list CellData) (only parsing).

Fixpoint obj_get (o : obj) (key : string) : option ref :=
  match o with
  | (k, r) :: rest => if String.eqb k key then Some r else obj_get rest key
  | [] => None
  end.

(** [o[key] = r]: an existing key keeps its place, a new key goes last. *)
Fixpoint obj_set (o : obj) (key : string) (r : ref) : obj :=
  match o with
  | (k, r') :: rest =>
      if String.eqb k key then (k, r) :: rest else (k, r') :: obj_set rest key r
  | [] => [(key, r)]
  end.

(** [delete o[key]] *)
Fixpoint obj_delete (o : obj) (key : string) : obj :=
  match o with
  | (k, r) :: rest =>
      if String.eqb k key then rest else (k, r) :: obj_delete rest key
  | [] => []
  end.

(** [Object.keys(o)] *)
Definition keys (o : obj) : list string := map fst o.

(** The record [o] as the functions of [Engine] read it in heap [h]. *)
Definition view (h : heap) (o : obj) : Data :=
  fun key =>
    match obj_get o key with
    | Some r => h !! r
    | None => None
    end.

Record State : Type := mkState {
  cells : heap;
  data : obj;
  history : list obj;
  historyIndex : Z;
  selectedCell : string;
  editingCell : string;
  editValue : string;
  isViewOnly : bool
}.

Definition initial (viewOnly : bool) : State :=
  mkState [] [] [] (-1) "" "" "" viewOnly.

(** [l.slice(0, e)] *)
Definition slice0 {A : Type} (e : Z) (l : list A) : list A :=
  let len := Z.of_nat (length l) in
  let k := if e <? 0 then Z.max (len + e) 0 else Z.min e len in
  firstn (Z.to_nat k) l.

(** [addToHistory(newData)], on the history and its cursor. *)
Definition addToHistory (newData : obj) (st : State) : State :=
  let newHistory := (slice0 (historyIndex st + 1) (history st) ++ [newData])%list in
  mkState (cells st) (data st) newHistory (Z.of_nat (length newHistory) - 1)
          (selectedCell st) (editingCell st) (editValue st) (isViewOnly st).

Definition setData (newData : obj) (st : State) : State :=
  mkState (cells st) newData (history st) (historyIndex st)
          (selectedCell st) (editingCell st) (editValue st) (isViewOnly st).

Definition setCells (h : heap) (st : State) : State :=
  mkState h (data st) (history st) (historyIndex st)
          (selectedCell st) (editingCell st) (editValue st) (isViewOnly st).

Definition setHistoryIndex (i : Z) (st : State) : State :=
  mkState (cells st) (data st) (history st) i
          (selectedCell st) (editingCell st) (editValue st) (isViewOnly st).

(** [history[i]] *)
Definition history_at (st : State) (i : Z) : option obj :=
  if i <? 0 then None else history st !! Z.to_nat i.

(** [undo()].  Were [history[newIndex]] undefined, the next render would
    read a key of [undefined] and throw. *)
Definition undo (st : State) : outcome State :=
  if 0 <? historyIndex st then
    let newIndex := historyIndex st - 1 in
    match history_at st newIndex with
    | Some snapshot => Returned (setHistoryIndex newIndex (setData snapshot st))
    | None => Thrown
    end
  else Returned st.

(** [redo()] *)
Definition redo (st : State) : outcome State :=
  if historyIndex st <? Z.of_nat (length (history st)) - 1 then
    let newIndex := historyIndex st + 1 in
    match history_at st newIndex with
    | Some snapshot => Returned (setHistoryIndex newIndex (setData snapshot st))
    | None => Thrown
    end
  else Returned st.

(** [handleCellClick(key)] *)
Definition handleCellClick (key : string) (st : State) : State :=
  if isViewOnly st then st
  else
    let text := match view (cells st) (data st) key with
                | Some cell => value cell
                | None => ""
                end in
    mkState (cells st) (data st) (history st) (historyIndex st) key key text
            (isViewOnly st).

(** [handleCellChange(value)] *)
Definition handleCellChange (v : string) (st : State) : State :=
  if isViewOnly st then st
  else mkState (cells st) (data st) (history st) (historyIndex st)
               (selectedCell st) (editingCell st) v (isViewOnly st).

Definition startsWith_eq (s : string) : bool :=
  match s with String "=" _ => true | _ => false end.

(** A formula that is there: [if (newData[key].formula)]. *)
Definition formula_of (cell : CellData) : option string :=
  match formula cell with
  | Some EmptyString => None
  | f => f
  end.

(** The pass of [handleCellBlur] over [Object.keys(newData)]: each cell
    that has a formula gets its [value] overwritten, in place, by the
    formula evaluated on the record as it stands at that moment. *)
Fixpoint recalc `{Limits} (fuel : nat) (ks : list string) (o : obj) (h : heap)
    : outcome heap :=
  match ks with
  | [] => Returned h
  | key :: rest =>
      match obj_get o key with
      | Some r =>
          match h !! r with
          | Some cell =>
              match formula_of cell with
              | Some f =>
                  v <- evaluateFormula fuel (slice1 f) (view h o) ;;
                  recalc fuel rest o (<[r := mkCell v (formula cell)]> h)
              | None => recalc fuel rest o h
              end
          | None => recalc fuel rest o h
          end
      | None => recalc fuel rest o h
      end
  end.

(** The first statements of [handleCellBlur]: the copy of [data] and the
    assignment of a new cell object to [newData[selectedCell]]. *)
Definition assign `{Limits} (fuel : nat) (st : State) : outcome (heap * obj) :=
  let h := cells st in
  let newData := data st in
  cell <- (if startsWith_eq (editValue st) then
             v <- evaluateFormula fuel (slice1 (editValue st)) (view h newData) ;;
             Returned (mkCell v (Some (editValue st)))
           else Returned (mkCell (editValue st) None)) ;;
  Returned ((h ++ [cell])%list, obj_set newData (selectedCell st) (length h)).

(** [handleCellBlur()] *)
Definition handleCellBlur `{Limits} (fuel : nat) (st : State) : outcome State :=
  if isViewOnly st then Returned st
  else
    hd <- assign fuel st ;;
    let '(h, newData) := hd in
    h' <- recalc fuel (keys newData) newData h ;;
    let st1 := addToHistory newData (setData newData (setCells h' st)) in
    Returned (mkState (cells st1) (data st1) (history st1) (historyIndex st1)
                      (selectedCell st1) "" (editValue st1) (isViewOnly st1)).

(** A committed edit of one cell: the cell is clicked, the text typed,
    and the input left. *)
Definition edit `{Limits} (fuel : nat) (key text : string) (st : State)
    : outcome State :=
  handleCellBlur fuel (handleCellChange text (handleCellClick key st)).

(** The text shown for [key]: [data[key]?.value || ''] *)
Definition shown (st : State) (key : string) : string :=
  match view (cells st) (data st) key with
  | Some cell => value cell
  | None => ""
  end.

(** The representation invariant of a record in a heap: its keys are
    distinct, no two of them hold the same cell object, and every address
    is allocated. *)
Definition wf_store (h : heap) (o : obj) : Prop :=
  NoDup (keys o) /\ NoDup (map snd o) /\ Forall (fun r => (r < length h)%nat) (map snd o).

(** *** The grid *)

Definition COLUMNS : Z := 26.
Definition ROWS : Z := 100.

(** [Array.from({ length: COLUMNS }, (_, i) => String.fromCharCode(65 + i))] *)
Definition columnLabels : list string :=
  map (fun i => fromCharCode (add (ofZ 65) (ofZ i))) (Zcount 0 (Z.to_nat COLUMNS)).

(** [Array.from({ length: ROWS }, (_, i) => (i + 1).toString())] *)
Definition rowLabels : list string :=
  map (fun i => toString (add (ofZ i) (ofZ 1))) (Zcount 0 (Z.to_nat ROWS)).

(** [`${labels[i]}`]: an index outside the array gives [undefined]. *)
Definition label_at (labels : list string) (i : Z) : string :=
  if i <? 0 then "undefined"
  else match labels !! Z.to_nat i with
       | Some l => l
       | None => "undefined"
       end.

Definition getCellKey (col row : Z) : string :=
  label_at columnLabels col ++ label_at rowLabels row.

(** What [handleCellClick(key)] passes to [updateCursor]: the row
    [parseInt(key.slice(1)) - 1] and the column [key.charCodeAt(0) - 65]. *)
Definition cursor_of (key : string) : number * number :=
  (sub (parseInt (slice1 key)) (ofZ 1), sub (charCodeAt0 key) (ofZ 65)).

(** The keys [handleGlobalKeyDown] hands to [handleKeyboardNavigation]. *)
Inductive NavKey : Type :=
  | ArrowUp | ArrowDown | ArrowLeft | ArrowRight | Enter | Tab.

Definition string_or (o : option string) (d : string) : string :=
  match o with
  | Some EmptyString | None => d
  | Some s => s
  end.

(** [handleKeyboardNavigation(key)]: the key of the cell it then clicks
    and focuses, or nothing when no cell is selected. *)
Definition handleKeyboardNavigation (key : NavKey) (selected : string)
    : option string :=
  match selected with
  | EmptyString => None
  | _ =>
      let col := string_or (first_run is_upper selected) "A" in
      let row := parseInt (string_or (first_run is_digit selected) "1") in
      let newRow :=
        match key with
        | ArrowUp => max2 (ofZ 1) (sub row (ofZ 1))
        | ArrowDown | Enter => min2 (ofZ ROWS) (add row (ofZ 1))
        | _ => row
        end in
      let one_letter := (String.length col =? 1)%nat in
      let newCol :=
        match key with
        | ArrowLeft =>
            if one_letter
            then fromCharCode (max2 (ofZ 65) (sub (charCodeAt0 col) (ofZ 1)))
            else col
        | ArrowRight | Tab =>
            if one_letter
            then fromCharCode (min2 (ofZ 90) (add (charCodeAt0 col) (ofZ 1)))
            else col
        | _ => col
        end in
      Some (newCol ++ toString newRow)
  end.

(** The cell next to column [col], row [row] in the direction of a key,
    the grid's edge stopping the move. *)
Definition neighbour (key : NavKey) (col row : Z) : Z * Z :=
  match key with
  | ArrowUp => (col, Z.max 0 (row - 1))
  | ArrowDown | Enter => (col, Z.min (ROWS - 1) (row + 1))
  | ArrowLeft => (Z.max 0 (col - 1), row)
  | ArrowRight | Tab => (Z.min (COLUMNS - 1) (col + 1), row)
  end.

(** What is checked of every key of the grid, cell by cell: it is the key
    [parseRange] builds, it holds no colon, and its column and row are
    read back from it. *)
Definition grid_cell_ok (col row : Z) : bool :=
  let key := getCellKey col row in
  String.eqb key (address col row)
  && negb (includes ":" key)
  && same (charCodeAt0 key) (ofZ (65 + col))
  && same (parseInt (slice1 key)) (ofZ (row + 1)).

Definition nav_keys : list NavKey :=
  [ArrowUp; ArrowDown; ArrowLeft; ArrowRight; Enter; Tab].

(** Whether [handleKeyboardNavigation] goes from a cell to its neighbour. *)
Definition nav_ok (key : NavKey) (col row : Z) : bool :=
  let '(c, r) := neighbour key col row in
  match handleKeyboardNavigation key (getCellKey col row) with
  | Some k => String.eqb k (getCellKey c r)
  | None => false
  end.

(** *** Clearing and importing *)

(** The [clear] action of [handleContextMenuAction] on the cell of the
    context menu. *)
Definition clearCell (cell : string) (st : State) : State :=
  if isViewOnly st then st
  else
    let newData := obj_delete (data st) cell in
    addToHistory newData (setData newData st).

(** One row of [importedData] in [handleFileImport]: each text within the
    first [COLUMNS] of the row becomes a new cell object. *)
Fixpoint import_row (rowIndex colIndex : Z) (row : list string)
    (acc : list CellData * list (string * nat)) : list CellData * list (string * nat) :=
  match row with
  | [] => acc
  | cell :: rest =>
      let acc' :=
        if COLUMNS <=? colIndex then acc
        else let '(h, newData) := acc in
             ((h ++ [mkCell cell None])%list,
              obj_set newData (getCellKey colIndex rowIndex) (length h)) in
      import_row rowIndex (colIndex + 1) rest acc'
  end.

Fixpoint import_rows (rowIndex : Z) (rows : list (list string))
    (acc : list CellData * list (string * nat)) : list CellData * list (string * nat) :=
  match rows with
  | [] => acc
  | row :: rest =>
      let acc' := if ROWS <=? rowIndex then acc else import_row rowIndex 0 row acc in
      import_rows (rowIndex + 1) rest acc'
  end.

(** The conversion and the commit of [handleFileImport], for the rows
    [importedData] read from a CSV file. *)
Definition importData (importedData : list (list string)) (st : State) : State :=
  if isViewOnly st then st
  else
    let '(h, newData) := import_rows 0 importedData (cells st, []) in
    addToHistory newData (setData newData (setCells h st)).

(** A commit of the record [d] as in every handler: [setData(d)] and
    [addToHistory(d)]. *)
Definition commit (d : list (string * nat)) (st : State) : State :=
  addToHistory d (setData d st).

(** The cursor of the history is in range, the record under it is the one
    shown, and every record of the history lives in the heap. *)
Definition history_ok (st : State) : Prop :=
  -1 <= historyIndex st < Z.of_nat (length (history st)) /\
  (0 <= historyIndex st -> history_at st (historyIndex st) = Some (data st)).

(** What every handler keeps: the shown record and the records of the
    history are well formed in the heap, and the history is in order. *)
Definition state_ok (st : State) : Prop :=
  wf_store (cells st) (data st) /\
  Forall (wf_store (cells st)) (history st) /\
  history_ok st.

(** Edits in a row, from the first state on. *)
Definition edits `{Limits} (fuel : nat) (es : list (string * string)) (st : State)
    : outcome State :=
  fold_left (fun acc e => st' <- acc ;; edit fuel (fst e) (snd e) st')
            es (Returned st).

(** The sheet after [B1 = SUM(C1:C1)] and [C1 = SUM(A1:A1)] were entered,
    with [5] typed into [A1] and not yet committed. *)
Definition chain_state : State :=
  mkState [mkCell "0" (Some "=SUM(C1:C1)"); mkCell "0" (Some "=SUM(A1:A1)")]
          [("B1", 0%nat); ("C1", 1%nat)]
          [[("B1", 0%nat)]; [("B1", 0%nat); ("C1", 1%nat)]] 1
          "A1" "A1" "5" false.

(** The sheet with [A1 = 5], [A2 = 1] and [B1 = SUM(A1:A2)], with the
    text [=SUM(B1:B1)] typed into [A1] and not yet committed. *)
Definition cycle_state : State :=
  mkState [mkCell "5" None; mkCell "1" None; mkCell "6" (Some "=SUM(A1:A2)")]
          [("A1", 0%nat); ("A2", 1%nat); ("B1", 2%nat)]
          [[("A1", 0%nat)]; [("A1", 0%nat); ("A2", 1%nat)];
           [("A1", 0%nat); ("A2", 1%nat); ("B1", 2%nat)]] 2
          "A1" "A1" "=SUM(B1:B1)" false.

(** The sheet with [A1 = 5] and [B1 = SUM(A1:A1)], with the text [=FOO(]
    typed into [A1] and not yet committed. *)
Definition foo_state : State :=
  mkState [mkCell "5" None; mkCell "5" (Some "=SUM(A1:A1)")]
          [("A1", 0%nat); ("B1", 1%nat)]
          [[("A1", 0%nat)]; [("A1", 0%nat); ("B1", 1%nat)]] 1
          "A1" "A1" "=FOO(" false.

(** No observable staleness: every formula cell holds what its formula
    gives on the values now in the sheet. *)
Definition fresh `{Limits} (fuel : nat) (st : State) : Prop :=
  forall key cell f,
    view (cells st) (data st) key = Some cell ->
    formula_of cell = Some f ->
    evaluateFormula fuel (slice1 f) (view (cells st) (data st))
    = Returned (value cell).

End Sheet.

(** ** The CSV export and import *)

Module Csv.

Import Num Str Engine Sheet.
Open Scope string_scope.
Open Scope Z_scope.

Definition is_dquote (c : ascii) : bool := code c =? 34.
Definition newline : ascii := ascii_of_N 10.

(** The [replace] of [exportAsCSV]: every double quote is doubled. *)
Fixpoint double_quotes (s : string) : string :=
  match s with
  | String c r =>
      if is_dquote c then String c (String c (double_quotes r))
      else String c (double_quotes r)
  | EmptyString => EmptyString
  end.

(** The cell of [exportAsCSV]: the text between double quotes, its own
    double quotes doubled. *)
Definition csv_cell (cell : string) : string :=
  dquote ++ double_quotes cell ++ dquote.

(** [l.join(sep)] *)
Fixpoint join (sep : string) (l : list string) : string :=
  match l with
  | [] => EmptyString
  | [x] => x
  | x :: rest => x ++ sep ++ join sep rest
  end.

(** The rows [exportAsCSV] collects: for each row of the grid, the texts
    shown in its cells. *)
Definition csvData (st : State) : list (list string) :=
  map (fun row => map (fun col => shown st (getCellKey col row))
                      (Zcount 0 (Z.to_nat COLUMNS)))
      (Zcount 0 (Z.to_nat ROWS)).

(** The text [exportAsCSV] downloads. *)
Definition exportAsCSV (st : State) : string :=
  join (String newline EmptyString)
       (map (fun row => join "," (map csv_cell row)) (csvData st)).

(** The first [replace] of the import: a double quote at the start of the
    cell and a double quote at its end are removed. *)
Definition strip_leading_quote (s : string) : string :=
  match s with
  | String c r => if is_dquote c then r else s
  | EmptyString => EmptyString
  end.

Fixpoint strip_trailing_quote (s : string) : string :=
  match s with
  | String c EmptyString => if is_dquote c then EmptyString else s
  | String c r => String c (strip_trailing_quote r)
  | EmptyString => EmptyString
  end.

Definition strip_quotes (s : string) : string :=
  strip_trailing_quote (strip_leading_quote s).

(** The second [replace] of the import: from left to right, every pair of
    double quotes becomes one. *)
Fixpoint undouble (s : string) : string :=
  match s with
  | String a (String b r as t) =>
      if is_dquote a && is_dquote b then String a (undouble r)
      else String a (undouble t)
  | _ => s
  end.

(** The CSV branch of [handleFileImport]: the rows it reads from the text
    of the file. *)
Definition parseCSV (text : string) : list (list string) :=
  map (fun line => map (fun cell => undouble (strip_quotes cell)) (split_on "," line))
      (split_on newline text).

(** A text that holds neither a comma nor a newline. *)
Definition csv_safe (s : string) : bool :=
  forallb_str (fun c => negb (Ascii.eqb c ",") && negb (Ascii.eqb c newline)) s.

(** Counting a character in a text. *)
Fixpoint count_char (c : ascii) (s : string) : nat :=
  match s with
  | String x r => (if Ascii.eqb x c then 1 else 0) + count_char c r
  | EmptyString => 0
  end.

(** The commas and newlines held by the cells of the rows. *)
Definition unsafe_chars (rows : list (list string)) : nat :=
  list_sum (map (fun row =>
    list_sum (map (fun c => count_char "," c + count_char newline c)%nat row)) rows).

(** A sheet whose cell [A1] shows a text with double quotes, and whose
    cell [B2] holds a formula. *)
Definition quote_state : State :=
  mkState [mkCell ("say " ++ quoted "hi") None; mkCell "7" (Some "=SUM(A1:A1)")]
          [("A1", 0%nat); ("B2", 1%nat)]
          [[("A1", 0%nat); ("B2", 1%nat)]] 0
          "A1" "" "" false.

End Csv.

(** * Properties *)

(** ** Arithmetic on integers is exact below 2^53 *)

Module NumFacts.

Import Num.
Open Scope Z_scope.

Lemma rdiv_1 a : rdiv a 1 = a.
Proof.
  unfold rdiv. rewrite Z.mod_1_r, Z.div_1_r. reflexivity.
Qed.

Lemma log2Q_int n : 0 < n -> log2Q n 1 = Z.log2 n.
Proof.
  intros Hn. unfold log2Q. change (Z.log2 1) with 0. rewrite Z.sub_0_r.
  pose proof (Z.log2_nonneg n) as Hk.
  destruct (Z.leb_spec 0 (Z.log2 n)); [|lia].
  destruct (Z.ltb_spec n (2 ^ Z.log2 n * 1)); [|reflexivity].
  pose proof (Z.log2_spec n Hn). lia.
Qed.

Lemma Qred_inject_Z z : Qred (inject_Z z) = inject_Z z.
Proof. apply Qred_identity. simpl. apply Z.gcd_1_r. Qed.

Lemma scale2_exact z k : 0 <= k -> scale2 (z * 2 ^ k) (- k) = inject_Z z.
Proof.
  intros Hk. unfold scale2.
  destruct (Z.leb_spec 0 (- k)).
  - assert (k = 0) by lia. subst. simpl. now rewrite !Z.mul_1_r.
  - rewrite Z.opp_involutive. rewrite <- (Qred_inject_Z z).
    apply Qred_complete. unfold Qeq, inject_Z. simpl.
    rewrite Z2Pos.id by (apply Z.pow_pos_nonneg; lia). lia.
Qed.

Lemma round64_int z : Z.abs z < 2 ^ 53 -> round64 (inject_Z z) = ofZ z.
Proof.
  intros Hz. unfold round64, ofZ. cbn [Qnum Qden inject_Z].
  destruct (Z.eqb_spec (Z.abs z) 0) as [H0|H0].
  { assert (z = 0) by lia. now subst. }
  assert (Hpos : 0 < Z.abs z) by lia.
  rewrite log2Q_int by assumption.
  assert (Hl : Z.log2 (Z.abs z) < 53) by (apply Z.log2_lt_pow2; lia).
  pose proof (Z.log2_nonneg (Z.abs z)) as Hl0.
  rewrite Z.max_l by lia.
  set (e := Z.log2 (Z.abs z) - 52).
  assert (He : e <= 0) by (unfold e; lia).
  assert (Hov : (971 <? e) || ((e =? 971) && (2 ^ 53 <=? (if 0 <=? e then rdiv (Z.abs z) (1 * 2 ^ e) else rdiv (Z.abs z * 2 ^ (- e)) 1))) = false).
  { destruct (Z.ltb_spec 971 e); [lia|]. destruct (Z.eqb_spec e 971); [lia|]. reflexivity. }
  rewrite Hov. f_equal.
  destruct (Z.leb_spec 0 e).
  - assert (e = 0) by lia. replace e with 0. simpl (1 * 2 ^ 0). rewrite rdiv_1.
    unfold scale2. simpl. rewrite Z.mul_1_r.
    destruct (Z.ltb_spec z 0); f_equal; lia.
  - rewrite rdiv_1.
    replace (if z <? 0 then - (Z.abs z * 2 ^ (- e)) else Z.abs z * 2 ^ (- e))
      with (z * 2 ^ (- e)) by (destruct (Z.ltb_spec z 0); lia).
    replace e with (- (- e)) at 2 by lia.
    apply scale2_exact. lia.
Qed.

Lemma add_ofZ a b : Z.abs (a + b) < 2 ^ 53 -> add (ofZ a) (ofZ b) = ofZ (a + b).
Proof.
  intros H. unfold add, ofZ.
  replace (inject_Z a + inject_Z b)%Q with (inject_Z (a + b)).
  - now apply round64_int.
  - unfold Qplus, inject_Z. simpl. f_equal. lia.
Qed.

Lemma sub_ofZ a b : Z.abs (a - b) < 2 ^ 53 -> sub (ofZ a) (ofZ b) = ofZ (a - b).
Proof.
  intros H. unfold sub, opp, ofZ.
  change (- inject_Z b)%Q with (inject_Z (- b)). rewrite Qred_inject_Z.
  apply (add_ofZ a (- b)). now rewrite Z.add_opp_r.
Qed.

Lemma ltb_ofZ a b : ltb (ofZ a) (ofZ b) = (a <? b).
Proof.
  unfold ltb, ofZ, Qcompare, inject_Z. simpl. rewrite !Z.mul_1_r.
  unfold Z.ltb. reflexivity.
Qed.

Lemma eqb_ofZ a b : eqb (ofZ a) (ofZ b) = (a =? b).
Proof.
  unfold eqb, ofZ, Qeq_bool, inject_Z. simpl. rewrite !Z.mul_1_r.
  unfold Z.eqb. destruct (a ?= b) eqn:E; try reflexivity.
  all: destruct a, b; simpl in *; try discriminate; try reflexivity.
Qed.

Lemma leb_ofZ a b : leb (ofZ a) (ofZ b) = (a <=? b).
Proof.
  unfold leb. rewrite ltb_ofZ, eqb_ofZ.
  destruct (Z.ltb_spec a b), (Z.eqb_spec a b), (Z.leb_spec a b); simpl; lia || reflexivity.
Qed.

End NumFacts.

(** ** Facts about evaluation *)

Module EngineFacts.

Import Num Str Engine NumFacts.
Open Scope string_scope.
Open Scope Z_scope.

Section WithLimits.
Context {L : Limits}.

Lemma split_on_nonempty c s : split_on c s <> [].
Proof. destruct s as [|x s]; simpl; [discriminate|]. destruct (Ascii.eqb x c); [discriminate|]. destruct (split_on c s); discriminate. Qed.

Lemma split_on_includes c s :
  includes c s = true -> exists a b rest, split_on c s = a :: b :: rest.
Proof.
  unfold includes. induction s as [|x s IH]; simpl; [discriminate|].
  destruct (Ascii.eqb x c) eqn:E; simpl.
  - intros _. destruct (split_on c s) as [|p ps] eqn:Hs.
    + now apply split_on_nonempty in Hs.
    + eauto.
  - intros H. destruct (IH H) as (a & b & rest & ->). eauto.
Qed.

(** Evaluation reads [data] only through its keys. *)
Section Ext.
Variables d1 d2 : Data.
Hypothesis Hext : forall key, d1 key = d2 key.

Lemma cell_text_ext key : cell_text d1 key = cell_text d2 key.
Proof. unfold cell_text. now rewrite Hext. Qed.

Lemma evaluateValue_ext val : evaluateValue val d1 = evaluateValue val d2.
Proof. unfold evaluateValue. now rewrite cell_text_ext. Qed.

Lemma evaluateCondition_ext c : evaluateCondition c d1 = evaluateCondition c d2.
Proof.
  unfold evaluateCondition. destruct (split_condition c) as [|l [|op [|r [|]]]]; try reflexivity.
  now rewrite !evaluateValue_ext.
Qed.

Lemma for_cols_ext fuel : forall c e r cells,
  for_cols fuel c e r d1 cells = for_cols fuel c e r d2 cells.
Proof.
  induction fuel as [|f IH]; simpl; intros; [reflexivity|].
  destruct (leb c e); [|reflexivity]. rewrite cell_text_ext.
  destruct (push cells _); simpl; auto.
Qed.

Lemma for_rows_ext fuel : forall r e c1 c2 cells,
  for_rows fuel r e c1 c2 d1 cells = for_rows fuel r e c1 c2 d2 cells.
Proof.
  induction fuel as [|f IH]; intros; [reflexivity|].
  cbn [for_rows]. destruct (leb r e); [|reflexivity].
  rewrite for_cols_ext. destruct (for_cols (S f) c1 c2 r d2 cells); simpl; auto.
Qed.

Lemma parseValues_ext fuel arg : parseValues fuel arg d1 = parseValues fuel arg d2.
Proof.
  unfold parseValues, parseRange. rewrite evaluateValue_ext.
  destruct (includes ":" (trim arg)); [|reflexivity].
  destruct (split_on ":" (trim arg)) as [|a [|b rest]]; try reflexivity.
  now rewrite for_rows_ext.
Qed.

Lemma evaluateFormula_ext fuel formula :
  evaluateFormula fuel formula d1 = evaluateFormula fuel formula d2.
Proof.
  unfold evaluateFormula.
  repeat match goal with
  | |- context [match match_call ?n ?s with _ => _ end] =>
      destruct (match_call n s); [now rewrite parseValues_ext|]
  end.
  destruct (match_if _) as [[[g1 g2] g3]|]; [|reflexivity].
  now rewrite evaluateCondition_ext, !evaluateValue_ext.
Qed.
End Ext.

Lemma evaluateFormula_unrecognized fuel formula data :
  recognized formula = false -> evaluateFormula fuel formula data = Returned "0".
Proof.
  unfold recognized, evaluateFormula.
  destruct (match_call "SUM" _); [discriminate|].
  destruct (match_call "AVERAGE" _); [discriminate|].
  destruct (match_call "COUNT" _); [discriminate|].
  destruct (match_call "MIN" _); [discriminate|].
  destruct (match_call "MAX" _); [discriminate|].
  destruct (match_if _); [discriminate|]. reflexivity.
Qed.

Lemma toUpperCase_app s t : toUpperCase (s ++ t) = toUpperCase s ++ toUpperCase t.
Proof. induction s as [|c s IH]; simpl; [reflexivity|now rewrite IH]. Qed.

Lemma upper_char_line_terminator c :
  is_line_terminator (upper_char c) = is_line_terminator c.
Proof. destruct c as [[] [] [] [] [] [] [] []]; reflexivity. Qed.

Lemma toUpperCase_no_line_terminator s :
  no_line_terminator (toUpperCase s) = no_line_terminator s.
Proof.
  unfold no_line_terminator.
  induction s as [|c s IH]; simpl; [reflexivity|].
  now rewrite upper_char_line_terminator, IH.
Qed.

Lemma toUpperCase_nonempty s : nonempty (toUpperCase s) = nonempty s.
Proof. now destruct s. Qed.

Lemma strip_prefix_app p s : strip_prefix p (p ++ s) = Some s.
Proof.
  induction p as [|c p IH]; simpl; [reflexivity|]. now rewrite Ascii.eqb_refl.
Qed.

Lemma strip_last_app s c : strip_last c (s ++ String c "") = Some s.
Proof.
  induction s as [|x s IH]; simpl.
  - now rewrite Ascii.eqb_refl.
  - rewrite IH. destruct (s ++ String c "") eqn:E; [|reflexivity].
    destruct s; discriminate.
Qed.

Lemma append_assoc (s t u : string) : (s ++ t) ++ u = s ++ (t ++ u).
Proof.
  induction s as [|c s IH]; [reflexivity|].
  change (String c ((s ++ t) ++ u) = String c (s ++ (t ++ u))). now rewrite IH.
Qed.

Lemma match_call_intro name g :
  nonempty g = true -> no_line_terminator g = true ->
  match_call name (name ++ "(" ++ g ++ ")") = Some g.
Proof.
  intros Hn Hl. unfold match_call.
  replace (name ++ "(" ++ g ++ ")") with ((name ++ "(") ++ g ++ ")")
    by now rewrite append_assoc.
  rewrite strip_prefix_app, strip_last_app.
  unfold no_line_terminator in Hl. now rewrite Hn, Hl.
Qed.

Lemma match_sum_intro arg :
  nonempty arg = true -> no_line_terminator arg = true ->
  match_call "SUM" (toUpperCase ("SUM(" ++ arg ++ ")")) = Some (toUpperCase arg).
Proof.
  intros Hn Hl.
  change ("SUM(" ++ arg ++ ")") with ("SUM" ++ "(" ++ arg ++ ")").
  rewrite !toUpperCase_app. apply (match_call_intro "SUM").
  - now rewrite toUpperCase_nonempty.
  - now rewrite toUpperCase_no_line_terminator.
Qed.

Lemma push_room {A} (cells : list A) x :
  (length cells < array_limit)%nat -> push cells x = Returned (cells ++ [x])%list.
Proof.
  intros H. unfold push. now destruct (Nat.ltb_spec (length cells) array_limit); [|lia].
Qed.

Lemma push_full {A} (cells : list A) x :
  (array_limit <= length cells)%nat -> push cells x = Thrown.
Proof.
  intros H. unfold push. now destruct (Nat.ltb_spec (length cells) array_limit); [lia|].
Qed.

Lemma array_limit_grid : (GRID_CELLS <= array_limit)%nat.
Proof. unfold array_limit. lia. Qed.

Lemma arguments_limit_grid : (GRID_CELLS <= arguments_limit)%nat.
Proof. unfold arguments_limit. lia. Qed.

Lemma spread_room {A B} (f : list A -> B) args :
  (length args <= arguments_limit)%nat -> spread f args = Returned (f args).
Proof.
  intros H. unfold spread. now destruct (Nat.leb_spec (length args) arguments_limit); [|lia].
Qed.

Lemma spread_full {A B} (f : list A -> B) args :
  (arguments_limit < length args)%nat -> spread f args = Thrown.
Proof.
  intros H. unfold spread. now destruct (Nat.leb_spec (length args) arguments_limit); [lia|].
Qed.

(** The inner loop on the columns [c..d]: the cells of the row when the
    array has room for them. *)
Lemma for_cols_range data r d : forall n fuel c acc,
  Z.to_nat (d - c + 1) = n -> (n < fuel)%nat ->
  - 2 ^ 52 < c <= 2 ^ 52 -> Z.abs d < 2 ^ 52 ->
  (length acc + n <= array_limit)%nat ->
  for_cols fuel (ofZ c) (ofZ d) (ofZ r) data acc
  = Returned (acc ++ map (fun c => cell_text data (address c r)) (Zrange c d))%list.
Proof.
  unfold Zrange.
  induction n as [|n IH]; intros fuel c acc Hn Hf Hc Hd Hroom; rewrite Hn;
    (destruct fuel as [|f]; [lia|]); cbn [for_cols]; rewrite leb_ofZ.
  - destruct (Z.leb_spec c d); [lia|]. simpl. now rewrite app_nil_r.
  - destruct (Z.leb_spec c d); [|lia].
    rewrite push_room by lia. cbn [bind].
    rewrite add_ofZ by lia. rewrite (IH f (c + 1)) by (rewrite ?length_app; cbn [length]; lia).
    replace (Z.to_nat (d - (c + 1) + 1)) with n by lia.
    cbn [Zcount map]. rewrite <- app_assoc. reflexivity.
Qed.

(** The inner loop when the array has no room for the cells of the row. *)
Lemma for_cols_overflow data r d : forall n fuel c acc,
  Z.to_nat (d - c + 1) = n -> (n < fuel)%nat ->
  - 2 ^ 52 < c <= 2 ^ 52 -> Z.abs d < 2 ^ 52 ->
  (array_limit < length acc + n)%nat ->
  (length acc <= array_limit)%nat ->
  for_cols fuel (ofZ c) (ofZ d) (ofZ r) data acc = Thrown.
Proof.
  induction n as [|n IH]; intros fuel c acc Hn Hf Hc Hd Hover Hacc; [lia|].
  destruct fuel as [|f]; [lia|]. cbn [for_cols]. rewrite leb_ofZ.
  destruct (Z.leb_spec c d); [|lia].
  destruct (Nat.lt_ge_cases (length acc) array_limit) as [Hlt|Hge].
  - rewrite push_room by exact Hlt. cbn [bind]. rewrite add_ofZ by lia.
    apply IH; rewrite ?length_app; cbn [length]; lia.
  - now rewrite push_full.
Qed.

Lemma length_Zrange lo hi : length (Zrange lo hi) = Z.to_nat (hi - lo + 1).
Proof.
  unfold Zrange. generalize (Z.to_nat (hi - lo + 1)) as n. intros n. revert lo.
  induction n as [|n IH]; intros lo; simpl; [reflexivity|]. now rewrite IH.
Qed.

(** The loops on the rows [r1..r2] and the columns [c1..c2]: the cells of
    the rectangle when the array has room for them. *)
Lemma for_rows_range data c1 c2 r2 : forall n fuel r1 acc,
  Z.to_nat (r2 - r1 + 1) = n ->
  (n + Z.to_nat (c2 - c1 + 1) < fuel)%nat ->
  Z.abs c1 < 2 ^ 52 -> Z.abs c2 < 2 ^ 52 ->
  - 2 ^ 52 < r1 <= 2 ^ 52 -> Z.abs r2 < 2 ^ 52 ->
  (length acc + n * Z.to_nat (c2 - c1 + 1) <= array_limit)%nat ->
  for_rows fuel (ofZ r1) (ofZ r2) (ofZ c1) (ofZ c2) data acc
  = Returned (acc ++ rectangle data c1 r1 c2 r2)%list.
Proof.
  unfold rectangle, Zrange at 2.
  remember (Z.to_nat (c2 - c1 + 1)) as m eqn:Hm.
  induction n as [|n IH]; intros fuel r1 acc Hn Hf Hc1 Hc2 Hr1 Hr2 Hroom; rewrite Hn;
    (destruct fuel as [|f]; [lia|]); cbn [for_rows]; rewrite leb_ofZ.
  - destruct (Z.leb_spec r1 r2); [lia|]. simpl. now rewrite app_nil_r.
  - destruct (Z.leb_spec r1 r2); [|lia]. rewrite Nat.mul_succ_l in Hroom.
    rewrite (for_cols_range data r1 c2 m (S f) c1 acc (eq_sym Hm)) by lia.
    cbn [bind]. rewrite add_ofZ by lia.
    rewrite (IH f (r1 + 1))
      by (rewrite ?length_app, ?length_map, ?length_Zrange, <- ?Hm; lia).
    replace (Z.to_nat (r2 - (r1 + 1) + 1)) with n by lia.
    cbn [Zcount flat_map]. rewrite <- app_assoc. reflexivity.
Qed.

(** The loops when the array has no room for the cells of the rectangle:
    [push] throws. *)
Lemma for_rows_overflow data c1 c2 r2 : forall n fuel r1 acc,
  Z.to_nat (r2 - r1 + 1) = n ->
  (n + Z.to_nat (c2 - c1 + 1) < fuel)%nat ->
  Z.abs c1 < 2 ^ 52 -> Z.abs c2 < 2 ^ 52 ->
  - 2 ^ 52 < r1 <= 2 ^ 52 -> Z.abs r2 < 2 ^ 52 ->
  (array_limit < length acc + n * Z.to_nat (c2 - c1 + 1))%nat ->
  (length acc <= array_limit)%nat ->
  for_rows fuel (ofZ r1) (ofZ r2) (ofZ c1) (ofZ c2) data acc = Thrown.
Proof.
  remember (Z.to_nat (c2 - c1 + 1)) as m eqn:Hm.
  induction n as [|n IH]; intros fuel r1 acc Hn Hf Hc1 Hc2 Hr1 Hr2 Hover Hacc; [lia|].
  destruct fuel as [|f]; [lia|]. cbn [for_rows]. rewrite leb_ofZ.
  destruct (Z.leb_spec r1 r2); [|lia]. rewrite Nat.mul_succ_l in Hover.
  destruct (Nat.le_gt_cases (length acc + m) array_limit) as [Hfit|Hnofit].
  - rewrite (for_cols_range data r1 c2 m (S f) c1 acc (eq_sym Hm)) by lia.
    cbn [bind]. rewrite add_ofZ by lia.
    apply IH; rewrite ?length_app, ?length_map, ?length_Zrange, <- ?Hm; lia.
  - now rewrite (for_cols_overflow data r1 c2 m (S f) c1 acc (eq_sym Hm)) by lia.
Qed.

Lemma code_bounds a : 0 <= code a < 256.
Proof.
  unfold code. pose proof (N_ascii_bounded a). lia.
Qed.

(** At row 10^20 the increment of the row counter is lost to rounding.
    When the columns run backwards nothing is pushed, and the outer loop
    goes round for ever. *)
Lemma for_rows_stuck data c1 c2 : leb c1 c2 = false -> forall fuel acc,
  for_rows fuel (ofZ huge_row) (ofZ huge_row) c1 c2 data acc = OutOfFuel.
Proof.
  intros Hc. induction fuel as [|f IH]; intros acc; [reflexivity|].
  cbn [for_rows for_cols]. change (leb (ofZ huge_row) (ofZ huge_row)) with true.
  rewrite Hc. cbn [bind].
  change (add (ofZ huge_row) (ofZ 1)) with (ofZ huge_row). apply IH.
Qed.

(** When the columns run forwards every round pushes a cell, until the
    array is full and [push] throws. *)
Lemma for_rows_stuck_overflow data c : forall n fuel acc,
  (array_limit - length acc = n)%nat -> (n + 1 < fuel)%nat ->
  (length acc <= array_limit)%nat ->
  Z.abs c < 2 ^ 52 ->
  for_rows fuel (ofZ huge_row) (ofZ huge_row) (ofZ c) (ofZ c) data acc = Thrown.
Proof.
  induction n as [|n IH]; intros fuel acc Hn Hf Hacc Hc;
    (destruct fuel as [|f]; [lia|]); cbn [for_rows];
    change (leb (ofZ huge_row) (ofZ huge_row)) with true; cbv iota.
  - now rewrite (for_cols_overflow data huge_row c 1%nat (S f) c acc) by lia.
  - rewrite (for_cols_range data huge_row c 1%nat (S f) c acc) by lia.
    cbn [bind]. change (add (ofZ huge_row) (ofZ 1)) with (ofZ huge_row).
    assert (Hone : Z.to_nat (c - c + 1) = 1%nat) by lia.
    apply IH; rewrite ?length_app, ?length_map, ?length_Zrange, ?Hone; lia.
Qed.

End WithLimits.

End EngineFacts.

(** ** Facts about the records, the heap and the pass *)

Module SheetFacts.

Import Num Str Engine Sheet NumFacts EngineFacts.
Open Scope string_scope.
Open Scope Z_scope.

Section WithLimits.
Context {L : Limits}.

Lemma obj_get_set_eq o k r : obj_get (obj_set o k r) k = Some r.
Proof.
  induction o as [|[k' r'] o IH]; simpl.
  - now rewrite String.eqb_refl.
  - destruct (String.eqb k' k) eqn:E; simpl; now rewrite E.
Qed.

Lemma obj_get_set_ne o k k' r : k <> k' -> obj_get (obj_set o k r) k' = obj_get o k'.
Proof.
  intros Hne. induction o as [|[k0 r0] o IH]; simpl.
  - destruct (String.eqb_spec k k'); congruence.
  - destruct (String.eqb_spec k0 k); simpl.
    + subst. now destruct (String.eqb_spec k k').
    + now rewrite IH.
Qed.

Lemma obj_get_elem o k r : obj_get o k = Some r -> (k, r) ∈ o.
Proof.
  induction o as [|[k0 r0] o IH]; simpl; [discriminate|].
  destruct (String.eqb_spec k0 k).
  - intros [= ->]. subst. left.
  - intros H. right. auto.
Qed.

Lemma obj_get_key o k r : obj_get o k = Some r -> k ∈ keys o.
Proof.
  intros H. apply obj_get_elem in H. unfold keys.
  apply (list_elem_of_fmap_2 fst) in H. exact H.
Qed.

Lemma obj_get_ref o k r : obj_get o k = Some r -> r ∈ map snd o.
Proof.
  intros H. apply obj_get_elem in H.
  apply (list_elem_of_fmap_2 snd) in H. exact H.
Qed.

Lemma keys_obj_set o k r :
  keys (obj_set o k r) = if decide (k ∈ keys o) then keys o else (keys o ++ [k])%list.
Proof.
  induction o as [|[k0 r0] o IH].
  - destruct (decide (k ∈ keys [])) as [H|_]; [|reflexivity].
    now apply elem_of_nil in H.
  - cbn [obj_set keys map fst]. destruct (String.eqb_spec k0 k) as [->|Hne].
    + destruct (decide (k ∈ k :: map fst o)) as [_|H]; [reflexivity|].
      exfalso. apply H. left.
    + cbn [map fst]. fold (keys (obj_set o k r)). rewrite IH. fold (keys o).
      destruct (decide (k ∈ keys o)) as [Hin|Hin];
        destruct (decide (k ∈ k0 :: keys o)) as [Hin'|Hin']; try reflexivity.
      * exfalso. apply Hin'. now right.
      * apply elem_of_cons in Hin' as [?|?]; congruence.
Qed.

Lemma refs_obj_set o k r : forall x, x ∈ map snd (obj_set o k r) -> x = r \/ x ∈ map snd o.
Proof.
  induction o as [|[k0 r0] o IH]; simpl; intros x.
  - rewrite list_elem_of_singleton. auto.
  - destruct (String.eqb_spec k0 k); simpl; rewrite !elem_of_cons.
    + tauto.
    + intros [?|H]; [tauto|]. apply IH in H. tauto.
Qed.

Lemma NoDup_refs_obj_set o k r :
  NoDup (map snd o) -> r ∉ map snd o -> NoDup (map snd (obj_set o k r)).
Proof.
  induction o as [|[k0 r0] o IH]; simpl; intros Hnd Hr.
  - apply NoDup_singleton.
  - apply NoDup_cons in Hnd as [Hr0 Hnd]. apply not_elem_of_cons in Hr as [Hne Hr].
    destruct (String.eqb_spec k0 k); simpl.
    + apply NoDup_cons. split; assumption.
    + apply NoDup_cons. split; [|auto].
      intros H. apply refs_obj_set in H as [?|?]; congruence.
Qed.

Lemma wf_store_assign h o k c :
  wf_store h o -> wf_store (h ++ [c])%list (obj_set o k (length h)).
Proof.
  intros (Hk & Hr & Hb). rewrite Forall_forall in Hb.
  assert (Hfresh : length h ∉ map snd o).
  { intros H. apply Hb in H. lia. }
  repeat split.
  - rewrite keys_obj_set. destruct (decide (k ∈ keys o)); [assumption|].
    apply NoDup_app. repeat split; [assumption| |apply NoDup_singleton].
    intros x Hx Hx'. apply list_elem_of_singleton in Hx'. congruence.
  - now apply NoDup_refs_obj_set.
  - rewrite Forall_forall. intros x Hx. rewrite length_app. simpl.
    apply refs_obj_set in Hx as [->|Hx]; [lia|].
    apply Hb in Hx. lia.
Qed.

Lemma wf_refs_inj h o k1 k2 r :
  wf_store h o -> obj_get o k1 = Some r -> obj_get o k2 = Some r -> k1 = k2.
Proof.
  intros (_ & Hr & _) H1 H2.
  apply obj_get_elem, list_elem_of_lookup in H1 as [i Hi].
  apply obj_get_elem, list_elem_of_lookup in H2 as [j Hj].
  assert (i = j).
  { eapply NoDup_lookup; [exact Hr| |]; rewrite list_lookup_fmap.
    - rewrite Hi. reflexivity.
    - rewrite Hj. reflexivity. }
  subst. congruence.
Qed.

Lemma recalc_app fuel ks1 : forall ks2 o h,
  recalc fuel (ks1 ++ ks2) o h = bind (recalc fuel ks1 o h) (recalc fuel ks2 o).
Proof.
  induction ks1 as [|k ks1 IH]; intros; [reflexivity|].
  simpl. destruct (obj_get o k) as [r|]; [|apply IH].
  destruct (h !! r) as [cell|]; [|apply IH].
  destruct (formula_of cell) as [f|]; [|apply IH].
  destruct (evaluateFormula fuel (slice1 f) (view h o)); simpl; auto.
Qed.

(** What one pass leaves alone: the size of the heap, every cell whose
    key is not visited, and every [formula] field. *)
Lemma recalc_frame fuel o ks : forall h h',
  recalc fuel ks o h = Returned h' ->
  length h' = length h /\
  (forall r, (forall key, key ∈ ks -> obj_get o key <> Some r) -> h' !! r = h !! r) /\
  (forall r, formula <$> (h' !! r) = formula <$> (h !! r)).
Proof.
  induction ks as [|k ks IH]; simpl; intros h h' H.
  - injection H as <-. auto.
  - assert (Hskip : recalc fuel ks o h = Returned h' ->
      length h' = length h /\
      (forall r, (forall key, key ∈ k :: ks -> obj_get o key <> Some r) -> h' !! r = h !! r) /\
      (forall r, formula <$> (h' !! r) = formula <$> (h !! r))).
    { intros H'. destruct (IH _ _ H') as (Hl & Hf & Hm). repeat split; auto.
      intros r Hr. apply Hf. intros key Hk. apply Hr. now right. }
    destruct (obj_get o k) as [r|] eqn:Hg; [|auto].
    destruct (h !! r) as [cell|] eqn:Hc; [|auto].
    destruct (formula_of cell) as [f|]; [|auto].
    destruct (evaluateFormula fuel (slice1 f) (view h o)) as [v| |]; simpl in H; try discriminate.
    destruct (IH _ _ H) as (Hl & Hf & Hm). rewrite length_insert in Hl.
    repeat split; [assumption| |].
    + intros r' Hr'. rewrite Hf.
      * apply list_lookup_insert_ne. intros ->. apply (Hr' k); [left|assumption].
      * intros key Hk. apply Hr'. now right.
    + intros r'. rewrite Hm. destruct (decide (r = r')) as [<-|Hne].
      * rewrite list_lookup_insert_eq by (eapply lookup_lt_Some; eassumption).
        rewrite Hc. reflexivity.
      * now rewrite list_lookup_insert_ne.
Qed.

Lemma formula_of_eq c1 c2 : formula c1 = formula c2 -> formula_of c1 = formula_of c2.
Proof. unfold formula_of. now intros ->. Qed.

(** The pass, cell by cell.  When the turn of the [i]-th key comes the
    heap is [hi]: the cells of the keys before it already hold their new
    values, the others still hold their old ones; the value stored for the
    [i]-th key is its formula evaluated on [hi]. *)
Lemma recalc_turn fuel o h h' i key r cell' f :
  wf_store h o ->
  recalc fuel (keys o) o h = Returned h' ->
  keys o !! i = Some key ->
  obj_get o key = Some r ->
  h' !! r = Some cell' ->
  formula_of cell' = Some f ->
  exists hi,
    recalc fuel (take i (keys o)) o h = Returned hi /\
    evaluateFormula fuel (slice1 f) (view hi o) = Returned (value cell') /\
    forall j kj rj, keys o !! j = Some kj -> obj_get o kj = Some rj ->
      ((j < i)%nat -> hi !! rj = h' !! rj) /\ ((i <= j)%nat -> hi !! rj = h !! rj).
Proof.
  intros Hwf Hrun Hi Hg Hc' Hf.
  pose proof Hwf as (Hnd & _ & _).
  pose proof (take_drop_middle _ _ _ Hi) as Hsplit.
  rewrite <- Hsplit, recalc_app in Hrun.
  destruct (recalc fuel (take i (keys o)) o h) as [hi| |] eqn:Hpre; try discriminate.
  simpl in Hrun.
  destruct (recalc_frame _ _ _ _ _ Hpre) as (Hl1 & Hf1 & Hm1).
  (* keys at other positions hold other cells *)
  assert (Hother : forall j kj, keys o !! j = Some kj -> j <> i -> obj_get o kj <> Some r).
  { intros j kj Hj Hji Hr. apply Hji.
    assert (kj = key) by (eapply wf_refs_inj; eassumption). subst.
    eapply NoDup_lookup; eassumption. }
  assert (Hbefore : forall kj, kj ∈ take i (keys o) -> obj_get o kj <> Some r).
  { intros kj Hk. apply list_elem_of_lookup in Hk as [j Hj].
    pose proof (lookup_lt_Some _ _ _ Hj) as Hlt. rewrite length_take in Hlt.
    rewrite lookup_take_lt in Hj by lia. apply (Hother j); [assumption|lia]. }
  assert (Hafter : forall kj, kj ∈ drop (S i) (keys o) -> obj_get o kj <> Some r).
  { intros kj Hk. apply list_elem_of_lookup in Hk as [j Hj].
    rewrite lookup_drop in Hj. apply (Hother (S i + j)%nat); [assumption|lia]. }
  rewrite Hg in Hrun.
  assert (Hir : hi !! r = h !! r) by (apply Hf1; assumption).
  destruct (hi !! r) as [cell|] eqn:Hc.
  2:{ destruct (recalc_frame _ _ _ _ _ Hrun) as (_ & Hf2 & _).
      rewrite Hf2 in Hc' by assumption. congruence. }
  assert (Hfc : formula_of cell = Some f).
  { destruct (formula_of cell) as [f0|] eqn:E.
    - destruct (evaluateFormula fuel (slice1 f0) (view hi o)) as [v| |]; simpl in Hrun; try discriminate.
      destruct (recalc_frame _ _ _ _ _ Hrun) as (_ & Hf2 & _).
      rewrite Hf2 in Hc' by assumption.
      rewrite list_lookup_insert_eq in Hc' by (eapply lookup_lt_Some; eassumption).
      injection Hc' as <-. rewrite <- Hf, <- E. now apply formula_of_eq.
    - destruct (recalc_frame _ _ _ _ _ Hrun) as (_ & Hf2 & _).
      rewrite Hf2 in Hc' by assumption. congruence. }
  rewrite Hfc in Hrun.
  destruct (evaluateFormula fuel (slice1 f) (view hi o)) as [v| |] eqn:Hev; simpl in Hrun; try discriminate.
  destruct (recalc_frame _ _ _ _ _ Hrun) as (_ & Hf2 & _).
  exists hi. split; [reflexivity|]. split.
  - rewrite Hf2 in Hc' by assumption.
    rewrite list_lookup_insert_eq in Hc' by (eapply lookup_lt_Some; eassumption).
    injection Hc' as <-. exact Hev.
  - intros j kj rj Hj Hgj. split; intros Hlt.
    + assert (Hne : r <> rj).
      { intros <-. apply (Hother j kj); [assumption|lia|assumption]. }
      rewrite Hf2.
      * symmetry. now apply list_lookup_insert_ne.
      * intros k' Hk' Hgk'. apply list_elem_of_lookup in Hk' as [m Hm].
        rewrite lookup_drop in Hm.
        assert (k' = kj) by (eapply wf_refs_inj; eassumption). subst.
        assert ((S i + m)%nat = j) by (eapply NoDup_lookup; eassumption). lia.
    + apply Hf1. intros k' Hk' Hgk'. apply list_elem_of_lookup in Hk' as [m Hm].
      pose proof (lookup_lt_Some _ _ _ Hm) as Hlt'. rewrite length_take in Hlt'.
      rewrite lookup_take_lt in Hm by lia.
      assert (k' = kj) by (eapply wf_refs_inj; eassumption). subst.
      assert (m = j) by (eapply NoDup_lookup; eassumption). lia.
Qed.

Lemma assign_inv fuel st h o :
  assign fuel st = Returned (h, o) ->
  exists cell, h = (cells st ++ [cell])%list /\
    o = obj_set (data st) (selectedCell st) (length (cells st)) /\
    (if startsWith_eq (editValue st)
     then formula cell = Some (editValue st) /\
          evaluateFormula fuel (slice1 (editValue st)) (view (cells st) (data st))
          = Returned (value cell)
     else cell = mkCell (editValue st) None).
Proof.
  unfold assign. destruct (startsWith_eq (editValue st)).
  - destruct (evaluateFormula _ _ _) as [v| |]; simpl; try discriminate.
    intros [= <- <-]. eexists. repeat split.
  - simpl. intros [= <- <-]. eexists. repeat split.
Qed.

Lemma assign_wf fuel st h o :
  wf_store (cells st) (data st) -> assign fuel st = Returned (h, o) -> wf_store h o.
Proof.
  intros Hwf H. apply assign_inv in H as (cell & -> & -> & _).
  now apply wf_store_assign.
Qed.

Lemma handleCellBlur_inv fuel st st' :
  isViewOnly st = false ->
  handleCellBlur fuel st = Returned st' ->
  exists h o h', assign fuel st = Returned (h, o) /\
    recalc fuel (keys o) o h = Returned h' /\
    st' = mkState h' o (slice0 (historyIndex st + 1) (history st) ++ [o])%list
            (Z.of_nat (length (slice0 (historyIndex st + 1) (history st) ++ [o])%list) - 1)
            (selectedCell st) "" (editValue st) false.
Proof.
  intros Hv. unfold handleCellBlur. rewrite Hv.
  destruct (assign fuel st) as [[h o]| |]; simpl; try discriminate.
  destruct (recalc fuel (keys o) o h) as [h'| |] eqn:Hr; simpl; try discriminate.
  intros [= <-]. exists h, o, h'. split; [reflexivity|]. split; [exact Hr|].
  simpl. now rewrite Hv.
Qed.


End WithLimits.

Ltac nodup_list :=
  repeat (apply NoDup_cons; split;
          [rewrite ?elem_of_cons, ?elem_of_nil; intuition discriminate|]);
  apply NoDup_nil; exact I.

Section WithLimits.
Context {L : Limits}.

Lemma chain_state_reached :
  (st <- edits 50 [("B1", "=SUM(C1:C1)"); ("C1", "=SUM(A1:A1)")] (initial false) ;;
   Returned (handleCellChange "5" (handleCellClick "A1" st)))
  = Returned chain_state.
Proof. vm_compute. reflexivity. Qed.

Lemma wf_chain_state : wf_store (cells chain_state) (data chain_state).
Proof.
  repeat split; simpl; [nodup_list|nodup_list|repeat constructor].
Defined.

Lemma cycle_state_reached :
  (st <- edits 50 [("A1", "5"); ("A2", "1"); ("B1", "=SUM(A1:A2)")] (initial false) ;;
   Returned (handleCellChange "=SUM(B1:B1)" (handleCellClick "A1" st)))
  = Returned cycle_state.
Proof. vm_compute. reflexivity. Qed.

Lemma wf_cycle_state : wf_store (cells cycle_state) (data cycle_state).
Proof.
  repeat split; simpl; [nodup_list|nodup_list|repeat constructor].
Defined.

Lemma foo_state_reached :
  (st <- edits 50 [("A1", "5"); ("B1", "=SUM(A1:A1)")] (initial false) ;;
   Returned (handleCellChange "=FOO(" (handleCellClick "A1" st)))
  = Returned foo_state.
Proof. vm_compute. reflexivity. Qed.

Lemma wf_foo_state : wf_store (cells foo_state) (data foo_state).
Proof.
  repeat split; simpl; [nodup_list|nodup_list|repeat constructor].
Defined.

End WithLimits.

End SheetFacts.

(** ** More on evaluation: the patterns, the filter, the conditions *)

Module EvalFacts.

Import Num Str Engine NumFacts EngineFacts.
Open Scope string_scope.
Open Scope Z_scope.

Section WithLimits.
Context {L : Limits}.

Lemma includes_split_on_false c s :
  includes c s = false -> split_on c s = [s].
Proof.
  unfold includes. induction s as [|x s IH]; simpl; [reflexivity|].
  destruct (Ascii.eqb x c); simpl; [discriminate|].
  intros H. now rewrite IH.
Qed.

(** *** Texts that do not end in a closing parenthesis *)

Lemma strip_prefix_inv p : forall s r, strip_prefix p s = Some r -> s = p ++ r.
Proof.
  induction p as [|a p IH]; simpl; intros s r H.
  - now injection H as ->.
  - destruct s as [|b s]; [discriminate|].
    destruct (Ascii.eqb_spec a b); [|discriminate]. subst.
    now rewrite (IH _ _ H).
Qed.

Lemma span_app p : forall s a b, span p s = (a, b) -> s = a ++ b.
Proof.
  induction s as [|c s IH]; simpl; intros a b H.
  - now injection H as <- <-.
  - destruct (p c).
    + destruct (span p s) as [a' b'] eqn:E. injection H as <- <-.
      simpl. now rewrite (IH _ _ eq_refl).
    + now injection H as <- <-.
Qed.

Lemma span_rest p : forall s a c b, span p s = (a, String c b) -> p c = false.
Proof.
  induction s as [|x s IH]; simpl; intros a c b H; [discriminate|].
  destruct (p x) eqn:Ex.
  - destruct (span p s) as [a' b'] eqn:Es. injection H as <- ->.
    now apply (IH a' c b).
  - now injection H as <- <- <-.
Qed.

Lemma strip_last_app_r c p : forall r x,
  strip_last c r = Some x -> strip_last c (p ++ r) = Some (p ++ x).
Proof.
  induction p as [|a p IH]; intros r x H; [exact H|].
  change (String a p ++ r) with (String a (p ++ r)).
  cbn [strip_last]. rewrite (IH _ _ H).
  destruct (p ++ r) eqn:E; [|reflexivity].
  destruct p as [|b p].
  - change (r = "") in E. subst r. discriminate H.
  - change (String b (p ++ r) = "") in E. discriminate E.
Qed.

Lemma strip_last_None_suffix c p r :
  strip_last c (p ++ r) = None -> strip_last c r = None.
Proof.
  intros H. destruct (strip_last c r) eqn:E; [|reflexivity].
  now rewrite (strip_last_app_r _ _ _ _ E) in H.
Qed.

Lemma upper_char_rparen c : Ascii.eqb (upper_char c) ")" = Ascii.eqb c ")".
Proof. destruct c as [[] [] [] [] [] [] [] []]; reflexivity. Qed.

Lemma strip_last_toUpperCase s :
  strip_last ")" s = None -> strip_last ")" (toUpperCase s) = None.
Proof.
  induction s as [|x s IH]; [reflexivity|].
  cbn [strip_last toUpperCase]. destruct s as [|y s].
  - cbn [toUpperCase]. rewrite upper_char_rparen. now destruct (Ascii.eqb x ")").
  - intros H. destruct (strip_last ")" (String y s)) eqn:E; [discriminate|].
    specialize (IH eq_refl). cbn [toUpperCase] in IH |- *. now rewrite IH.
Qed.

Lemma match_call_needs_rparen name u :
  strip_last ")" u = None -> match_call name u = None.
Proof.
  intros H. unfold match_call.
  destruct (strip_prefix (name ++ "(") u) as [r|] eqn:E; [|reflexivity].
  apply strip_prefix_inv in E. subst u.
  now rewrite (strip_last_None_suffix _ _ _ H).
Qed.

Lemma match_if_needs_rparen u :
  strip_last ")" u = None -> match_if u = None.
Proof.
  intros H. unfold match_if.
  destruct (strip_prefix "IF(" u) as [r|] eqn:E; [|reflexivity].
  apply strip_prefix_inv in E. subst u. apply strip_last_None_suffix in H.
  destruct (span not_comma r) as [g1 r1] eqn:E1. apply span_app in E1. subst r.
  apply strip_last_None_suffix in H.
  destruct r1 as [|c1 r1]; [reflexivity|].
  apply (strip_last_None_suffix _ (String c1 "")) in H.
  destruct (span not_comma r1) as [g2 r2] eqn:E2. apply span_app in E2. subst r1.
  apply strip_last_None_suffix in H.
  destruct r2 as [|c2 r2]; [reflexivity|].
  apply (strip_last_None_suffix _ (String c2 "")) in H.
  destruct (span not_rparen r2) as [g3 r3] eqn:E3.
  pose proof E3 as E3'. apply span_app in E3'. subst r2.
  apply strip_last_None_suffix in H.
  destruct r3 as [|c3 [|]]; try reflexivity.
  (* what follows the third group starts with a closing parenthesis *)
  exfalso. apply span_rest in E3. unfold not_rparen in E3.
  simpl in H. destruct (Ascii.eqb c3 ")"); discriminate.
Qed.

Lemma unclosed_unrecognized f :
  strip_last ")" f = None -> recognized f = false.
Proof.
  intros H. apply strip_last_toUpperCase in H. unfold recognized.
  now rewrite !match_call_needs_rparen, match_if_needs_rparen.
Qed.

Lemma number_or_zero_not_NaN s : isNaN (number_or_zero s) = false.
Proof.
  unfold number_or_zero, or_else. destruct (parseFloat s) as [| |q]; simpl; try reflexivity.
  now destruct (negb (Qeq_bool q 0)).
Qed.

Lemma numbers_of_map l : numbers_of (map number_or_zero l) = map number_or_zero l.
Proof.
  unfold numbers_of. induction l as [|s l IH]; [reflexivity|].
  cbn [map List.filter]. now rewrite number_or_zero_not_NaN, IH.
Qed.

Lemma parseValues_numbers fuel arg data values :
  parseValues fuel arg data = Returned values -> numbers_of values = values.
Proof.
  unfold parseValues. destruct (includes ":" (trim arg)).
  - destruct (parseRange fuel (trim arg) data) as [cells| |]; simpl; try discriminate.
    intros [= <-]. apply numbers_of_map.
  - intros [= <-]. apply (numbers_of_map [_]).
Qed.

Lemma match_name_intro name arg :
  toUpperCase name = name ->
  nonempty arg = true -> no_line_terminator arg = true ->
  match_call name (toUpperCase (name ++ "(" ++ arg ++ ")")) = Some (toUpperCase arg).
Proof.
  intros Hname Hn Hl. rewrite !toUpperCase_app, Hname.
  apply match_call_intro.
  - now rewrite toUpperCase_nonempty.
  - now rewrite toUpperCase_no_line_terminator.
Qed.

Lemma toUpperCase_call name arg :
  toUpperCase name = name ->
  toUpperCase (name ++ "(" ++ arg ++ ")") = name ++ "(" ++ toUpperCase arg ++ ")".
Proof. intros H. now rewrite !toUpperCase_app, H. Qed.

End WithLimits.

Ltac eval_call name :=
  let Hm := fresh "Hm" in
  let u := fresh "u" in
  intros Hn Hl; unfold evaluateFormula;
  pose proof (match_name_intro name _ eq_refl Hn Hl) as Hm;
  match goal with |- context [toUpperCase (?f ++ ?arg ++ ")")] =>
    change (toUpperCase (f ++ arg ++ ")"))
      with (toUpperCase (name ++ "(" ++ arg ++ ")")) in *;
    rewrite (toUpperCase_call name arg eq_refl) in *;
    set (u := name ++ "(" ++ toUpperCase arg ++ ")") in *
  end;
  repeat match goal with
  | |- context [match_call ?n u] =>
      lazymatch n with
      | name => fail
      | _ => change (match_call n u) with (@None string)
      end
  end;
  cbv iota; rewrite Hm; reflexivity.

Section WithLimits.
Context {L : Limits}.

Lemma evaluateFormula_sum fuel arg data :
  nonempty arg = true -> no_line_terminator arg = true ->
  evaluateFormula fuel ("SUM(" ++ arg ++ ")") data
  = (values <- parseValues fuel (toUpperCase arg) data ;;
     Returned (toString (sum_values values))).
Proof. eval_call "SUM". Qed.

Lemma evaluateFormula_average fuel arg data :
  nonempty arg = true -> no_line_terminator arg = true ->
  evaluateFormula fuel ("AVERAGE(" ++ arg ++ ")") data
  = (values <- parseValues fuel (toUpperCase arg) data ;;
     Returned (match values with
               | [] => "0"
               | _ => toString (div (sum_values values) (length_number values))
               end)).
Proof. eval_call "AVERAGE". Qed.

Lemma evaluateFormula_count fuel arg data :
  nonempty arg = true -> no_line_terminator arg = true ->
  evaluateFormula fuel ("COUNT(" ++ arg ++ ")") data
  = (values <- parseValues fuel (toUpperCase arg) data ;;
     Returned (toString (length_number (numbers_of values)))).
Proof. eval_call "COUNT". Qed.

Lemma evaluateFormula_min fuel arg data :
  nonempty arg = true -> no_line_terminator arg = true ->
  evaluateFormula fuel ("MIN(" ++ arg ++ ")") data
  = (values <- parseValues fuel (toUpperCase arg) data ;;
     match numbers_of values with
     | [] => Returned "0"
     | numbers => m <- spread Math_min numbers ;; Returned (toString m)
     end).
Proof. eval_call "MIN". Qed.

Lemma evaluateFormula_max fuel arg data :
  nonempty arg = true -> no_line_terminator arg = true ->
  evaluateFormula fuel ("MAX(" ++ arg ++ ")") data
  = (values <- parseValues fuel (toUpperCase arg) data ;;
     match numbers_of values with
     | [] => Returned "0"
     | numbers => m <- spread Math_max numbers ;; Returned (toString m)
     end).
Proof. eval_call "MAX". Qed.

(** *** The whole text is upper-cased once *)

Lemma upper_char_idem c : upper_char (upper_char c) = upper_char c.
Proof. destruct c as [[] [] [] [] [] [] [] []]; reflexivity. Qed.

Lemma toUpperCase_idem s : toUpperCase (toUpperCase s) = toUpperCase s.
Proof.
  induction s as [|c s IH]; simpl; [reflexivity|]. now rewrite upper_char_idem, IH.
Qed.

(** *** Conditions *)

Lemma span_none p s : forallb_str (fun c => negb (p c)) s = true -> span p s = ("", s).
Proof.
  destruct s as [|c s]; simpl; [reflexivity|].
  destruct (p c); [discriminate|reflexivity].
Qed.

Lemma match_sep_no_op s : no_op s = true -> match_sep s = None.
Proof.
  unfold match_sep, no_op. intros H.
  destruct (span is_space s) as [w s1] eqn:E.
  assert (H1 : forallb_str (fun c => negb (is_op c)) s1 = true).
  { revert w s1 E H. induction s as [|c s IH]; simpl; intros w s1 E H.
    - now injection E as <- <-.
    - apply andb_true_iff in H as [Hc Hs]. destruct (is_space c).
      + destruct (span is_space s) as [w' s1'] eqn:E'. injection E as <- <-.
        now apply (IH w').
      + injection E as <- <-. simpl. now rewrite Hc, Hs. }
  now rewrite (span_none _ _ H1).
Qed.

Lemma append_nil_r s : s ++ "" = s.
Proof.
  induction s as [|c s IH]; [reflexivity|].
  change (String c (s ++ "") = String c s). now rewrite IH.
Qed.

Lemma split_sep_no_op fuel : forall s cur,
  no_op s = true -> (String.length s <= fuel)%nat -> split_sep fuel s cur = [cur ++ s].
Proof.
  induction fuel as [|f IH]; intros s cur H Hf.
  - reflexivity.
  - cbn [split_sep]. destruct s as [|c s]; [now rewrite append_nil_r|].
    rewrite (match_sep_no_op _ H).
    unfold no_op in H. simpl in H. apply andb_true_iff in H as [_ H].
    rewrite IH; [|exact H|simpl in Hf; lia].
    now rewrite append_assoc.
Qed.

Lemma span_stop p a c r :
  forallb_str p a = true -> p c = false -> span p (a ++ String c r) = (a, String c r).
Proof.
  intros Ha Hc. induction a as [|x a IH].
  - simpl. now rewrite Hc.
  - simpl in Ha. apply andb_true_iff in Ha as [Hx Ha].
    change (String x a ++ String c r) with (String x (a ++ String c r)).
    cbn [span]. now rewrite Hx, (IH Ha).
Qed.

Lemma upper_char_comma c : not_comma (upper_char c) = not_comma c.
Proof. destruct c as [[] [] [] [] [] [] [] []]; reflexivity. Qed.

Lemma upper_char_not_rparen c : not_rparen (upper_char c) = not_rparen c.
Proof. destruct c as [[] [] [] [] [] [] [] []]; reflexivity. Qed.

Lemma toUpperCase_no_comma s : no_comma (toUpperCase s) = no_comma s.
Proof.
  unfold no_comma. induction s as [|c s IH]; simpl; [reflexivity|].
  now rewrite upper_char_comma, IH.
Qed.

Lemma toUpperCase_no_rparen s : no_rparen (toUpperCase s) = no_rparen s.
Proof.
  unfold no_rparen. induction s as [|c s IH]; simpl; [reflexivity|].
  now rewrite upper_char_not_rparen, IH.
Qed.

Lemma match_if_intro c t e :
  nonempty c = true -> nonempty t = true -> nonempty e = true ->
  no_comma c = true -> no_comma t = true -> no_rparen e = true ->
  match_if ("IF(" ++ c ++ "," ++ t ++ "," ++ e ++ ")") = Some (c, t, e).
Proof.
  intros Hc Ht He Hcc Htc Her. unfold match_if.
  rewrite strip_prefix_app.
  change (c ++ "," ++ t ++ "," ++ e ++ ")") with (c ++ String "," (t ++ "," ++ e ++ ")")).
  rewrite (span_stop not_comma c "," _ Hcc eq_refl).
  change (t ++ "," ++ e ++ ")") with (t ++ String "," (e ++ ")")).
  rewrite (span_stop not_comma t "," _ Htc eq_refl).
  change (e ++ ")") with (e ++ String ")" "").
  rewrite (span_stop not_rparen e ")" _ Her eq_refl).
  now rewrite Hc, Ht, He.
Qed.

End WithLimits.

End EvalFacts.

(** ** The grid *)

Module GridFacts.

Import Num Str Engine Sheet NumFacts EngineFacts EvalFacts.
Open Scope string_scope.
Open Scope Z_scope.

Section WithLimits.
Context {L : Limits}.

Lemma Zcount_forallb (P : Z -> bool) n : forall lo,
  forallb P (Zcount lo n) = true ->
  forall x, lo <= x < lo + Z.of_nat n -> P x = true.
Proof.
  induction n as [|n IH]; intros lo H x Hx; [lia|].
  cbn [Zcount forallb] in H. apply andb_true_iff in H as [H0 H].
  destruct (Z.eq_dec x lo) as [->|Hne]; [exact H0|].
  apply (IH (lo + 1)); [exact H|lia].
Qed.

Lemma Zcount_bounds n : forall lo x, In x (Zcount lo n) -> lo <= x < lo + Z.of_nat n.
Proof.
  induction n as [|n IH]; intros lo x H; [destruct H|].
  destruct H as [<-|H]; [lia|]. apply IH in H. lia.
Qed.

Lemma same_eq x y : same x y = true -> x = y.
Proof.
  destruct x as [| a |[pn pd]], y as [| b |[qn qd]]; simpl; try discriminate; try reflexivity.
  - intros H. apply Bool.eqb_prop in H. now subst.
  - intros H. apply andb_true_iff in H as [H1 H2].
    apply Z.eqb_eq in H1. apply Pos.eqb_eq in H2. now subst.
Qed.

Lemma grid_checked :
  forallb (fun col => forallb (grid_cell_ok col) (Zcount 0 100)) (Zcount 0 26) = true.
Proof. vm_compute. reflexivity. Qed.

Lemma grid_cell col row :
  0 <= col < COLUMNS -> 0 <= row < ROWS ->
  getCellKey col row = address col row /\
  includes ":" (getCellKey col row) = false /\
  charCodeAt0 (getCellKey col row) = ofZ (65 + col) /\
  parseInt (slice1 (getCellKey col row)) = ofZ (row + 1).
Proof.
  unfold COLUMNS, ROWS. intros Hc Hr.
  pose proof (Zcount_forallb _ _ _ grid_checked col ltac:(simpl; lia)) as H.
  cbv beta in H.
  pose proof (Zcount_forallb _ _ _ H row ltac:(simpl; lia)) as H'.
  unfold grid_cell_ok in H'.
  apply andb_true_iff in H' as [H' H4]. apply andb_true_iff in H' as [H' H3].
  apply andb_true_iff in H' as [H1 H2].
  apply String.eqb_eq in H1. apply negb_true_iff in H2.
  apply same_eq in H3. apply same_eq in H4. auto.
Qed.

Lemma split_on_app c a b :
  includes c a = false -> split_on c (a ++ String c b) = a :: split_on c b.
Proof.
  unfold includes. induction a as [|x a IH]; intros H.
  - simpl. now rewrite Ascii.eqb_refl.
  - simpl in H. change (String x a ++ String c b) with (String x (a ++ String c b)).
    cbn [split_on]. destruct (Ascii.eqb x c); [discriminate|].
    simpl in H. now rewrite (IH H).
Qed.

Lemma flat_map_ext_In {A B : Type} (f g : A -> list B) l :
  (forall x, In x l -> f x = g x) -> flat_map f l = flat_map g l.
Proof.
  induction l as [|x l IH]; intros H; [reflexivity|].
  cbn [flat_map]. rewrite (H x) by now left. f_equal. apply IH.
  intros y Hy. apply H. now right.
Qed.

Lemma grid_room (rows cols : nat) :
  (rows <= 100)%nat -> (cols <= 26)%nat -> (rows * cols <= array_limit)%nat.
Proof.
  intros Hr Hc. pose proof array_limit_grid as H. unfold GRID_CELLS in H.
  pose proof (Nat.mul_le_mono _ _ _ _ Hr Hc) as Hm.
  change (100 * 26)%nat with 2600%nat in Hm. lia.
Qed.

Lemma grid_cells : Z.of_nat GRID_CELLS = COLUMNS * ROWS.
Proof. reflexivity. Qed.

Lemma range_on_grid fuel c1 r1 c2 r2 data :
  0 <= c1 < COLUMNS -> 0 <= r1 < ROWS ->
  0 <= c2 < COLUMNS -> 0 <= r2 < ROWS ->
  (126 < fuel)%nat ->
  parseRange fuel (getCellKey c1 r1 ++ ":" ++ getCellKey c2 r2) data
  = Returned (flat_map (fun r => map (fun c => cell_text data (getCellKey c r))
                                     (Zrange c1 c2))
                       (Zrange r1 r2)).
Proof.
  intros Hc1 Hr1 Hc2 Hr2 Hf.
  destruct (grid_cell c1 r1 Hc1 Hr1) as (_ & Hi1 & Ha1 & Hp1).
  destruct (grid_cell c2 r2 Hc2 Hr2) as (_ & Hi2 & Ha2 & Hp2).
  unfold COLUMNS, ROWS in *.
  unfold parseRange.
  change (getCellKey c1 r1 ++ ":" ++ getCellKey c2 r2)
    with (getCellKey c1 r1 ++ String ":" (getCellKey c2 r2)).
  rewrite (split_on_app _ _ _ Hi1), (includes_split_on_false _ _ Hi2).
  rewrite Ha1, Ha2, Hp1, Hp2. rewrite !sub_ofZ by lia.
  replace (65 + c1 - 65) with c1 by lia. replace (65 + c2 - 65) with c2 by lia.
  replace (r1 + 1 - 1) with r1 by lia. replace (r2 + 1 - 1) with r2 by lia.
  rewrite (for_rows_range data c1 c2 r2 _ fuel r1 [] eq_refl);
    [|try lia; cbn [length]; apply grid_room; lia..].
  cbn [app]. f_equal. unfold rectangle.
  apply flat_map_ext_In. intros r Hr.
  apply map_ext_in. intros c Hc.
  apply Zcount_bounds in Hr, Hc.
  destruct (grid_cell c r) as (-> & _); unfold COLUMNS, ROWS; [lia|lia|reflexivity].
Qed.

Lemma cursor_on_grid col row :
  0 <= col < COLUMNS -> 0 <= row < ROWS ->
  cursor_of (getCellKey col row) = (ofZ row, ofZ col).
Proof.
  intros Hc Hr. destruct (grid_cell col row Hc Hr) as (_ & _ & Ha & Hp).
  unfold COLUMNS, ROWS in *.
  unfold cursor_of. rewrite Ha, Hp, !sub_ofZ by lia.
  f_equal; f_equal; lia.
Qed.

Lemma nav_checked :
  forallb (fun key =>
    forallb (fun col => forallb (nav_ok key col) (Zcount 0 100)) (Zcount 0 26))
    nav_keys = true.
Proof. vm_compute. reflexivity. Qed.

Lemma navigation_on_grid key col row :
  0 <= col < COLUMNS -> 0 <= row < ROWS ->
  handleKeyboardNavigation key (getCellKey col row)
  = Some (getCellKey (fst (neighbour key col row)) (snd (neighbour key col row))).
Proof.
  unfold COLUMNS, ROWS. intros Hc Hr.
  pose proof nav_checked as H. rewrite forallb_forall in H.
  assert (Hk : In key nav_keys) by (destruct key; simpl; tauto).
  specialize (H key Hk). cbv beta in H.
  pose proof (Zcount_forallb _ _ _ H col ltac:(simpl; lia)) as H1. cbv beta in H1.
  pose proof (Zcount_forallb _ _ _ H1 row ltac:(simpl; lia)) as H2.
  unfold nav_ok in H2. destruct (neighbour key col row) as [c r]. simpl.
  destruct (handleKeyboardNavigation key (getCellKey col row)); [|discriminate].
  apply String.eqb_eq in H2. now subst.
Qed.

Lemma key_char_upper c : key_char c = true -> upper_char c = c.
Proof. destruct c as [[] [] [] [] [] [] [] []]; simpl; intros H; try reflexivity; discriminate. Qed.

Lemma key_char_facts c :
  key_char c = true ->
  is_space c = false /\ is_line_terminator c = false /\ Ascii.eqb c ":" = false.
Proof. destruct c as [[] [] [] [] [] [] [] []]; simpl; intros H; try discriminate; auto. Qed.

Lemma range_char_facts c :
  range_char c = true ->
  upper_char c = c /\ is_space c = false /\ is_line_terminator c = false.
Proof. destruct c as [[] [] [] [] [] [] [] []]; simpl; intros H; try discriminate; auto. Qed.

Lemma forallb_str_app p a b :
  forallb_str p (a ++ b) = forallb_str p a && forallb_str p b.
Proof.
  induction a as [|x a IH]; [reflexivity|].
  change (String x a ++ b) with (String x (a ++ b)). cbn [forallb_str].
  now rewrite IH, andb_assoc.
Qed.

Lemma toUpperCase_range s : forallb_str range_char s = true -> toUpperCase s = s.
Proof.
  induction s as [|c s IH]; simpl; [reflexivity|]. intros H.
  apply andb_true_iff in H as [Hc Hs].
  destruct (range_char_facts c Hc) as (-> & _). now rewrite IH.
Qed.

Lemma trimEnd_range s : forallb_str range_char s = true -> trimEnd s = s.
Proof.
  induction s as [|c s IH]; [reflexivity|]. cbn [forallb_str trimEnd]. intros H.
  apply andb_true_iff in H as [Hc Hs]. rewrite (IH Hs).
  destruct (range_char_facts c Hc) as (_ & -> & _). now destruct s.
Qed.

Lemma trim_range s : forallb_str range_char s = true -> trim s = s.
Proof.
  intros H. unfold trim.
  assert (Hs : trimStart s = s).
  { destruct s as [|c s]; [reflexivity|]. simpl in *.
    apply andb_true_iff in H as [Hc _].
    now destruct (range_char_facts c Hc) as (_ & -> & _). }
  rewrite Hs. now apply trimEnd_range.
Qed.

Lemma no_line_terminator_range s :
  forallb_str range_char s = true -> no_line_terminator s = true.
Proof.
  unfold no_line_terminator. induction s as [|c s IH]; [reflexivity|]. cbn [forallb_str].
  intros H. apply andb_true_iff in H as [Hc Hs].
  destruct (range_char_facts c Hc) as (_ & _ & ->). now rewrite IH.
Qed.

Lemma grid_keys_checked :
  forallb (fun col => forallb (fun row => key_text (getCellKey col row)) (Zcount 0 100))
          (Zcount 0 26) = true.
Proof. vm_compute. reflexivity. Qed.

Lemma grid_key_text col row :
  0 <= col < COLUMNS -> 0 <= row < ROWS -> key_text (getCellKey col row) = true.
Proof.
  unfold COLUMNS, ROWS. intros Hc Hr.
  pose proof (Zcount_forallb _ _ _ grid_keys_checked col ltac:(simpl; lia)) as H.
  cbv beta in H. exact (Zcount_forallb _ _ _ H row ltac:(simpl; lia)).
Qed.

Lemma key_text_range s : key_text s = true -> forallb_str range_char s = true.
Proof.
  unfold key_text. intros H. apply andb_true_iff in H as [_ H]. revert H.
  induction s as [|c s IH]; [reflexivity|]. cbn [forallb_str]. intros H.
  apply andb_true_iff in H as [Hc Hs]. unfold range_char at 1. now rewrite Hc, IH.
Qed.

Lemma includes_app_colon a b : includes ":" (a ++ ":" ++ b) = true.
Proof.
  unfold includes. induction a as [|x a IH]; [reflexivity|].
  change (String x a ++ ":" ++ b) with (String x (a ++ ":" ++ b)).
  cbn [forallb_str]. destruct (Ascii.eqb x ":"); [reflexivity|].
  simpl. exact IH.
Qed.

(** The operand [k1:k2] of two grid keys, as [parseValues] reads it. *)
Lemma parseValues_on_grid fuel c1 r1 c2 r2 data :
  0 <= c1 < COLUMNS -> 0 <= r1 < ROWS ->
  0 <= c2 < COLUMNS -> 0 <= r2 < ROWS ->
  (126 < fuel)%nat ->
  let arg := getCellKey c1 r1 ++ ":" ++ getCellKey c2 r2 in
  nonempty arg = true /\ no_line_terminator arg = true /\
  parseValues fuel (toUpperCase arg) data
  = Returned (map number_or_zero
       (flat_map (fun r => map (fun c => cell_text data (getCellKey c r)) (Zrange c1 c2))
                 (Zrange r1 r2))).
Proof.
  intros Hc1 Hr1 Hc2 Hr2 Hf arg.
  assert (Hrange : forallb_str range_char arg = true).
  { unfold arg. rewrite !forallb_str_app.
    rewrite (key_text_range _ (grid_key_text c1 r1 Hc1 Hr1)).
    now rewrite (key_text_range _ (grid_key_text c2 r2 Hc2 Hr2)). }
  split; [|split].
  - pose proof (grid_key_text c1 r1 Hc1 Hr1) as H. unfold key_text in H.
    apply andb_true_iff in H as [H _]. unfold arg.
    destruct (getCellKey c1 r1); [discriminate|reflexivity].
  - now apply no_line_terminator_range.
  - unfold parseValues. rewrite (toUpperCase_range _ Hrange), (trim_range _ Hrange).
    unfold arg. rewrite includes_app_colon.
    now rewrite (range_on_grid fuel c1 r1 c2 r2 data Hc1 Hr1 Hc2 Hr2 Hf).
Qed.

Lemma length_Zcount n : forall lo, length (Zcount lo n) = n.
Proof. induction n as [|n IH]; intros lo; simpl; [reflexivity|]. now rewrite IH. Qed.

Lemma length_flat_map_const {A B : Type} (f : A -> list B) k l :
  (forall x, length (f x) = k) -> length (flat_map f l) = (length l * k)%nat.
Proof.
  intros H. induction l as [|x l IH]; [reflexivity|].
  cbn [flat_map]. rewrite length_app. rewrite H. simpl. lia.
Qed.

End WithLimits.

End GridFacts.

(** ** The records and the history under the handlers *)

Module StoreFacts.

Import Num Str Engine Sheet NumFacts EngineFacts SheetFacts GridFacts.
Open Scope string_scope.
Open Scope Z_scope.

Section WithLimits.
Context {L : Limits}.

(** A cell without a formula is never written by the pass. *)
Lemma recalc_plain fuel o ks : forall h h' r cell,
  recalc fuel ks o h = Returned h' ->
  h !! r = Some cell -> formula_of cell = None -> h' !! r = Some cell.
Proof.
  induction ks as [|k ks IH]; simpl; intros h h' r cell H Hc Hf.
  - now injection H as <-.
  - destruct (obj_get o k) as [r0|]; [|eauto].
    destruct (h !! r0) as [cell0|] eqn:Hc0; [|eauto].
    destruct (formula_of cell0) as [f|] eqn:Hf0; [|eauto].
    destruct (evaluateFormula fuel (slice1 f) (view h o)) as [v| |]; simpl in H; try discriminate.
    eapply IH; [exact H| |exact Hf].
    rewrite list_lookup_insert_ne; [exact Hc|]. intros ->. congruence.
Qed.

Lemma wf_store_length h1 h2 o :
  (length h1 <= length h2)%nat -> wf_store h1 o -> wf_store h2 o.
Proof.
  intros Hl (Hk & Hr & Hb). repeat split; try assumption.
  eapply Forall_impl; [exact Hb|]. simpl. intros. lia.
Qed.

Lemma wf_store_nil h : wf_store h [].
Proof. repeat split; simpl; constructor. Qed.

Lemma obj_delete_elem o k : forall x, x ∈ obj_delete o k -> x ∈ o.
Proof.
  induction o as [|[k0 r0] o IH]; simpl; intros x H; [exact H|].
  destruct (String.eqb k0 k).
  - now right.
  - apply elem_of_cons in H as [->|H]; [left|right; auto].
Qed.

Lemma wf_store_cons h k r o :
  wf_store h ((k, r) :: o) <->
  (k ∉ keys o) /\ (r ∉ map snd o) /\ (r < length h)%nat /\ wf_store h o.
Proof.
  unfold wf_store. cbn [keys map fst snd]. fold (keys o).
  rewrite !NoDup_cons, Forall_cons. tauto.
Qed.

Lemma wf_store_delete h o k : wf_store h o -> wf_store h (obj_delete o k).
Proof.
  induction o as [|[k0 r0] o IH]; simpl; intros H; [exact H|].
  apply wf_store_cons in H as (Hk & Hr & Hb & Hwf).
  destruct (String.eqb k0 k); [exact Hwf|].
  apply wf_store_cons. repeat split; try (apply IH; exact Hwf); try exact Hb.
  - intros Hin. apply Hk. unfold keys in *.
    apply list_elem_of_fmap in Hin as (x & -> & Hx).
    apply list_elem_of_fmap_2. eapply obj_delete_elem. exact Hx.
  - intros Hin. apply Hr.
    apply list_elem_of_fmap in Hin as (x & -> & Hx).
    apply list_elem_of_fmap_2. eapply obj_delete_elem. exact Hx.
Qed.

Lemma obj_get_delete_eq o k : NoDup (keys o) -> obj_get (obj_delete o k) k = None.
Proof.
  induction o as [|[k0 r0] o IH]; simpl; intros Hn; [reflexivity|].
  apply NoDup_cons in Hn as [Hk0 Hn].
  destruct (String.eqb_spec k0 k) as [->|Hne].
  - destruct (obj_get o k) as [r|] eqn:E; [|reflexivity].
    exfalso. apply Hk0. eapply obj_get_key. exact E.
  - simpl. destruct (String.eqb_spec k0 k); [congruence|]. now apply IH.
Qed.

Lemma obj_get_delete_ne o k k' : k <> k' -> obj_get (obj_delete o k) k' = obj_get o k'.
Proof.
  intros Hne. induction o as [|[k0 r0] o IH]; simpl; [reflexivity|].
  destruct (String.eqb_spec k0 k) as [->|Hk].
  - destruct (String.eqb_spec k k'); [congruence|reflexivity].
  - simpl. now rewrite IH.
Qed.

(** *** The history *)

Lemma slice0_take {A : Type} (l : list A) i :
  -1 <= i < Z.of_nat (length l) -> slice0 (i + 1) l = take (Z.to_nat (i + 1)) l.
Proof.
  intros H. unfold slice0. destruct (Z.ltb_spec (i + 1) 0); [lia|].
  now rewrite Z.min_l by lia.
Qed.

Lemma history_at_last st l d i :
  history st = (l ++ [d])%list -> i = Z.of_nat (length l) -> history_at st i = Some d.
Proof.
  intros Hh ->. unfold history_at. destruct (Z.ltb_spec (Z.of_nat (length l)) 0); [lia|].
  rewrite Hh, Nat2Z.id. rewrite lookup_app_r by lia. now rewrite Nat.sub_diag.
Qed.

Lemma history_ok_addToHistory d st :
  history_ok (addToHistory d (setData d st)).
Proof.
  unfold history_ok, addToHistory. simpl. rewrite length_app. simpl. split; [lia|].
  intros _. eapply history_at_last; [reflexivity|]. simpl. lia.
Qed.

Lemma slice0_In {A : Type} (l : list A) e x : x ∈ slice0 e l -> x ∈ l.
Proof. unfold slice0. intros H. apply elem_of_take in H as (i & Hi & _).
  eapply list_elem_of_lookup_2. exact Hi. Qed.

Lemma state_ok_commit h d st :
  state_ok st -> (length (cells st) <= length h)%nat -> wf_store h d ->
  state_ok (addToHistory d (setData d (setCells h st))).
Proof.
  intros (Hd & Hh & Ho) Hl Hwf. split; [exact Hwf|]. split.
  - simpl. apply Forall_app. split.
    + rewrite Forall_forall in Hh |- *. intros x Hx.
      apply slice0_In in Hx. eapply wf_store_length; [exact Hl|]. now apply Hh.
    + apply Forall_cons. split; [exact Hwf|apply Forall_nil; exact I].
  - apply (history_ok_addToHistory d (setCells h st)).
Qed.

Lemma history_at_Some st i :
  0 <= i < Z.of_nat (length (history st)) -> exists d, history_at st i = Some d /\ d ∈ history st.
Proof.
  intros H. unfold history_at. destruct (Z.ltb_spec i 0); [lia|].
  destruct (lookup_lt_is_Some_2 (history st) (Z.to_nat i)) as [d Hd]; [lia|].
  exists d. split; [exact Hd|]. eapply list_elem_of_lookup_2. exact Hd.
Qed.

Lemma state_ok_move st i d :
  state_ok st -> 0 <= i < Z.of_nat (length (history st)) ->
  history_at st i = Some d ->
  state_ok (setHistoryIndex i (setData d st)).
Proof.
  intros (Hd & Hh & Ho) Hi Hat. split; [|split].
  - simpl. rewrite Forall_forall in Hh. apply Hh.
    destruct (history_at_Some st i Hi) as (d' & Hd' & Hin). congruence.
  - exact Hh.
  - split; simpl; [lia|]. intros _. exact Hat.
Qed.

Lemma undo_ok st :
  state_ok st -> exists st', undo st = Returned st' /\ state_ok st'.
Proof.
  intros Hok. pose proof Hok as (_ & _ & [Hb _]). unfold undo.
  destruct (Z.ltb_spec 0 (historyIndex st)); [|eauto].
  destruct (history_at_Some st (historyIndex st - 1)) as (d & Hd & _); [lia|].
  rewrite Hd. eexists. split; [reflexivity|]. apply state_ok_move; [assumption|lia|assumption].
Qed.

Lemma redo_ok st :
  state_ok st -> exists st', redo st = Returned st' /\ state_ok st'.
Proof.
  intros Hok. pose proof Hok as (_ & _ & [Hb _]). unfold redo.
  destruct (Z.ltb_spec (historyIndex st) (Z.of_nat (length (history st)) - 1)); [|eauto].
  destruct (history_at_Some st (historyIndex st + 1)) as (d & Hd & _); [lia|].
  rewrite Hd. eexists. split; [reflexivity|]. apply state_ok_move; [assumption|lia|assumption].
Qed.

Lemma state_ok_initial v : state_ok (initial v).
Proof.
  split; [apply wf_store_nil|]. split; [constructor|].
  split; simpl; lia.
Qed.

Lemma state_ok_blur fuel st st' :
  state_ok st -> handleCellBlur fuel st = Returned st' -> state_ok st'.
Proof.
  intros Hok Hb. destruct (isViewOnly st) eqn:Hv.
  - unfold handleCellBlur in Hb. rewrite Hv in Hb. now injection Hb as <-.
  - destruct (handleCellBlur_inv _ _ _ Hv Hb) as (h & o & h' & Ha & Hr & ->).
    pose proof Hok as (Hd & _ & _).
    pose proof (assign_wf _ _ _ _ Hd Ha) as Hwf.
    destruct (assign_inv _ _ _ _ Ha) as (cell & -> & _ & _).
    destruct (recalc_frame _ _ _ _ _ Hr) as (Hl & _ & _).
    assert (Hl1 : (length (cells st) <= length h')%nat).
    { rewrite Hl, length_app. lia. }
    assert (Hwf' : wf_store h' o).
    { eapply wf_store_length; [|exact Hwf]. lia. }
    destruct (state_ok_commit h' o st Hok Hl1 Hwf') as (H1 & H2 & H3).
    split; [exact H1|]. split; [exact H2|]. exact H3.
Qed.

Lemma state_ok_clear key st : state_ok st -> state_ok (clearCell key st).
Proof.
  intros Hok. unfold clearCell. destruct (isViewOnly st); [exact Hok|].
  pose proof Hok as (Hd & _ & _).
  pose proof (state_ok_commit (cells st) (obj_delete (data st) key) st Hok
                ltac:(lia) (wf_store_delete _ _ _ Hd)) as (H1 & H2 & H3).
  split; [exact H1|]. split; [exact H2|exact H3].
Qed.

Lemma view_app_old h c o key :
  wf_store h o -> view (h ++ [c])%list o key = view h o key.
Proof.
  intros (_ & _ & Hb). unfold view.
  destruct (obj_get o key) as [r|] eqn:E; [|reflexivity].
  apply lookup_app_l. rewrite Forall_forall in Hb. apply Hb.
  eapply obj_get_ref. exact E.
Qed.

Lemma blur_formulas_kept fuel st st' key :
  wf_store (cells st) (data st) ->
  isViewOnly st = false ->
  handleCellBlur fuel st = Returned st' ->
  key <> selectedCell st ->
  formula <$> view (cells st') (data st') key = formula <$> view (cells st) (data st) key.
Proof.
  intros Hwf Hv Hb Hne.
  destruct (handleCellBlur_inv _ _ _ Hv Hb) as (h & o & h' & Ha & Hr & ->).
  destruct (assign_inv _ _ _ _ Ha) as (c & -> & -> & _). simpl.
  destruct (recalc_frame _ _ _ _ _ Hr) as (_ & _ & Hm).
  rewrite <- (view_app_old (cells st) c (data st) key Hwf).
  unfold view. rewrite obj_get_set_ne by congruence.
  destruct (obj_get (data st) key) as [r|]; [apply Hm|reflexivity].
Qed.

Lemma blur_keys fuel st st' :
  isViewOnly st = false ->
  handleCellBlur fuel st = Returned st' ->
  keys (data st')
  = if decide (selectedCell st ∈ keys (data st)) then keys (data st)
    else (keys (data st) ++ [selectedCell st])%list.
Proof.
  intros Hv Hb.
  destruct (handleCellBlur_inv _ _ _ Hv Hb) as (h & o & h' & Ha & Hr & ->).
  destruct (assign_inv _ _ _ _ Ha) as (c & -> & -> & _). simpl.
  apply keys_obj_set.
Qed.

(** *** Undo and redo on the records *)

Lemma history_at_setData st d i : history_at (setData d st) i = history_at st i.
Proof. reflexivity. Qed.

Lemma commit_history d st :
  history_ok st ->
  history (commit d st) = (take (Z.to_nat (historyIndex st + 1)) (history st) ++ [d])%list /\
  historyIndex (commit d st) = historyIndex st + 1 /\
  data (commit d st) = d /\ cells (commit d st) = cells st.
Proof.
  intros [Hb _]. unfold commit, addToHistory. simpl.
  rewrite slice0_take by exact Hb. repeat split.
  rewrite length_app, length_take. simpl. lia.
Qed.

Lemma history_ok_commit d st : history_ok (commit d st).
Proof. apply history_ok_addToHistory. Qed.

Lemma redo_at_end st :
  historyIndex st = Z.of_nat (length (history st)) - 1 -> redo st = Returned st.
Proof.
  intros H. unfold redo. destruct (Z.ltb_spec (historyIndex st) (Z.of_nat (length (history st)) - 1)); [lia|reflexivity].
Qed.

Lemma redo_commit d st : redo (commit d st) = Returned (commit d st).
Proof. apply redo_at_end. reflexivity. Qed.

Lemma undo_first_commit d st :
  historyIndex st = -1 -> undo (commit d st) = Returned (commit d st).
Proof.
  intros H. unfold undo.
  assert (Hi : historyIndex (commit d st) = 0).
  { unfold commit, addToHistory. simpl. rewrite H. change (-1 + 1) with 0.
    unfold slice0. change (0 <? 0) with false. cbv iota.
    rewrite Z.min_l by lia. reflexivity. }
  rewrite Hi. reflexivity.
Qed.

(** One step back from a commit: the record that was shown before, with
    the committed record left ahead of the cursor. *)
Lemma undo_commit d st :
  history_ok st -> 0 <= historyIndex st ->
  exists u, undo (commit d st) = Returned u /\
    data u = data st /\ historyIndex u = historyIndex st /\
    history u = history (commit d st) /\ cells u = cells st /\
    history_ok u /\
    redo u = Returned (setHistoryIndex (historyIndex st + 1) (setData d u)).
Proof.
  intros Hok H0. destruct (commit_history d st Hok) as (Hh & Hi & Hd & Hc).
  pose proof Hok as [Hb Hat]. specialize (Hat H0).
  assert (Hprev : history_at (commit d st) (historyIndex st) = Some (data st)).
  { unfold history_at in *. destruct (Z.ltb_spec (historyIndex st) 0); [lia|].
    rewrite Hh. rewrite lookup_app_l by (rewrite length_take; lia).
    rewrite lookup_take_lt by lia. exact Hat. }
  unfold undo. rewrite Hi. destruct (Z.ltb_spec 0 (historyIndex st + 1)); [|lia].
  replace (historyIndex st + 1 - 1) with (historyIndex st) by lia.
  rewrite Hprev. eexists. split; [reflexivity|].
  assert (Hlen : Z.of_nat (length (history (commit d st))) = historyIndex st + 2).
  { rewrite Hh, length_app, length_take. simpl. lia. }
  unfold history_ok, redo, setHistoryIndex, setData.
  cbn [cells data history historyIndex]. rewrite Hc, Hlen.
  repeat split; try reflexivity; try lia.
  - intros _. exact Hprev.
  -
    destruct (Z.ltb_spec (historyIndex st) (historyIndex st + 2 - 1)); [|lia].
    assert (Hnext : history_at (commit d st) (historyIndex st + 1) = Some d).
    { eapply history_at_last; [exact Hh|]. rewrite length_take. lia. }
    unfold history_at in *. cbn [history]. rewrite Hnext. reflexivity.
Qed.

Lemma history_at_app st l1 l2 i j d :
  history st = (l1 ++ l2)%list -> i = Z.of_nat (length l1 + j) ->
  l2 !! j = Some d -> history_at st i = Some d.
Proof.
  intros Hh -> Hd. unfold history_at.
  destruct (Z.ltb_spec (Z.of_nat (length l1 + j)) 0); [lia|].
  rewrite Hh, Nat2Z.id, lookup_app_r by lia.
  replace (length l1 + j - length l1)%nat with j by lia. exact Hd.
Qed.

Lemma undo_step st d :
  0 < historyIndex st -> history_at st (historyIndex st - 1) = Some d ->
  undo st = Returned (setHistoryIndex (historyIndex st - 1) (setData d st)).
Proof.
  intros H Hd. unfold undo. destruct (Z.ltb_spec 0 (historyIndex st)); [|lia].
  now rewrite Hd.
Qed.

Lemma redo_step st d :
  historyIndex st < Z.of_nat (length (history st)) - 1 ->
  history_at st (historyIndex st + 1) = Some d ->
  redo st = Returned (setHistoryIndex (historyIndex st + 1) (setData d st)).
Proof.
  intros H Hd. unfold redo.
  destruct (Z.ltb_spec (historyIndex st) (Z.of_nat (length (history st)) - 1)); [|lia].
  now rewrite Hd.
Qed.

(** *** Clearing a cell *)

Lemma getCellKey_inj c r c' r' :
  0 <= c < COLUMNS -> 0 <= r < ROWS -> 0 <= c' < COLUMNS -> 0 <= r' < ROWS ->
  getCellKey c r = getCellKey c' r' -> c = c' /\ r = r'.
Proof.
  intros Hc Hr Hc' Hr' H.
  pose proof (cursor_on_grid c r Hc Hr) as H1.
  rewrite H, (cursor_on_grid c' r' Hc' Hr') in H1.
  unfold ofZ, inject_Z in H1. injection H1 as -> ->. auto.
Qed.

(** The cells a row of the import adds or overwrites, and the cells it
    leaves alone. *)
Lemma import_row_spec ri : 0 <= ri < ROWS ->
  forall row cj h o, 0 <= cj -> wf_store h o ->
  let '(h', o') := import_row ri cj row (h, o) in
  wf_store h' o' /\ (length h <= length h')%nat /\
  (forall n v, row !! n = Some v -> cj + Z.of_nat n < COLUMNS ->
     view h' o' (getCellKey (cj + Z.of_nat n) ri) = Some (mkCell v None)) /\
  (forall k, (forall n v, row !! n = Some v -> cj + Z.of_nat n < COLUMNS ->
                k <> getCellKey (cj + Z.of_nat n) ri) ->
     view h' o' k = view h o k).
Proof.
  intros Hri. induction row as [|cell rest IH]; intros cj h o Hcj Hwf.
  - simpl. split; [exact Hwf|]. split; [lia|]. split; [|reflexivity].
    intros n v H. discriminate.
  - cbn [import_row]. destruct (Z.leb_spec COLUMNS cj) as [Hout|Hin].
    + specialize (IH (cj + 1) h o ltac:(lia) Hwf).
      destruct (import_row ri (cj + 1) rest (h, o)) as [h' o'].
      destruct IH as (H1 & H2 & H3 & H4).
      split; [exact H1|]. split; [exact H2|]. split.
      * intros n v _ Hn. lia.
      * intros k Hk. apply H4. intros n v _ Hn. lia.
    + pose proof (wf_store_assign h o (getCellKey cj ri) (mkCell cell None) Hwf) as Hwf1.
      specialize (IH (cj + 1) _ _ ltac:(lia) Hwf1).
      destruct (import_row ri (cj + 1) rest _) as [h' o'].
      destruct IH as (H1 & H2 & H3 & H4).
      rewrite length_app in H2. simpl in H2.
      split; [exact H1|]. split; [lia|]. split.
      * intros [|n] v Hv Hn.
        -- simpl in Hv. injection Hv as <-. rewrite Z.add_0_r.
           rewrite H4.
           ++ unfold view. rewrite obj_get_set_eq.
              rewrite lookup_app_r by lia. now rewrite Nat.sub_diag.
           ++ intros n v _ Hn' Heq.
              apply getCellKey_inj in Heq as [Heq _]; unfold COLUMNS, ROWS in *; lia.
        -- simpl in Hv. specialize (H3 n v Hv).
           replace (cj + Z.of_nat (S n)) with (cj + 1 + Z.of_nat n) by lia.
           apply H3. lia.
      * intros k Hk.
        assert (Hk0 : k <> getCellKey cj ri).
        { specialize (Hk 0%nat cell eq_refl). rewrite Z.add_0_r in Hk. apply Hk. lia. }
        rewrite H4.
        2:{ intros n v Hv Hn.
            replace (cj + 1 + Z.of_nat n) with (cj + Z.of_nat (S n)) by lia.
            apply (Hk (S n) v Hv). lia. }
        unfold view. rewrite obj_get_set_ne by congruence.
        destruct (obj_get o k) as [r|] eqn:E; [|reflexivity].
        apply lookup_app_l. destruct Hwf as (_ & _ & Hb).
        rewrite Forall_forall in Hb. apply Hb. eapply obj_get_ref. exact E.
Qed.

Lemma import_rows_spec : forall rows ri h o, 0 <= ri -> wf_store h o ->
  let '(h', o') := import_rows ri rows (h, o) in
  wf_store h' o' /\ (length h <= length h')%nat /\
  (forall m row n v, rows !! m = Some row -> row !! n = Some v ->
     ri + Z.of_nat m < ROWS -> Z.of_nat n < COLUMNS ->
     view h' o' (getCellKey (Z.of_nat n) (ri + Z.of_nat m)) = Some (mkCell v None)) /\
  (forall k, (forall m row n v, rows !! m = Some row -> row !! n = Some v ->
                ri + Z.of_nat m < ROWS -> Z.of_nat n < COLUMNS ->
                k <> getCellKey (Z.of_nat n) (ri + Z.of_nat m)) ->
     view h' o' k = view h o k).
Proof.
  induction rows as [|row rest IH]; intros ri h o Hri Hwf.
  - simpl. split; [exact Hwf|]. split; [lia|]. split; [|reflexivity].
    intros m row n v H. discriminate.
  - cbn [import_rows]. destruct (Z.leb_spec ROWS ri) as [Hout|Hin].
    + specialize (IH (ri + 1) h o ltac:(lia) Hwf).
      destruct (import_rows (ri + 1) rest (h, o)) as [h' o'].
      destruct IH as (H1 & H2 & H3 & H4).
      split; [exact H1|]. split; [exact H2|]. split.
      * intros m r n v _ _ Hm. lia.
      * intros k Hk. apply H4. intros m r n v _ _ Hm. lia.
    + pose proof (import_row_spec ri ltac:(lia) row 0 h o ltac:(lia) Hwf) as Hrow.
      destruct (import_row ri 0 row (h, o)) as [h1 o1].
      destruct Hrow as (R1 & R2 & R3 & R4).
      specialize (IH (ri + 1) h1 o1 ltac:(lia) R1).
      destruct (import_rows (ri + 1) rest (h1, o1)) as [h' o'].
      destruct IH as (H1 & H2 & H3 & H4).
      split; [exact H1|]. split; [lia|]. split.
      * intros [|m] r n v Hm Hn Hr Hc.
        -- simpl in Hm. injection Hm as <-. rewrite Z.add_0_r.
           rewrite H4.
           ++ specialize (R3 n v Hn). simpl in R3. apply R3. exact Hc.
           ++ intros m' r' n' v' _ _ Hr' Hc' Heq.
              apply getCellKey_inj in Heq as [_ Heq]; unfold COLUMNS, ROWS in *; lia.
        -- simpl in Hm.
           replace (ri + Z.of_nat (S m)) with (ri + 1 + Z.of_nat m) by lia.
           eapply H3; eauto. lia.
      * intros k Hk. rewrite H4.
        2:{ intros m r n v Hm Hn Hr Hc.
            replace (ri + 1 + Z.of_nat m) with (ri + Z.of_nat (S m)) by lia.
            apply (Hk (S m) r n v Hm Hn); lia. }
        apply R4. intros n v Hn Hc.
        specialize (Hk 0%nat row n v eq_refl Hn). rewrite Z.add_0_r in Hk.
        rewrite Z.add_0_l in *. apply Hk; lia.
Qed.

Lemma state_ok_import rows st : state_ok st -> state_ok (importData rows st).
Proof.
  intros Hok. unfold importData. destruct (isViewOnly st); [exact Hok|].
  pose proof (import_rows_spec rows 0 (cells st) [] ltac:(lia) (wf_store_nil _)) as H.
  destruct (import_rows 0 rows (cells st, [])) as [h' o'].
  destruct H as (H1 & H2 & _).
  destruct (state_ok_commit h' o' st Hok H2 H1) as (A & B & C).
  split; [exact A|]. split; [exact B|exact C].
Qed.

End WithLimits.

End StoreFacts.

(** ** Facts on the CSV export and import *)

Module CsvFacts.

Import Num Str Engine Sheet Csv NumFacts EngineFacts SheetFacts EvalFacts GridFacts StoreFacts.
Open Scope string_scope.
Open Scope Z_scope.

Lemma undouble_double s : undouble (double_quotes s) = s.
Proof.
  induction s as [|a r IH]; [reflexivity|].
  cbn [double_quotes]. destruct (is_dquote a) eqn:Ea.
  - change (undouble (String a (String a (double_quotes r))))
      with (if is_dquote a && is_dquote a then String a (undouble (double_quotes r))
            else String a (undouble (String a (double_quotes r)))).
    rewrite Ea. cbn [andb]. now rewrite IH.
  - destruct (double_quotes r) as [|b t] eqn:Er.
    + destruct r as [|x r]; [reflexivity|]. simpl in Er.
      destruct (is_dquote x); discriminate.
    + change (undouble (String a (String b t)))
        with (if is_dquote a && is_dquote b then String a (undouble t)
              else String a (undouble (String b t))).
      rewrite Ea. cbn [andb]. now rewrite IH.
Qed.

Lemma strip_trailing_quote_app s : strip_trailing_quote (s ++ dquote) = s.
Proof.
  induction s as [|c r IH]; [reflexivity|].
  change (String c r ++ dquote) with (String c (r ++ dquote)).
  cbn [strip_trailing_quote]. rewrite IH.
  destruct (r ++ dquote) eqn:E; [|reflexivity].
  destruct r; discriminate E.
Qed.

Lemma strip_quotes_csv_cell s : strip_quotes (csv_cell s) = double_quotes s.
Proof.
  unfold strip_quotes, csv_cell.
  change (strip_leading_quote (dquote ++ double_quotes s ++ dquote))
    with (double_quotes s ++ dquote).
  apply strip_trailing_quote_app.
Qed.

Lemma csv_cell_round_trip s : undouble (strip_quotes (csv_cell s)) = s.
Proof. now rewrite strip_quotes_csv_cell, undouble_double. Qed.

Lemma includes_app c a b : includes c (a ++ b) = includes c a || includes c b.
Proof.
  unfold includes. rewrite forallb_str_app. now destruct (forallb_str _ a).
Qed.

Lemma split_on_join c parts :
  parts <> [] -> Forall (fun p => includes c p = false) parts ->
  split_on c (join (String c "") parts) = parts.
Proof.
  induction parts as [|x rest IH]; intros Hne Hall; [congruence|].
  apply Forall_cons in Hall as [Hx Hrest].
  destruct rest as [|y rest].
  - simpl. now apply includes_split_on_false.
  - change (join (String c "") (x :: y :: rest))
      with (x ++ String c (join (String c "") (y :: rest))).
    rewrite (split_on_app _ _ _ Hx). f_equal. apply IH; [discriminate|exact Hrest].
Qed.

Lemma includes_double_quotes c s :
  is_dquote c = false -> includes c (double_quotes s) = includes c s.
Proof.
  intros Hc. unfold includes. f_equal.
  induction s as [|a r IH]; [reflexivity|].
  cbn [double_quotes]. destruct (is_dquote a) eqn:Ea; cbn [forallb_str]; rewrite IH.
  - now destruct (negb (Ascii.eqb a c)).
  - reflexivity.
Qed.

Lemma csv_safe_includes s :
  csv_safe s = true -> includes "," s = false /\ includes newline s = false.
Proof.
  unfold csv_safe, includes. induction s as [|a r IH]; [auto|].
  cbn [forallb_str]. intros H. apply andb_true_iff in H as [Ha Hr].
  apply andb_true_iff in Ha as [H1 H2]. destruct (IH Hr) as [I1 I2].
  apply negb_false_iff in I1, I2. rewrite H1, H2, I1, I2. auto.
Qed.

Lemma includes_csv_cell c s :
  is_dquote c = false -> includes c s = false -> includes c (csv_cell s) = false.
Proof.
  intros Hc Hs. unfold csv_cell. rewrite !includes_app, includes_double_quotes, Hs by exact Hc.
  unfold includes, dquote. cbn [forallb_str].
  assert (H : Ascii.eqb (ascii_of_N 34) c = false).
  { destruct (Ascii.eqb_spec (ascii_of_N 34) c) as [<-|]; [discriminate Hc|reflexivity]. }
  now rewrite H.
Qed.

Lemma includes_join c sep parts :
  includes c sep = false -> Forall (fun p => includes c p = false) parts ->
  includes c (join sep parts) = false.
Proof.
  intros Hsep. induction parts as [|x rest IH]; intros Hall; [reflexivity|].
  apply Forall_cons in Hall as [Hx Hrest]. destruct rest as [|y rest]; [exact Hx|].
  change (join sep (x :: y :: rest)) with (x ++ sep ++ join sep (y :: rest)).
  now rewrite !includes_app, Hx, Hsep, IH.
Qed.

(** A line of the export is read back as the row it was made from. *)
Lemma csv_line_round_trip row :
  row <> [] -> Forall (fun c => csv_safe c = true) row ->
  map (fun cell => undouble (strip_quotes cell)) (split_on "," (join "," (map csv_cell row)))
  = row.
Proof.
  intros Hne Hsafe. rewrite split_on_join.
  - rewrite map_map. rewrite <- (map_id row) at 2. apply map_ext. apply csv_cell_round_trip.
  - destruct row; [congruence|discriminate].
  - apply Forall_fmap. eapply Forall_impl; [exact Hsafe|]. simpl. intros c Hc.
    apply includes_csv_cell; [reflexivity|]. now apply csv_safe_includes.
Qed.

Lemma parseCSV_join rows :
  rows <> [] -> Forall (fun row => row <> [] /\ Forall (fun c => csv_safe c = true) row) rows ->
  parseCSV (join (String newline "") (map (fun row => join "," (map csv_cell row)) rows))
  = rows.
Proof.
  intros Hne Hall. unfold parseCSV. rewrite split_on_join.
  - rewrite map_map. rewrite <- (map_id rows) at 2.
    apply map_ext_in. intros row Hin.
    rewrite Forall_forall in Hall. apply list_elem_of_In, Hall in Hin as [H1 H2].
    now apply csv_line_round_trip.
  - destruct rows; [congruence|discriminate].
  - apply Forall_fmap. eapply Forall_impl; [exact Hall|]. simpl. intros row [_ Hsafe].
    apply includes_join; [reflexivity|].
    apply Forall_fmap. eapply Forall_impl; [exact Hsafe|]. simpl. intros c Hc.
    apply includes_csv_cell; [reflexivity|]. now apply csv_safe_includes.
Qed.

Lemma Zcount_lookup n : forall lo i, (i < n)%nat -> Zcount lo n !! i = Some (lo + Z.of_nat i).
Proof.
  induction n as [|n IH]; intros lo i Hi; [lia|].
  destruct i as [|i]; simpl.
  - f_equal. lia.
  - rewrite IH by lia. f_equal. lia.
Qed.


Lemma count_char_app c a b : count_char c (a ++ b) = (count_char c a + count_char c b)%nat.
Proof.
  induction a as [|x a IH]; [reflexivity|].
  change (String x a ++ b) with (String x (a ++ b)). cbn [count_char]. rewrite IH. lia.
Qed.

Lemma count_char_zero c s : count_char c s = 0%nat <-> includes c s = false.
Proof.
  unfold includes. induction s as [|x r IH]; [easy|].
  cbn [count_char forallb_str]. destruct (Ascii.eqb x c); cbn [negb andb].
  - split; [lia|discriminate].
  - exact IH.
Qed.

Lemma length_split_on c s : length (split_on c s) = S (count_char c s).
Proof.
  induction s as [|x r IH]; [reflexivity|].
  cbn [split_on count_char]. destruct (Ascii.eqb x c).
  - cbn [length]. rewrite IH. reflexivity.
  - destruct (split_on c r) as [|p ps]; [discriminate IH|exact IH].
Qed.

Lemma count_char_double_quotes c s :
  is_dquote c = false -> count_char c (double_quotes s) = count_char c s.
Proof.
  intros Hc. induction s as [|a r IH]; [reflexivity|].
  cbn [double_quotes]. destruct (is_dquote a) eqn:Ea; cbn [count_char]; rewrite IH.
  - destruct (Ascii.eqb_spec a c) as [->|]; [congruence|reflexivity].
  - reflexivity.
Qed.

Lemma count_char_csv_cell c s :
  is_dquote c = false -> count_char c (csv_cell s) = count_char c s.
Proof.
  intros Hc. unfold csv_cell. rewrite !count_char_app, count_char_double_quotes by exact Hc.
  unfold dquote. cbn [count_char].
  destruct (Ascii.eqb_spec (ascii_of_N 34) c) as [<-|]; [discriminate Hc|lia].
Qed.

Lemma list_sum_cons n l : list_sum (n :: l) = (n + list_sum l)%nat.
Proof. reflexivity. Qed.

Lemma count_char_join c sep parts :
  parts <> [] ->
  (count_char c (join sep parts) + count_char c sep
   = list_sum (map (count_char c) parts) + length parts * count_char c sep)%nat.
Proof.
  induction parts as [|x rest IH]; intros Hne; [congruence|].
  destruct rest as [|y rest].
  - simpl. lia.
  - change (join sep (x :: y :: rest)) with (x ++ sep ++ join sep (y :: rest)).
    rewrite !count_char_app. specialize (IH ltac:(discriminate)).
    cbn [map length] in *. rewrite !list_sum_cons, !Nat.mul_succ_l in *. lia.
Qed.

(** The number of cells read from a text: one for the text, one more for
    each newline and each comma. *)
Lemma parseCSV_cells text :
  list_sum (map (@length string) (parseCSV text))
  = S (count_char newline text + count_char "," text).
Proof.
  unfold parseCSV. rewrite map_map.
  rewrite (map_ext _ (fun line => S (count_char "," line)))
    by (intros line; now rewrite length_map, length_split_on).
  induction text as [|x r IH]; [reflexivity|].
  cbn [split_on count_char]. destruct (Ascii.eqb_spec x newline) as [->|Hx].
  - cbn [map]. rewrite list_sum_cons, IH. simpl. lia.
  - destruct (split_on newline r) as [|p ps]; [discriminate IH|].
    cbn [map count_char] in *. rewrite list_sum_cons in *. lia.
Qed.

Lemma count_comma_line row :
  row <> [] ->
  (count_char "," (join "," (map csv_cell row)) + 1
   = list_sum (map (count_char ",") row) + length row)%nat.
Proof.
  intros Hne.
  pose proof (count_char_join "," "," (map csv_cell row)) as H.
  rewrite length_map, map_map in H.
  rewrite (map_ext _ (count_char ",")) in H
    by (intros c; now apply count_char_csv_cell).
  change (count_char "," ",") with 1%nat in H.
  specialize (H ltac:(destruct row; [congruence|discriminate])). lia.
Qed.

Lemma count_newline_line row :
  row <> [] ->
  count_char newline (join "," (map csv_cell row)) = list_sum (map (count_char newline) row).
Proof.
  intros Hne.
  pose proof (count_char_join newline "," (map csv_cell row)) as H.
  rewrite length_map, map_map in H.
  rewrite (map_ext _ (count_char newline)) in H
    by (intros c; now apply count_char_csv_cell).
  change (count_char newline ",") with 0%nat in H.
  specialize (H ltac:(destruct row; [congruence|discriminate])). lia.
Qed.

Lemma list_sum_add {A} (f g : A -> nat) l :
  list_sum (map (fun x => f x + g x)%nat l) = (list_sum (map f l) + list_sum (map g l))%nat.
Proof.
  induction l as [|x l IH]; [reflexivity|]. cbn [map]. rewrite !list_sum_cons. lia.
Qed.

(** The cells read back from the export of rows: as many as the rows hold,
    and one more for each comma and each newline in a cell. *)
Lemma parseCSV_join_cells rows :
  rows <> [] -> Forall (fun row => row <> []) rows ->
  list_sum (map (@length string)
    (parseCSV (join (String newline "") (map (fun row => join "," (map csv_cell row)) rows))))
  = (list_sum (map (@length string) rows) + unsafe_chars rows)%nat.
Proof.
  intros Hne Hall. rewrite parseCSV_cells.
  set (lines := map (fun row => join "," (map csv_cell row)) rows).
  assert (Hl : lines <> []) by (subst lines; destruct rows; [congruence|discriminate]).
  pose proof (count_char_join newline (String newline "") lines Hl) as Hn.
  pose proof (count_char_join "," (String newline "") lines Hl) as Hc.
  change (count_char newline (String newline "")) with 1%nat in Hn.
  change (count_char "," (String newline "")) with 0%nat in Hc.
  subst lines. rewrite length_map, map_map in Hn, Hc.
  assert (H1 : (list_sum (map (fun row => count_char "," (join "," (map csv_cell row))) rows)
                + length rows
                = list_sum (map (fun row => list_sum (map (count_char ",") row)) rows)
                  + list_sum (map (@length string) rows))%nat).
  { clear -Hall. induction Hall as [|row rest Hrow _ IH]; [reflexivity|].
    cbn [map length]. rewrite !list_sum_cons. pose proof (count_comma_line row Hrow). lia. }
  assert (H2 : list_sum (map (fun row => count_char newline (join "," (map csv_cell row))) rows)
               = list_sum (map (fun row => list_sum (map (count_char newline) row)) rows)).
  { clear -Hall. induction Hall as [|row rest Hrow _ IH]; [reflexivity|].
    cbn [map]. rewrite !list_sum_cons, count_newline_line by exact Hrow. lia. }
  assert (H3 : unsafe_chars rows
               = (list_sum (map (fun row => list_sum (map (count_char ",") row)) rows)
                  + list_sum (map (fun row => list_sum (map (count_char newline) row)) rows))%nat).
  { unfold unsafe_chars. rewrite <- list_sum_add. f_equal. apply map_ext.
    intros row. apply list_sum_add. }
  lia.
Qed.

Lemma list_sum_zero l : list_sum l = 0%nat -> Forall (fun n => n = 0%nat) l.
Proof.
  induction l as [|n l IH]; intros H; [constructor|].
  rewrite list_sum_cons in H. constructor; [lia|apply IH; lia].
Qed.

Lemma unsafe_chars_zero rows :
  unsafe_chars rows = 0%nat ->
  Forall (fun row => Forall (fun c => csv_safe c = true) row) rows.
Proof.
  unfold unsafe_chars. intros H. apply list_sum_zero in H.
  rewrite Forall_fmap in H. eapply Forall_impl; [exact H|]. cbv beta.
  intros row Hrow. unfold compose in Hrow. apply list_sum_zero in Hrow.
  rewrite Forall_fmap in Hrow. eapply Forall_impl; [exact Hrow|]. cbv beta.
  intros c Hc. unfold compose in Hc.
  assert (H1 : count_char "," c = 0%nat) by lia.
  assert (H2 : count_char newline c = 0%nat) by lia.
  clear Hc. unfold csv_safe. induction c as [|x r IH]; [reflexivity|].
  cbn [count_char forallb_str] in *.
  destruct (Ascii.eqb x ","); [discriminate H1|].
  destruct (Ascii.eqb x newline); [discriminate H2|].
  cbn [negb andb]. apply IH; assumption.
Qed.

Lemma csvData_rows st :
  csvData st <> [] /\ Forall (fun row => row <> []) (csvData st).
Proof.
  unfold csvData. split.
  - change (Z.to_nat ROWS) with (S 99). cbn [Zcount map]. discriminate.
  - apply Forall_fmap, Forall_forall. intros row _. cbv beta. unfold compose.
    change (Z.to_nat COLUMNS) with (S 25). cbn [Zcount map]. discriminate.
Qed.

Lemma csvData_lookup st col row :
  0 <= col < COLUMNS -> 0 <= row < ROWS ->
  exists line, csvData st !! Z.to_nat row = Some line /\
    line !! Z.to_nat col = Some (shown st (getCellKey col row)).
Proof.
  unfold COLUMNS, ROWS. intros Hc Hr. eexists. split.
  - unfold csvData. rewrite list_lookup_fmap.
    rewrite Zcount_lookup by (unfold ROWS; lia). reflexivity.
  - cbv beta. rewrite list_lookup_fmap.
    rewrite Zcount_lookup by (unfold COLUMNS; lia). cbn [fmap option_fmap option_map].
    now rewrite !Z.add_0_l, !Z2Nat.id by lia.
Qed.

Lemma csvData_safe st :
  Forall (fun row => Forall (fun c => csv_safe c = true) row) (csvData st) <->
  (forall col row, 0 <= col < COLUMNS -> 0 <= row < ROWS ->
     csv_safe (shown st (getCellKey col row)) = true).
Proof.
  split.
  - intros H col row Hc Hr.
    destruct (csvData_lookup st col row Hc Hr) as (line & H1 & H2).
    rewrite Forall_forall in H. apply list_elem_of_lookup_2, H in H1.
    rewrite Forall_forall in H1. apply list_elem_of_lookup_2, H1 in H2. exact H2.
  - intros Hsafe. unfold csvData. apply Forall_fmap, Forall_forall. intros row Hrow.
    unfold compose. apply list_elem_of_In, Zcount_bounds in Hrow.
    apply Forall_fmap, Forall_forall. intros col Hcol. unfold compose.
    apply list_elem_of_In, Zcount_bounds in Hcol.
    apply Hsafe; unfold COLUMNS, ROWS in *; lia.
Qed.

Lemma quote_state_safe col row :
  0 <= col < COLUMNS -> 0 <= row < ROWS ->
  csv_safe (shown quote_state (getCellKey col row)) = true.
Proof.
  unfold COLUMNS, ROWS. intros Hc Hr.
  assert (H : forallb (fun c => forallb (fun r =>
                csv_safe (shown quote_state (getCellKey c r))) (Zcount 0 100))
                (Zcount 0 26) = true) by (vm_compute; reflexivity).
  pose proof (Zcount_forallb _ _ _ H col ltac:(simpl; lia)) as H'. cbv beta in H'.
  exact (Zcount_forallb _ _ _ H' row ltac:(simpl; lia)).
Qed.

End CsvFacts.

(** ** Facts on rows that do not parse and on texts without a colon *)

Module LimitFacts.

Import Num Str Engine Sheet NumFacts EngineFacts SheetFacts EvalFacts GridFacts StoreFacts.
Open Scope string_scope.
Open Scope Z_scope.

Section WithLimits.
Context {L : Limits}.

Lemma leb_NaN_l x : leb NaN x = false.
Proof. reflexivity. Qed.

Lemma leb_NaN_r x : leb x NaN = false.
Proof. now destruct x. Qed.

Lemma sub_NaN_l x : sub NaN x = NaN.
Proof. reflexivity. Qed.

(** A loop whose first or last row is NaN does not run. *)
Lemma for_rows_NaN fuel r e c1 c2 data acc :
  r = NaN \/ e = NaN ->
  for_rows (S fuel) r e c1 c2 data acc = Returned acc.
Proof.
  intros [-> | ->]; cbn [for_rows]; [|rewrite leb_NaN_r]; reflexivity.
Qed.

Lemma flat_map_nil {A B : Type} (l : list A) : flat_map (fun _ => @nil B) l = [].
Proof. induction l; simpl; auto. Qed.

Lemma rectangle_backwards data c1 r1 c2 r2 :
  r2 < r1 \/ c2 < c1 -> rectangle data c1 r1 c2 r2 = [].
Proof.
  unfold rectangle, Zrange. intros [H | H].
  - now replace (Z.to_nat (r2 - r1 + 1)) with 0%nat by lia.
  - replace (Z.to_nat (c2 - c1 + 1)) with 0%nat by lia. apply flat_map_nil.
Qed.

(** *** Texts without a colon *)

Lemma upper_char_colon c : Ascii.eqb (upper_char c) ":" = Ascii.eqb c ":".
Proof. destruct c as [[] [] [] [] [] [] [] []]; reflexivity. Qed.

Lemma includes_toUpperCase_colon s : includes ":" (toUpperCase s) = includes ":" s.
Proof.
  unfold includes. f_equal. induction s as [|c s IH]; [reflexivity|].
  cbn [toUpperCase forallb_str]. now rewrite upper_char_colon, IH.
Qed.

Lemma includes_app_false c a b :
  includes c (a ++ b) = false <-> includes c a = false /\ includes c b = false.
Proof.
  unfold includes. rewrite forallb_str_app.
  destruct (forallb_str _ a), (forallb_str _ b); simpl; intuition congruence.
Qed.

Lemma strip_last_inv c : forall s g, strip_last c s = Some g -> s = g ++ String c "".
Proof.
  induction s as [|x s IH]; intros g H; [discriminate|].
  cbn [strip_last] in H. destruct s as [|y s].
  - destruct (Ascii.eqb_spec x c); [|discriminate]. injection H as <-. now subst.
  - destruct (strip_last c (String y s)) as [g'|] eqn:E; [|discriminate].
    injection H as <-. now rewrite (IH g' eq_refl).
Qed.

Lemma match_call_includes c name u g :
  match_call name u = Some g -> includes c u = false -> includes c g = false.
Proof.
  unfold match_call. intros H Hu.
  destruct (strip_prefix (name ++ "(") u) as [r|] eqn:Hp; [|discriminate].
  destruct (strip_last ")" r) as [g'|] eqn:Hl; [|discriminate].
  destruct (nonempty g' && _); [|discriminate]. injection H as <-.
  apply strip_prefix_inv in Hp. apply strip_last_inv in Hl. subst.
  apply includes_app_false in Hu as [_ Hu].
  now apply includes_app_false in Hu as [Hu _].
Qed.

Lemma forallb_str_trimStart p s :
  forallb_str p s = true -> forallb_str p (trimStart s) = true.
Proof.
  induction s as [|c s IH]; [auto|]. cbn [trimStart]. intros H.
  destruct (is_space c); [|exact H].
  cbn [forallb_str] in H. apply andb_true_iff in H as [_ H]. auto.
Qed.

Lemma forallb_str_trimEnd p s :
  forallb_str p s = true -> forallb_str p (trimEnd s) = true.
Proof.
  induction s as [|c s IH]; [auto|]. cbn [trimEnd forallb_str]. intros H.
  apply andb_true_iff in H as [Hc H]. specialize (IH H).
  destruct (trimEnd s) as [|y t].
  - destruct (is_space c); [reflexivity|]. cbn [forallb_str]. now rewrite Hc.
  - cbn [forallb_str] in *. now rewrite Hc, IH.
Qed.

Lemma includes_trim c s : includes c s = false -> includes c (trim s) = false.
Proof.
  unfold includes, trim. intros H. apply negb_false_iff in H. apply negb_false_iff.
  now apply forallb_str_trimEnd, forallb_str_trimStart.
Qed.

Lemma parseValues_single fuel arg data :
  includes ":" arg = false ->
  parseValues fuel arg data = Returned [number_or_zero (evaluateValue (trim arg) data)].
Proof.
  intros H. unfold parseValues. now rewrite (includes_trim _ _ H).
Qed.

Lemma spread_one {B} (f : list number -> B) x : spread f [x] = Returned (f [x]).
Proof. apply spread_room. pose proof arguments_limit_grid. unfold GRID_CELLS in *. simpl. lia. Qed.

End WithLimits.

End LimitFacts.

(** * The properties of the specification *)

Import Num Str Engine Sheet NumFacts EngineFacts SheetFacts EvalFacts LimitFacts.
Open Scope string_scope.
Open Scope Z_scope.

(** The theorems hold for every engine; their examples are run on
    [small_engine]. *)
#[local] Existing Instance small_engine.

(** C1.  Within the pass of [handleCellBlur] the formula cells are
    recomputed once each, in the key order of the record and not in an
    order of dependency: when the pass returns, the value stored for the
    formula cell at position [i] is its formula evaluated on the heap [hi]
    of that moment, in which the cells of the keys before [i] hold their
    values of after the pass and the cells of the keys from [i] on still
    hold their values of before the pass. *)
Theorem C1_pass_in_key_order {L : Limits} fuel st st' h o :
  wf_store (cells st) (data st) ->
  isViewOnly st = false ->
  assign fuel st = Returned (h, o) ->
  handleCellBlur fuel st = Returned st' ->
  data st' = o /\
  forall i key r cell' f,
    keys o !! i = Some key ->
    obj_get o key = Some r ->
    cells st' !! r = Some cell' ->
    formula_of cell' = Some f ->
    exists hi,
      recalc fuel (take i (keys o)) o h = Returned hi /\
      evaluateFormula fuel (slice1 f) (view hi o) = Returned (value cell') /\
      forall j kj rj, keys o !! j = Some kj -> obj_get o kj = Some rj ->
        ((j < i)%nat -> hi !! rj = cells st' !! rj) /\
        ((i <= j)%nat -> hi !! rj = h !! rj).
Proof.
  intros Hwf Hv Ha Hb.
  destruct (handleCellBlur_inv _ _ _ Hv Hb) as (h0 & o0 & h' & Ha' & Hr & ->).
  rewrite Ha in Ha'. injection Ha' as <- <-. split; [reflexivity|].
  intros i key r cell' f Hi Hg Hc Hf. simpl in Hc |- *.
  eapply recalc_turn; eauto using assign_wf.
Qed.

(** The pass on [chain_state]: [B1] comes first and is evaluated on the
    heap as it was before the pass. *)
Lemma C1_pass_in_key_order_witness :
  exists st', handleCellBlur 50 chain_state = Returned st' /\
    exists hi, 
      recalc 50 (take 0 (keys (data st'))) (data st') (cells chain_state ++ [mkCell "5" None])%list = Returned hi /\
      evaluateFormula 50 "SUM(C1:C1)" (view hi (data st')) = Returned "0".
Proof.
  eexists. split; [vm_compute; reflexivity|].
  destruct (C1_pass_in_key_order 50 chain_state _ _ _ wf_chain_state eq_refl eq_refl eq_refl)
    as [_ H].
  destruct (H 0%nat "B1" 0%nat (mkCell "0" (Some "=SUM(C1:C1)")) "=SUM(C1:C1)"
              eq_refl eq_refl eq_refl eq_refl) as (hi & H1 & H2 & _).
  exists hi. split; [exact H1|exact H2].
Defined.

(** C1 does not hold as stated.  After [B1 = SUM(C1:C1)], [C1 = SUM(A1:A1)]
    and [A1 = 5] are entered in this order, [B1] reads [C1] and was
    recomputed before it: [C1] shows 5 and [B1] still shows 0, although its
    formula gives 5 on the values now in the sheet. *)
Lemma C1_stale_counterexample :
  exists st,
    edits 50 [("B1", "=SUM(C1:C1)"); ("C1", "=SUM(A1:A1)"); ("A1", "5")] (initial false)
    = Returned st /\
    shown st "C1" = "5" /\
    shown st "B1" = "0" /\
    evaluateFormula 50 "SUM(C1:C1)" (view (cells st) (data st)) = Returned "5" /\
    ~ fresh 50 st.
Proof.
  eexists. split; [vm_compute; reflexivity|].
  split; [reflexivity|]. split; [reflexivity|]. split; [vm_compute; reflexivity|].
  intros H.
  specialize (H "B1" (mkCell "0" (Some "=SUM(C1:C1)")) "=SUM(C1:C1)" eq_refl eq_refl).
  vm_compute in H. discriminate.
Qed.







(** C7.  [parseRange] cuts the token at its colons and keeps the first two
    parts; of each it takes the first character as the column and reads
    the rest with [parseInt] as the row.  When the row of either part
    does not parse, the loop does not run and the result is the empty
    list; nothing fails.  When both rows are integers below 2^52 in
    magnitude, it walks from the first endpoint to the second, row by row
    and within a row column by column, and returns the texts of those
    cells, as long as an array holds them; when there are more cells than
    an array holds, [push] throws.  The walk is the whole rectangle when
    the first endpoint is its top-left corner and the second its
    bottom-right one, and nothing when the second endpoint lies above or
    left of the first: the endpoints are not put in order. *)
Theorem C7_range_is_start_to_end {L : Limits} fuel range data start end_ rest :
  split_on ":" range = start :: end_ :: rest ->
  ((parseInt (slice1 start) = NaN \/ parseInt (slice1 end_) = NaN) ->
   (0 < fuel)%nat ->
   parseRange fuel range data = Returned []) /\
  (forall a1 s1 a2 s2 r1 r2,
     start = String a1 s1 -> end_ = String a2 s2 ->
     parseInt s1 = ofZ (r1 + 1) -> parseInt s2 = ofZ (r2 + 1) ->
     Z.abs r1 < 2 ^ 52 -> Z.abs r2 < 2 ^ 52 ->
     (Z.to_nat (r2 - r1 + 1) + Z.to_nat (code a2 - code a1 + 1) < fuel)%nat ->
     parseRange fuel range data
     = if (Z.to_nat (r2 - r1 + 1) * Z.to_nat (code a2 - code a1 + 1)
           <=? array_limit)%nat
       then Returned (rectangle data (code a1 - 65) r1 (code a2 - 65) r2)
       else Thrown) /\
  (forall c1 r1 c2 r2, r2 < r1 \/ c2 < c1 -> rectangle data c1 r1 c2 r2 = []).
Proof.
  intros Hs. split; [|split].
  - intros Hnan Hf. unfold parseRange. rewrite Hs.
    destruct fuel as [|f]; [lia|]. apply for_rows_NaN.
    destruct Hnan as [-> | ->]; [left|right]; reflexivity.
  - intros a1 s1 a2 s2 r1 r2 -> -> H1 H2 Hr1 Hr2 Hf.
    unfold parseRange. rewrite Hs.
    cbn [charCodeAt0 slice1]. rewrite H1, H2.
    pose proof (code_bounds a1). pose proof (code_bounds a2).
    rewrite !sub_ofZ by lia.
    replace (r1 + 1 - 1) with r1 by lia. replace (r2 + 1 - 1) with r2 by lia.
    remember (Z.to_nat (r2 - r1 + 1)) as n eqn:Hn.
    remember (Z.to_nat (code a2 - code a1 + 1)) as m eqn:Hm.
    assert (Hm' : Z.to_nat (code a2 - 65 - (code a1 - 65) + 1) = m)
      by (rewrite Hm; f_equal; lia).
    destruct (Nat.leb_spec (n * m) array_limit) as [Hfit|Hover].
    + rewrite (for_rows_range data _ _ r2 n fuel r1 [] (eq_sym Hn));
        rewrite ?Hm'; cbn [length]; try lia. reflexivity.
    + apply (for_rows_overflow data _ _ r2 n fuel r1 [] (eq_sym Hn));
        rewrite ?Hm'; cbn [length]; lia.
  - intros. now apply rectangle_backwards.
Qed.

(** The ranges [A1:?] and [A1:B2], the rectangle from row 3 up to row
    1, and a range of one cell more than the arrays of [small_engine]
    hold. *)
Lemma C7_range_is_start_to_end_witness :
  parseRange 50 "A1:?" sheet_1_x_3 = Returned [] /\
  parseRange 50 "A1:B2" sheet_1_x_3 = Returned (rectangle sheet_1_x_3 0 0 1 1) /\
  rectangle sheet_1_x_3 0 2 0 0 = [] /\
  parseRange 2700 "A1:A2601" sheet_1_x_3 = Thrown.
Proof.
  destruct (C7_range_is_start_to_end 50 "A1:?" sheet_1_x_3 "A1" "?" [] eq_refl)
    as (H1 & _ & _).
  destruct (C7_range_is_start_to_end 50 "A1:B2" sheet_1_x_3 "A1" "B2" [] eq_refl)
    as (_ & H2 & H3).
  destruct (C7_range_is_start_to_end 2700 "A1:A2601" sheet_1_x_3 "A1" "A2601" [] eq_refl)
    as (_ & H4 & _).
  split; [|split; [|split]].
  - apply H1; [right; reflexivity|lia].
  - assert (P1 : parseInt "1" = ofZ (0 + 1)) by (vm_compute; reflexivity).
    assert (P2 : parseInt "2" = ofZ (1 + 1)) by (vm_compute; reflexivity).
    assert (Ha : Z.abs 0 < 2 ^ 52) by (vm_compute; reflexivity).
    assert (Hb : Z.abs 1 < 2 ^ 52) by (vm_compute; reflexivity).
    assert (Hf : (Z.to_nat (1 - 0 + 1) + Z.to_nat (code "B" - code "A" + 1) < 50)%nat)
      by (vm_compute; lia).
    rewrite (H2 "A"%char "1" "B"%char "2" 0 1 eq_refl eq_refl P1 P2 Ha Hb Hf).
    vm_compute. reflexivity.
  - apply H3. left. lia.
  - assert (P1 : parseInt "1" = ofZ (0 + 1)) by (vm_compute; reflexivity).
    assert (P2 : parseInt "2601" = ofZ (2600 + 1)) by (vm_compute; reflexivity).
    assert (Ha : Z.abs 0 < 2 ^ 52) by (vm_compute; reflexivity).
    assert (Hb : Z.abs 2600 < 2 ^ 52) by (vm_compute; reflexivity).
    assert (Hf : (Z.to_nat (2600 - 0 + 1) + Z.to_nat (code "A" - code "A" + 1)
                  < 2700)%nat) by (vm_compute; lia).
    rewrite (H4 "A"%char "1" "A"%char "2601" 0 2600 eq_refl eq_refl P1 P2 Ha Hb Hf).
    vm_compute. reflexivity.
Defined.

(** C7 does not hold as stated.  [A1:A3] gives three cells, the same
    rectangle named from its other corner, [A3:A1], gives none, and a
    token whose second endpoint is no address gives the empty list
    instead of failing. *)
Lemma C7_range_counterexample :
  parseRange 50 "A1:A3" sheet_1_x_3 = Returned ["1"; "x"; "3"] /\
  parseRange 50 "A3:A1" sheet_1_x_3 = Returned [] /\
  parseRange 50 "A1:?" sheet_1_x_3 = Returned [].
Proof. repeat split; vm_compute; reflexivity. Qed.

(** C8.  [SUM] takes its argument as one operand.  When the trimmed,
    upper-cased argument contains a colon, the result is the sum, from 0
    on, of the texts of the range, each read with [parseFloat] and taken
    as 0 when that gives NaN or 0; otherwise the argument is one cell or
    one literal and the result is its number added to 0.  On the sheet
    with 1, x and 3 in [A1:A3], [SUM(A1:A3)] is 4, and the empty range
    [A3:A1] sums to 0. *)
Theorem C8_sum_of_one_operand {L : Limits} :
  (forall fuel arg data cells,
     nonempty arg = true -> no_line_terminator arg = true ->
     includes ":" (trim (toUpperCase arg)) = true ->
     parseRange fuel (trim (toUpperCase arg)) data = Returned cells ->
     evaluateFormula fuel ("SUM(" ++ arg ++ ")") data
     = Returned (toString (fold_left add (map number_or_zero cells) (ofZ 0)))) /\
  (forall fuel arg data,
     nonempty arg = true -> no_line_terminator arg = true ->
     includes ":" (trim (toUpperCase arg)) = false ->
     evaluateFormula fuel ("SUM(" ++ arg ++ ")") data
     = Returned (toString (add (ofZ 0)
         (number_or_zero (evaluateValue (trim (toUpperCase arg)) data))))) /\
  (forall s, parseFloat s = NaN -> number_or_zero s = ofZ 0) /\
  evaluateFormula 50 "SUM(A1:A3)" sheet_1_x_3 = Returned "4" /\
  evaluateFormula 50 "SUM(A3:A1)" sheet_1_x_3 = Returned "0".
Proof.
  split; [|split; [|split; [|split]]].
  - intros fuel arg data cells Hn Hl Hi Hr. unfold evaluateFormula.
    rewrite match_sum_intro by assumption. unfold parseValues.
    rewrite Hi, Hr. reflexivity.
  - intros fuel arg data Hn Hl Hi. unfold evaluateFormula.
    rewrite match_sum_intro by assumption. unfold parseValues.
    rewrite Hi. reflexivity.
  - intros s Hs. unfold number_or_zero. now rewrite Hs.
  - vm_compute. reflexivity.
  - vm_compute. reflexivity.
Qed.

(** [SUM(a1:a3)] and [SUM(A1)] on the sheet with 1, x and 3. *)
Lemma C8_sum_of_one_operand_witness :
  evaluateFormula 50 "SUM(a1:a3)" sheet_1_x_3
  = Returned (toString (fold_left add (map number_or_zero ["1"; "x"; "3"]) (ofZ 0))) /\
  evaluateFormula 50 "SUM(A1)" sheet_1_x_3
  = Returned (toString (add (ofZ 0) (number_or_zero "1"))) /\
  number_or_zero "x" = ofZ 0.
Proof.
  destruct C8_sum_of_one_operand as (H1 & H2 & H3 & _).
  split; [|split].
  - apply (H1 50%nat "a1:a3" sheet_1_x_3); reflexivity.
  - apply (H2 50%nat "A1" sheet_1_x_3); reflexivity.
  - apply H3. reflexivity.
Defined.

(** C8 does not hold as stated.  An argument list is not cut at its
    commas: with 1 in [A1] and 3 in [A3], [SUM(A1,A3)] is 0, and
    [SUM(A1:A1,A3:A3)] is 1. *)
Lemma C8_operand_list_counterexample :
  cell_text sheet_1_x_3 "A1" = "1" /\ cell_text sheet_1_x_3 "A3" = "3" /\
  evaluateFormula 50 "SUM(A1,A3)" sheet_1_x_3 = Returned "0" /\
  evaluateFormula 50 "SUM(A1:A1,A3:A3)" sheet_1_x_3 = Returned "1".
Proof. repeat split; vm_compute; reflexivity. Qed.

(** C3.  [COUNT(A1:A3)] on the sheet with 1, x and 3 is 3, not 2: the
    text x has become the number 0 before [COUNT] filters out NaN. *)
Theorem C3_count_counts_every_cell {L : Limits} :
  evaluateFormula 50 "COUNT(A1:A3)" sheet_1_x_3 = Returned "3".
Proof. vm_compute. reflexivity. Qed.

(** C9.  [MIN(A1:A2)] on the sheet with 5 and x is 0, not 5, and
    [MAX(A1:A2)] on the sheet with -5 and an empty [A2] is 0, not -5: the
    cells that hold no number take part as 0. *)
Theorem C9_min_takes_coerced_zero {L : Limits} :
  evaluateFormula 50 "MIN(A1:A2)" sheet_5_x = Returned "0" /\
  evaluateFormula 50 "MAX(A1:A2)" (sheet_A1 "-5") = Returned "0".
Proof. split; vm_compute; reflexivity. Qed.

(** C4.  The formula [IF(A1>5,q big q,q small q)] gives BIG when [A1] is
    10 and SMALL when [A1] is 3: the branches are cut out of the
    upper-cased formula. *)
Theorem C4_if_upper_cases_literal {L : Limits} :
  evaluateFormula 50 if_big_small (sheet_A1 "10") = Returned "BIG" /\
  evaluateFormula 50 if_big_small (sheet_A1 "3") = Returned "SMALL".
Proof. split; vm_compute; reflexivity. Qed.

(** C5.  After [B1 = SUM(A1:A1)], [A1 = 5] and [A1 = 7], two undos put
    the record of after the first edit back, but its cell [B1], which the
    later passes overwrote in place, shows 7 where it showed 0. *)
Theorem C5_undo_shows_later_value {L : Limits} :
  exists s1 s3 u,
    edits 50 [("B1", "=SUM(A1:A1)")] (initial false) = Returned s1 /\
    edits 50 [("B1", "=SUM(A1:A1)"); ("A1", "5"); ("A1", "7")] (initial false)
    = Returned s3 /\
    (s <- undo s3 ;; undo s) = Returned u /\
    data u = data s1 /\
    shown s1 "B1" = "0" /\
    shown u "B1" = "7".
Proof.
  do 3 eexists. split; [vm_compute; reflexivity|].
  split; [vm_compute; reflexivity|]. split; [vm_compute; reflexivity|].
  repeat split.
Qed.

(** C10.  [evaluateFormula] does not return on
    [SUM(B100000000000000000000:A100000000000000000000)], whatever the
    sheet and the engine: the row counter starts at 10^20, where [r++]
    leaves it unchanged, and the columns run from B back to A, so that no
    cell is pushed and the loop of [parseRange] goes round for ever; it
    runs out of any fuel. *)
Theorem C10_row_loop_never_ends {L : Limits} fuel data :
  evaluateFormula fuel "SUM(B100000000000000000000:A100000000000000000000)" data
  = OutOfFuel.
Proof.
  unfold evaluateFormula.
  change (match_call "SUM" (toUpperCase "SUM(B100000000000000000000:A100000000000000000000)"))
    with (Some "B100000000000000000000:A100000000000000000000").
  cbv iota. unfold parseValues.
  change (trim "B100000000000000000000:A100000000000000000000")
    with "B100000000000000000000:A100000000000000000000".
  change (includes ":" "B100000000000000000000:A100000000000000000000") with true.
  cbv iota. unfold parseRange.
  change (split_on ":" "B100000000000000000000:A100000000000000000000")
    with ["B100000000000000000000"; "A100000000000000000000"].
  cbv iota.
  change (sub (parseInt (slice1 "B100000000000000000000")) (ofZ 1)) with (ofZ huge_row).
  change (sub (parseInt (slice1 "A100000000000000000000")) (ofZ 1)) with (ofZ huge_row).
  now rewrite for_rows_stuck.
Qed.

(** * Further properties of the code *)

Import EvalFacts GridFacts StoreFacts.

(** ** [evaluateFormula] and its helpers *)

(** X1.  On a formula text without a colon [evaluateFormula] returns,
    whatever the sheet, the engine and the fuel: no range is read, so no
    loop runs and nothing is pushed, and [MIN] and [MAX] spread one value
    at most. *)
Theorem formula_without_colon_returns {L : Limits} fuel formula data :
  includes ":" formula = false ->
  exists s, evaluateFormula fuel formula data = Returned s.
Proof.
  intros H. rewrite <- includes_toUpperCase_colon in H.
  unfold evaluateFormula.
  repeat match goal with
  | |- context [match match_call ?n ?s with _ => _ end] =>
      let E := fresh "E" in
      destruct (match_call n s) as [arg|] eqn:E;
      [rewrite (parseValues_single _ _ _ (match_call_includes _ _ _ _ E H)); cbn [bind]|]
  end.
  - eauto.
  - eauto.
  - eauto.
  - unfold numbers_of. cbn [List.filter].
    destruct (negb _); [rewrite spread_one; cbn [bind]|]; eauto.
  - unfold numbers_of. cbn [List.filter].
    destruct (negb _); [rewrite spread_one; cbn [bind]|]; eauto.
  - destruct (match_if _) as [[[g1 g2] g3]|]; [|eauto].
    destruct (evaluateCondition _ _); eauto.
Qed.

Lemma formula_without_colon_returns_witness :
  exists s, evaluateFormula 0 "MIN(A1)" sheet_1_x_3 = Returned s.
Proof. apply (formula_without_colon_returns 0 "MIN(A1)" sheet_1_x_3). reflexivity. Defined.

(** X2.  On a token without a colon [parseRange] throws, whatever the
    sheet, the engine and the fuel: the second endpoint is undefined. *)
Theorem parseRange_throws_without_colon {L : Limits} fuel range data :
  includes ":" range = false -> parseRange fuel range data = Thrown.
Proof.
  intros H. unfold parseRange. now rewrite includes_split_on_false.
Qed.

Lemma parseRange_throws_without_colon_witness :
  parseRange 50 "A1" sheet_1_x_3 = Thrown.
Proof. apply (parseRange_throws_without_colon 50 "A1" sheet_1_x_3). reflexivity. Defined.

(** X3.  A formula text that does not end in a closing parenthesis matches
    no pattern and evaluates to 0, whatever the sheet. *)
Theorem unclosed_formula_is_zero {L : Limits} fuel formula data :
  strip_last ")" formula = None ->
  evaluateFormula fuel formula data = Returned "0".
Proof.
  intros H. apply evaluateFormula_unrecognized. now apply unclosed_unrecognized.
Qed.

Lemma unclosed_formula_is_zero_witness :
  evaluateFormula 50 "SUM(A1:A3" sheet_1_x_3 = Returned "0".
Proof. apply (unclosed_formula_is_zero 50 "SUM(A1:A3" sheet_1_x_3). reflexivity. Defined.

(** X4.  No value that [parseValues] returns is NaN, so the filter of
    [COUNT] keeps every value: [COUNT] returns how many values its
    operand has, whatever they are. *)
Theorem count_is_number_of_values {L : Limits} fuel arg data values :
  nonempty arg = true -> no_line_terminator arg = true ->
  parseValues fuel (toUpperCase arg) data = Returned values ->
  Forall (fun v => isNaN v = false) values /\
  evaluateFormula fuel ("COUNT(" ++ arg ++ ")") data
  = Returned (toString (length_number values)).
Proof.
  intros Hn Hl Hv. split.
  - pose proof (parseValues_numbers _ _ _ _ Hv) as H. unfold numbers_of in H.
    rewrite <- H. apply Forall_forall. intros v Hin.
    apply list_elem_of_In, filter_In in Hin as [_ Hin]. now apply negb_true_iff.
  - rewrite evaluateFormula_count by assumption. rewrite Hv. cbn [bind].
    now rewrite (parseValues_numbers _ _ _ _ Hv).
Qed.

Lemma count_is_number_of_values_witness :
  Forall (fun v => isNaN v = false) [ofZ 1; ofZ 0; ofZ 3] /\
  evaluateFormula 50 "COUNT(a1:a3)" sheet_1_x_3
  = Returned (toString (length_number [ofZ 1; ofZ 0; ofZ 3])).
Proof.
  apply (count_is_number_of_values 50 "a1:a3" sheet_1_x_3); reflexivity.
Defined.

(** X5.  On a range that resolves to no cell, [SUM], [AVERAGE], [COUNT],
    [MIN] and [MAX] all return 0. *)
Theorem empty_range_gives_zero {L : Limits} fuel arg data :
  nonempty arg = true -> no_line_terminator arg = true ->
  includes ":" (trim (toUpperCase arg)) = true ->
  parseRange fuel (trim (toUpperCase arg)) data = Returned [] ->
  evaluateFormula fuel ("SUM(" ++ arg ++ ")") data = Returned "0" /\
  evaluateFormula fuel ("AVERAGE(" ++ arg ++ ")") data = Returned "0" /\
  evaluateFormula fuel ("COUNT(" ++ arg ++ ")") data = Returned "0" /\
  evaluateFormula fuel ("MIN(" ++ arg ++ ")") data = Returned "0" /\
  evaluateFormula fuel ("MAX(" ++ arg ++ ")") data = Returned "0".
Proof.
  intros Hn Hl Hi Hr.
  assert (Hv : parseValues fuel (toUpperCase arg) data = Returned []).
  { unfold parseValues. now rewrite Hi, Hr. }
  rewrite evaluateFormula_sum, evaluateFormula_average, evaluateFormula_count,
    evaluateFormula_min, evaluateFormula_max by assumption.
  rewrite Hv. repeat split.
Qed.

Lemma empty_range_gives_zero_witness :
  evaluateFormula 50 "SUM(B2:A1)" sheet_1_x_3 = Returned "0" /\
  evaluateFormula 50 "AVERAGE(B2:A1)" sheet_1_x_3 = Returned "0" /\
  evaluateFormula 50 "COUNT(B2:A1)" sheet_1_x_3 = Returned "0" /\
  evaluateFormula 50 "MIN(B2:A1)" sheet_1_x_3 = Returned "0" /\
  evaluateFormula 50 "MAX(B2:A1)" sheet_1_x_3 = Returned "0".
Proof.
  apply (empty_range_gives_zero 50 "B2:A1" sheet_1_x_3); reflexivity.
Defined.

(** X6.  Evaluation does not depend on the case of the letters of the
    formula text: a text and its upper-cased form give the same result. *)
Theorem evaluation_ignores_case {L : Limits} fuel formula data :
  evaluateFormula fuel (toUpperCase formula) data = evaluateFormula fuel formula data.
Proof. unfold evaluateFormula. now rewrite toUpperCase_idem. Qed.

(** X7.  The text [IF(c,t,e)], where [c] and [t] hold no comma and [e] no
    closing parenthesis, evaluates to the value of [t] when the condition
    [c] holds and to the value of [e] otherwise, all three read trimmed
    and in upper case. *)
Theorem if_selects_branch {L : Limits} fuel c t e data :
  nonempty c = true -> nonempty t = true -> nonempty e = true ->
  no_comma c = true -> no_comma t = true -> no_rparen e = true ->
  evaluateFormula fuel ("IF(" ++ c ++ "," ++ t ++ "," ++ e ++ ")") data
  = Returned (if evaluateCondition (trim (toUpperCase c)) data
              then evaluateValue (trim (toUpperCase t)) data
              else evaluateValue (trim (toUpperCase e)) data).
Proof.
  intros Hc Ht He Hcc Htc Her. unfold evaluateFormula.
  assert (Hu : toUpperCase ("IF(" ++ c ++ "," ++ t ++ "," ++ e ++ ")")
               = "IF(" ++ toUpperCase c ++ "," ++ toUpperCase t ++ "," ++ toUpperCase e ++ ")").
  { now rewrite !toUpperCase_app. }
  rewrite Hu.
  pose proof (match_if_intro (toUpperCase c) (toUpperCase t) (toUpperCase e)) as Hm.
  rewrite !toUpperCase_nonempty, !toUpperCase_no_comma, toUpperCase_no_rparen in Hm.
  specialize (Hm Hc Ht He Hcc Htc Her).
  set (u := "IF(" ++ toUpperCase c ++ "," ++ toUpperCase t ++ "," ++ toUpperCase e ++ ")") in *.
  change (match_call "SUM" u) with (@None string).
  change (match_call "AVERAGE" u) with (@None string).
  change (match_call "COUNT" u) with (@None string).
  change (match_call "MIN" u) with (@None string).
  change (match_call "MAX" u) with (@None string).
  cbv iota. rewrite Hm.
  now destruct (evaluateCondition (trim (toUpperCase c)) data).
Qed.

Lemma if_selects_branch_witness :
  evaluateFormula 50 "IF(a1 >= 10, yes, 7)" (sheet_A1 "10") = Returned "YES".
Proof.
  apply (if_selects_branch 50 "a1 >= 10" " yes" " 7" (sheet_A1 "10")); reflexivity.
Defined.

(** X8.  A condition with none of the characters [<], [>], [=], [!] is
    false, whatever its text and the sheet: [IF(A1,x,y)] always gives its
    second branch. *)
Theorem condition_without_operator_is_false condition data :
  no_op condition = true -> evaluateCondition condition data = false.
Proof.
  intros H. unfold evaluateCondition, split_condition.
  now rewrite split_sep_no_op.
Qed.

Lemma condition_without_operator_is_false_witness :
  evaluateCondition "A1" (sheet_A1 "10") = false.
Proof. apply (condition_without_operator_is_false "A1" (sheet_A1 "10")). reflexivity. Defined.

(** ** The grid *)

(** X9.  A range between two cells of the grid resolves to the texts of
    the cells of the grid from the first cell to the second, row by row:
    the whole rectangle when the first is its top-left corner, nothing
    when the second lies above or left of the first. *)
Theorem range_between_grid_cells {L : Limits} fuel c1 r1 c2 r2 data :
  0 <= c1 < COLUMNS -> 0 <= r1 < ROWS ->
  0 <= c2 < COLUMNS -> 0 <= r2 < ROWS ->
  (126 < fuel)%nat ->
  parseRange fuel (getCellKey c1 r1 ++ ":" ++ getCellKey c2 r2) data
  = Returned (flat_map (fun r => map (fun c => cell_text data (getCellKey c r))
                                     (Zrange c1 c2))
                       (Zrange r1 r2)).
Proof. apply range_on_grid. Qed.

Lemma range_between_grid_cells_witness :
  parseRange 127 "A1:B3" sheet_1_x_3 = Returned ["1"; "0"; "x"; "0"; "3"; "0"].
Proof.
  apply (range_between_grid_cells 127 0 0 1 2 sheet_1_x_3);
    first [unfold COLUMNS, ROWS; lia | lia].
Defined.

(** X10.  [SUM] over a range of two grid cells returns, with fuel for the
    126 rows and columns of the grid, the sum of the numbers of the
    rectangle's cells. *)
Theorem sum_over_grid_range {L : Limits} fuel c1 r1 c2 r2 data :
  0 <= c1 < COLUMNS -> 0 <= r1 < ROWS ->
  0 <= c2 < COLUMNS -> 0 <= r2 < ROWS ->
  (126 < fuel)%nat ->
  evaluateFormula fuel ("SUM(" ++ (getCellKey c1 r1 ++ ":" ++ getCellKey c2 r2) ++ ")") data
  = Returned (toString (sum_values (map number_or_zero
      (flat_map (fun r => map (fun c => cell_text data (getCellKey c r)) (Zrange c1 c2))
                (Zrange r1 r2))))).
Proof.
  intros Hc1 Hr1 Hc2 Hr2 Hf.
  destruct (parseValues_on_grid fuel c1 r1 c2 r2 data Hc1 Hr1 Hc2 Hr2 Hf) as (Hn & Hl & Hv).
  rewrite evaluateFormula_sum by assumption. now rewrite Hv.
Qed.

Lemma sum_over_grid_range_witness :
  evaluateFormula 127 "SUM(A1:B3)" sheet_1_x_3 = Returned "4".
Proof.
  apply (sum_over_grid_range 127 0 0 1 2 sheet_1_x_3);
    first [unfold COLUMNS, ROWS; lia | lia].
Defined.

(** X11.  [COUNT] over a range of two grid cells returns the number of
    cells of the rectangle, whatever the cells hold. *)
Theorem count_over_grid_range {L : Limits} fuel c1 r1 c2 r2 data :
  0 <= c1 < COLUMNS -> 0 <= r1 < ROWS ->
  0 <= c2 < COLUMNS -> 0 <= r2 < ROWS ->
  (126 < fuel)%nat ->
  evaluateFormula fuel ("COUNT(" ++ (getCellKey c1 r1 ++ ":" ++ getCellKey c2 r2) ++ ")") data
  = Returned (toString (ofZ (Z.of_nat
      (Z.to_nat (r2 - r1 + 1) * Z.to_nat (c2 - c1 + 1))))).
Proof.
  intros Hc1 Hr1 Hc2 Hr2 Hf.
  destruct (parseValues_on_grid fuel c1 r1 c2 r2 data Hc1 Hr1 Hc2 Hr2 Hf) as (Hn & Hl & Hv).
  rewrite evaluateFormula_count by assumption. rewrite Hv. cbn [bind].
  rewrite numbers_of_map. unfold length_number.
  rewrite length_map.
  rewrite (length_flat_map_const _ (Z.to_nat (c2 - c1 + 1))).
  - unfold Zrange. now rewrite length_Zcount.
  - intros r. rewrite length_map. unfold Zrange. apply length_Zcount.
Qed.

Lemma count_over_grid_range_witness :
  evaluateFormula 127 "COUNT(A1:B3)" sheet_1_x_3 = Returned "6".
Proof.
  apply (count_over_grid_range 127 0 0 1 2 sheet_1_x_3);
    first [unfold COLUMNS, ROWS; lia | lia].
Defined.

(** X12.  The row and the column that [handleCellClick] computes from a
    key of the grid are those the key was made from by [getCellKey]; so
    two cells of the grid never share a key. *)
Theorem cursor_round_trip col row :
  0 <= col < COLUMNS -> 0 <= row < ROWS ->
  cursor_of (getCellKey col row) = (ofZ row, ofZ col) /\
  forall col' row', 0 <= col' < COLUMNS -> 0 <= row' < ROWS ->
    getCellKey col row = getCellKey col' row' -> col = col' /\ row = row'.
Proof.
  intros Hc Hr. split; [now apply cursor_on_grid|].
  intros col' row' Hc' Hr'. now apply getCellKey_inj.
Qed.

Lemma cursor_round_trip_witness :
  cursor_of (getCellKey 3 41) = (ofZ 41, ofZ 3).
Proof.
  apply (cursor_round_trip 3 41); unfold COLUMNS, ROWS; lia.
Defined.

(** X13.  From a cell of the grid, [handleKeyboardNavigation] goes to the
    neighbouring cell in the direction of the key, and stays where it is
    at the edge of the grid: it never leaves the grid. *)
Theorem navigation_stays_on_grid key col row :
  0 <= col < COLUMNS -> 0 <= row < ROWS ->
  let '(c, r) := neighbour key col row in
  handleKeyboardNavigation key (getCellKey col row) = Some (getCellKey c r) /\
  0 <= c < COLUMNS /\ 0 <= r < ROWS.
Proof.
  intros Hc Hr. pose proof (navigation_on_grid key col row Hc Hr) as H.
  destruct (neighbour key col row) as [c r] eqn:E. split; [exact H|].
  unfold neighbour, COLUMNS, ROWS in *. destruct key; injection E as <- <-; lia.
Qed.

Lemma navigation_stays_on_grid_witness :
  handleKeyboardNavigation ArrowDown (getCellKey 25 99) = Some (getCellKey 25 99) /\
  0 <= 25 < COLUMNS /\ 0 <= 99 < ROWS.
Proof.
  apply (navigation_stays_on_grid ArrowDown 25 99); unfold COLUMNS, ROWS; lia.
Defined.

(** ** The handlers on the records and the history *)

(** The state [st'] that [handleCellBlur fuel st] returns on a concrete
    [st], with the equation [E] that says so. *)
Ltac run_blur fuel st st' E :=
  let r := fresh "r" in
  remember (handleCellBlur fuel st) as r eqn:E;
  destruct r as [st'| |]; [|vm_compute in E; discriminate E..];
  symmetry in E; exists st'; split; [reflexivity|].

(** X14.  Every handler keeps the state in order: the shown record and
    the records of the history are well formed in the heap, the cursor of
    the history is in range and the record under it is the one shown.  In
    such a state [undo] and [redo] return and never read past the
    history. *)
Theorem handlers_keep_state_ok {L : Limits} st :
  state_ok st ->
  (forall fuel st', handleCellBlur fuel st = Returned st' -> state_ok st') /\
  (forall key, state_ok (handleCellClick key st)) /\
  (forall v, state_ok (handleCellChange v st)) /\
  (forall key, state_ok (clearCell key st)) /\
  (forall rows, state_ok (importData rows st)) /\
  (exists u, undo st = Returned u /\ state_ok u) /\
  (exists r, redo st = Returned r /\ state_ok r).
Proof.
  intros Hok. split; [|split; [|split; [|split; [|split; [|split]]]]].
  - intros fuel st'. now apply state_ok_blur.
  - intros key. unfold handleCellClick. now destruct (isViewOnly st).
  - intros v. unfold handleCellChange. now destruct (isViewOnly st).
  - intros key. now apply state_ok_clear.
  - intros rows. now apply state_ok_import.
  - now apply undo_ok.
  - now apply redo_ok.
Qed.

Lemma handlers_keep_state_ok_witness :
  (forall fuel st', handleCellBlur fuel chain_state = Returned st' -> state_ok st') /\
  (exists u, undo chain_state = Returned u /\ state_ok u).
Proof.
  assert (Hok : state_ok chain_state).
  { split; [apply wf_chain_state|]. split.
    - repeat (apply Forall_cons; split);
        try (apply Forall_nil; exact I);
        (repeat split; simpl; [nodup_list|nodup_list|repeat constructor]).
    - split; [simpl; lia|]. intros _. reflexivity. }
  destruct (handlers_keep_state_ok chain_state Hok) as (H1 & _ & _ & _ & _ & H6 & _).
  split; [exact H1|exact H6].
Defined.

(** X15.  A committed edit whose text does not start with [=] stores
    exactly that text on the edited cell, with no formula. *)
Theorem plain_edit_is_stored {L : Limits} fuel st st' :
  wf_store (cells st) (data st) ->
  isViewOnly st = false ->
  startsWith_eq (editValue st) = false ->
  handleCellBlur fuel st = Returned st' ->
  view (cells st') (data st') (selectedCell st) = Some (mkCell (editValue st) None).
Proof.
  intros Hwf Hv He Hb.
  destruct (handleCellBlur_inv _ _ _ Hv Hb) as (h & o & h' & Ha & Hr & ->).
  destruct (assign_inv _ _ _ _ Ha) as (c & -> & -> & Hc). rewrite He in Hc. subst c.
  simpl. unfold view. rewrite obj_get_set_eq.
  eapply recalc_plain; [exact Hr| |reflexivity].
  rewrite lookup_app_r by lia. now rewrite Nat.sub_diag.
Qed.

Lemma plain_edit_is_stored_witness :
  exists st', handleCellBlur 50 chain_state = Returned st' /\
    view (cells st') (data st') "A1" = Some (mkCell "5" None).
Proof.
  run_blur 50%nat chain_state st' E.
  apply (plain_edit_is_stored 50 chain_state st' wf_chain_state eq_refl eq_refl E).
Defined.

(** X16.  A committed edit never changes a cell of another key that holds
    no formula: the pass only writes cells that have one. *)
Theorem plain_cells_untouched_by_edit {L : Limits} fuel st st' key cell :
  wf_store (cells st) (data st) ->
  isViewOnly st = false ->
  handleCellBlur fuel st = Returned st' ->
  key <> selectedCell st ->
  view (cells st) (data st) key = Some cell ->
  formula_of cell = None ->
  view (cells st') (data st') key = Some cell.
Proof.
  intros Hwf Hv Hb Hne Hc Hf.
  destruct (handleCellBlur_inv _ _ _ Hv Hb) as (h & o & h' & Ha & Hr & ->).
  destruct (assign_inv _ _ _ _ Ha) as (c & -> & -> & _). simpl.
  unfold view in *. rewrite obj_get_set_ne by congruence.
  destruct (obj_get (data st) key) as [r|] eqn:E; [|discriminate].
  eapply recalc_plain; [exact Hr| |exact Hf].
  rewrite lookup_app_l; [exact Hc|]. eapply lookup_lt_Some. exact Hc.
Qed.

Lemma plain_cells_untouched_by_edit_witness :
  exists st', handleCellBlur 50 cycle_state = Returned st' /\
    view (cells st') (data st') "A2" = Some (mkCell "1" None).
Proof.
  run_blur 50%nat cycle_state st' E.
  apply (plain_cells_untouched_by_edit 50 cycle_state st' "A2" (mkCell "1" None)
           wf_cycle_state eq_refl E);
    [discriminate|reflexivity|reflexivity].
Defined.

(** X17.  A committed edit keeps the formula text of every other cell and
    the place of every key: the edited key keeps its place if the record
    had it, and goes last if it is new. *)
Theorem edit_keeps_formulas_and_key_order {L : Limits} fuel st st' :
  wf_store (cells st) (data st) ->
  isViewOnly st = false ->
  handleCellBlur fuel st = Returned st' ->
  (forall key, key <> selectedCell st ->
     formula <$> view (cells st') (data st') key
     = formula <$> view (cells st) (data st) key) /\
  keys (data st')
  = (if decide (selectedCell st ∈ keys (data st)) then keys (data st)
     else (keys (data st) ++ [selectedCell st])%list).
Proof.
  intros Hwf Hv Hb. split.
  - intros key Hne. now apply (blur_formulas_kept fuel).
  - now apply (blur_keys fuel).
Qed.

Lemma edit_keeps_formulas_and_key_order_witness :
  exists st', handleCellBlur 50 chain_state = Returned st' /\
    (formula <$> view (cells st') (data st') "B1") = Some (Some "=SUM(C1:C1)") /\
    keys (data st') = ["B1"; "C1"; "A1"].
Proof.
  run_blur 50%nat chain_state st' E.
  destruct (edit_keeps_formulas_and_key_order 50 chain_state st' wf_chain_state eq_refl E)
    as [H1 H2].
  split; [|exact H2]. rewrite (H1 "B1"); [reflexivity|discriminate].
Defined.

(** X18.  The first record committed in a session cannot be undone: when
    the history is empty before it, [undo] after the edit changes
    nothing. *)
Theorem first_edit_cannot_be_undone {L : Limits} fuel st st' :
  isViewOnly st = false -> historyIndex st = -1 ->
  handleCellBlur fuel st = Returned st' ->
  undo st' = Returned st'.
Proof.
  intros Hv Hi Hb.
  destruct (handleCellBlur_inv _ _ _ Hv Hb) as (h & o & h' & _ & _ & ->).
  unfold undo. cbn [historyIndex]. rewrite Hi. change (-1 + 1) with 0.
  unfold slice0. change (0 <? 0) with false. cbv iota.
  rewrite Z.min_l by lia. reflexivity.
Qed.

Lemma first_edit_cannot_be_undone_witness :
  exists st', edit 50 "A1" "5" (initial false) = Returned st' /\
    shown st' "A1" = "5" /\ undo st' = Returned st'.
Proof.
  eexists. split; [vm_compute; reflexivity|]. split; [reflexivity|].
  apply (first_edit_cannot_be_undone 50
           (handleCellChange "5" (handleCellClick "A1" (initial false))));
    reflexivity.
Defined.

(** X19.  One [undo] after a commit shows again the record that was shown
    before it, and one [redo] then shows the committed record again. *)
Theorem undo_then_redo d st :
  history_ok st -> 0 <= historyIndex st ->
  exists u r,
    undo (commit d st) = Returned u /\ data u = data st /\
    historyIndex u = historyIndex st /\
    redo u = Returned r /\ data r = d /\
    historyIndex r = historyIndex (commit d st) /\
    history r = history (commit d st).
Proof.
  intros Hok H0.
  destruct (undo_commit d st Hok H0) as (u & Hu & Hd & Hi & Hh & _ & _ & Hr).
  exists u. eexists. split; [exact Hu|]. split; [exact Hd|]. split; [exact Hi|].
  split; [exact Hr|]. cbn [data historyIndex history setHistoryIndex setData].
  destruct (commit_history d st Hok) as (_ & Hic & _). rewrite Hic. auto.
Qed.

Lemma undo_then_redo_witness :
  exists u r,
    undo (commit [("Z9", 0%nat)] chain_state) = Returned u /\
    data u = [("B1", 0%nat); ("C1", 1%nat)] /\ historyIndex u = 1 /\
    redo u = Returned r /\ data r = [("Z9", 0%nat)] /\
    historyIndex r = historyIndex (commit [("Z9", 0%nat)] chain_state) /\
    history r = history (commit [("Z9", 0%nat)] chain_state).
Proof.
  apply (undo_then_redo [("Z9", 0%nat)] chain_state).
  - split; [simpl; lia|]. intros _. reflexivity.
  - simpl. lia.
Defined.

(** X20.  After three commits, two undos show the record of the first
    commit and one redo then shows that of the second; a new commit after
    the two undos drops the records that were ahead of the cursor, and
    [redo] then changes nothing. *)
Theorem three_commits_two_undos st d1 d2 d3 d4 :
  history_ok st ->
  let kept := take (Z.to_nat (historyIndex st + 1)) (history st) in
  let s3 := commit d3 (commit d2 (commit d1 st)) in
  exists u2 u1 r,
    undo s3 = Returned u2 /\ data u2 = d2 /\
    undo u2 = Returned u1 /\ data u1 = d1 /\
    redo u1 = Returned r /\ data r = d2 /\
    history r = (kept ++ [d1; d2; d3])%list /\
    history (commit d4 u1) = (kept ++ [d1; d4])%list /\
    redo (commit d4 u1) = Returned (commit d4 u1).
Proof.
  intros Hok kept s3.
  destruct (commit_history d1 st Hok) as (Hh1 & Hi1 & _ & _).
  pose proof (history_ok_commit d1 st) as Hok1.
  destruct (commit_history d2 _ Hok1) as (Hh2 & Hi2 & _ & _).
  pose proof (history_ok_commit d2 (commit d1 st)) as Hok2.
  destruct (commit_history d3 _ Hok2) as (Hh3 & Hi3 & _ & _).
  fold s3 in Hh3, Hi3. pose proof Hok as [Hb _].
  assert (Hk : length kept = Z.to_nat (historyIndex st + 1)).
  { unfold kept. rewrite length_take. lia. }
  assert (Hh : history s3 = (kept ++ [d1; d2; d3])%list).
  { fold kept in Hh1. rewrite Hi1, Hh1 in Hh2.
    rewrite take_ge in Hh2 by (rewrite length_app; simpl; lia).
    rewrite Hi2, Hi1, Hh2 in Hh3.
    rewrite take_ge in Hh3 by (rewrite !length_app; simpl; lia).
    rewrite Hh3. now rewrite <- !app_assoc. }
  assert (Hi : historyIndex s3 = Z.of_nat (length kept) + 2) by lia.
  clearbody s3. clear Hh1 Hh2 Hh3 Hi1 Hi2 Hi3 Hok1 Hok2.
  (* the first undo *)
  assert (U2 : undo s3 = Returned (setHistoryIndex (historyIndex s3 - 1) (setData d2 s3))).
  { apply undo_step; [lia|].
    eapply (history_at_app _ _ _ _ 1%nat); [exact Hh|lia|reflexivity]. }
  set (u2 := setHistoryIndex (historyIndex s3 - 1) (setData d2 s3)) in *.
  assert (U1 : undo u2 = Returned (setHistoryIndex (historyIndex u2 - 1) (setData d1 u2))).
  { apply undo_step; [simpl; lia|].
    eapply (history_at_app _ _ _ _ 0%nat); [exact Hh|simpl; lia|reflexivity]. }
  set (u1 := setHistoryIndex (historyIndex u2 - 1) (setData d1 u2)) in *.
  assert (Hi1 : historyIndex u1 = Z.of_nat (length kept)) by (simpl; lia).
  assert (R : redo u1 = Returned (setHistoryIndex (historyIndex u1 + 1) (setData d2 u1))).
  { apply redo_step.
    - change (history u1) with (history s3). rewrite Hh, length_app. simpl. lia.
    - eapply (history_at_app _ _ _ _ 1%nat); [exact Hh|lia|reflexivity]. }
  exists u2, u1, (setHistoryIndex (historyIndex u1 + 1) (setData d2 u1)).
  repeat split; try assumption.
  - pose proof (commit_history d4 u1) as (H4 & _).
    { split; [change (history u1) with (history s3); rewrite Hh, length_app; simpl; lia|].
      intros _. eapply (history_at_app _ _ _ _ 0%nat); [exact Hh|lia|reflexivity]. }
    rewrite H4. change (history u1) with (history s3). rewrite Hh, Hi1.
    replace (Z.to_nat (Z.of_nat (length kept) + 1)) with (length kept + 1)%nat by lia.
    rewrite take_app_add'; [|reflexivity]. now rewrite <- app_assoc.
  - apply redo_commit.
Qed.

Lemma three_commits_two_undos_witness :
  exists u2 u1 r,
    undo (commit [("C", 2%nat)] (commit [("B", 1%nat)] (commit [("A", 0%nat)] (initial false))))
    = Returned u2 /\ data u2 = [("B", 1%nat)] /\
    undo u2 = Returned u1 /\ data u1 = [("A", 0%nat)] /\
    redo u1 = Returned r /\ data r = [("B", 1%nat)] /\
    history r = [[("A", 0%nat)]; [("B", 1%nat)]; [("C", 2%nat)]] /\
    history (commit [("D", 3%nat)] u1) = [[("A", 0%nat)]; [("D", 3%nat)]] /\
    redo (commit [("D", 3%nat)] u1) = Returned (commit [("D", 3%nat)] u1).
Proof.
  apply (three_commits_two_undos (initial false)
           [("A", 0%nat)] [("B", 1%nat)] [("C", 2%nat)] [("D", 3%nat)]).
  split; simpl; lia.
Defined.

(** X21.  Clearing a cell removes its key and nothing else: the heap is
    not touched and no formula is evaluated again, so that every other
    cell, also one whose formula reads the cleared cell, shows what it
    showed. *)
Theorem clear_removes_only_that_key key st :
  wf_store (cells st) (data st) -> isViewOnly st = false ->
  cells (clearCell key st) = cells st /\
  view (cells (clearCell key st)) (data (clearCell key st)) key = None /\
  forall k, k <> key ->
    view (cells (clearCell key st)) (data (clearCell key st)) k
    = view (cells st) (data st) k.
Proof.
  intros (Hk & _) Hv. unfold clearCell. rewrite Hv. simpl.
  split; [reflexivity|]. unfold view. split.
  - now rewrite obj_get_delete_eq.
  - intros k Hne. now rewrite obj_get_delete_ne by congruence.
Qed.

Lemma clear_removes_only_that_key_witness :
  shown foo_state "B1" = "5" /\
  shown (clearCell "A1" foo_state) "A1" = "" /\
  shown (clearCell "A1" foo_state) "B1" = "5".
Proof.
  destruct (clear_removes_only_that_key "A1" foo_state wf_foo_state eq_refl)
    as (_ & H1 & H2).
  split; [reflexivity|]. unfold shown. rewrite H1, (H2 "B1") by discriminate.
  split; reflexivity.
Defined.

(** X22.  An import puts the text at place [n] of row [m] of the file on
    the cell of column [n] and row [m] of the grid, as a value without a
    formula even when the text starts with [=]; what lies beyond the grid
    is dropped, and every key that is not the key of an imported text is
    absent afterwards, the cells the sheet had before included. *)
Theorem import_places_texts_on_grid rows st :
  isViewOnly st = false ->
  (forall m row n v, rows !! m = Some row -> row !! n = Some v ->
     Z.of_nat m < ROWS -> Z.of_nat n < COLUMNS ->
     view (cells (importData rows st)) (data (importData rows st))
          (getCellKey (Z.of_nat n) (Z.of_nat m)) = Some (mkCell v None)) /\
  (forall k,
     (forall m row n v, rows !! m = Some row -> row !! n = Some v ->
        Z.of_nat m < ROWS -> Z.of_nat n < COLUMNS ->
        k <> getCellKey (Z.of_nat n) (Z.of_nat m)) ->
     view (cells (importData rows st)) (data (importData rows st)) k = None).
Proof.
  intros Hv. unfold importData. rewrite Hv.
  pose proof (import_rows_spec rows 0 (cells st) [] ltac:(lia) (wf_store_nil _)) as H.
  destruct (import_rows 0 rows (cells st, [])) as [h' o'].
  destruct H as (_ & _ & H3 & H4). simpl. split.
  - intros m row n v Hm Hn Hr Hc. apply (H3 m row n v Hm Hn); [lia|exact Hc].
  - intros k Hk. rewrite H4; [reflexivity|]. intros m row n v Hm Hn Hr Hc.
    rewrite Z.add_0_l in *. now apply (Hk m row n v).
Qed.

Lemma import_places_texts_on_grid_witness :
  view (cells (importData [["1"; "2"]; ["=SUM(A1:B1)"]] foo_state))
       (data (importData [["1"; "2"]; ["=SUM(A1:B1)"]] foo_state)) "A2"
  = Some (mkCell "=SUM(A1:B1)" None) /\
  shown foo_state "B1" = "5" /\
  view (cells (importData [["1"]] foo_state)) (data (importData [["1"]] foo_state)) "B1"
  = None.
Proof.
  destruct (import_places_texts_on_grid [["1"; "2"]; ["=SUM(A1:B1)"]] foo_state eq_refl)
    as [H _].
  destruct (import_places_texts_on_grid [["1"]] foo_state eq_refl) as [_ H'].
  split; [|split; [reflexivity|]].
  - apply (H 1%nat ["=SUM(A1:B1)"] 0%nat "=SUM(A1:B1)");
      first [reflexivity | unfold ROWS, COLUMNS; lia].
  - apply H'. intros m row n v Hm Hn _ _.
    destruct m as [|m]; [|destruct m; discriminate Hm].
    injection Hm as <-.
    destruct n as [|n]; [|destruct n; discriminate Hn].
    vm_compute. discriminate.
Defined.

Import Csv CsvFacts.

(** X23.  The text of a CSV export is read back by the CSV import as the
    rows that were exported exactly when no cell of the grid shows a comma
    or a newline: the export doubles the double quotes and the import
    undoes it, but the import splits at every newline and every comma,
    also at those between the double quotes of a cell. *)
Theorem csv_export_parses_back st :
  parseCSV (exportAsCSV st) = csvData st <->
  (forall col row, 0 <= col < COLUMNS -> 0 <= row < ROWS ->
     csv_safe (shown st (getCellKey col row)) = true).
Proof.
  destruct (csvData_rows st) as [Hne Hrows]. rewrite <- csvData_safe. split.
  - intros Heq. apply unsafe_chars_zero.
    pose proof (parseCSV_join_cells (csvData st) Hne Hrows) as H.
    fold (exportAsCSV st) in H. rewrite Heq in H. lia.
  - intros Hsafe. unfold exportAsCSV. apply parseCSV_join; [exact Hne|].
    rewrite Forall_forall in Hrows, Hsafe. apply Forall_forall. intros row Hrow.
    split; [now apply Hrows|now apply Hsafe].
Qed.

Lemma csv_export_parses_back_witness :
  parseCSV (exportAsCSV quote_state) = csvData quote_state.
Proof. apply csv_export_parses_back. exact quote_state_safe. Defined.

(** X24.  When no cell of the grid shows a comma or a newline, importing
    the text of the CSV export into any sheet that is not view-only gives
    every cell of the grid the text it showed at the export, double quotes
    included, as a value without a formula: the formulas of the exported
    sheet are not kept. *)
Theorem import_of_export_keeps_values st st0 :
  isViewOnly st0 = false ->
  (forall col row, 0 <= col < COLUMNS -> 0 <= row < ROWS ->
     csv_safe (shown st (getCellKey col row)) = true) ->
  forall col row, 0 <= col < COLUMNS -> 0 <= row < ROWS ->
    view (cells (importData (parseCSV (exportAsCSV st)) st0))
         (data (importData (parseCSV (exportAsCSV st)) st0)) (getCellKey col row)
    = Some (mkCell (shown st (getCellKey col row)) None).
Proof.
  intros Hv Hsafe col row Hc Hr.
  destruct (csvData_rows st) as [Hne Hrows].
  assert (Heq : parseCSV (exportAsCSV st) = csvData st).
  { unfold exportAsCSV. apply parseCSV_join; [exact Hne|].
    apply csvData_safe in Hsafe.
    rewrite Forall_forall in Hrows, Hsafe. apply Forall_forall. intros r Hrow.
    split; [now apply Hrows|now apply Hsafe]. }
  rewrite Heq. unfold importData. rewrite Hv.
  pose proof (import_rows_spec (csvData st) 0 (cells st0) [] ltac:(lia) (wf_store_nil _)) as H.
  destruct (import_rows 0 (csvData st) (cells st0, [])) as [h' o'].
  destruct H as (_ & _ & H3 & _). cbn [cells data].
  destruct (csvData_lookup st col row Hc Hr) as (line & H1 & H2).
  specialize (H3 _ _ _ _ H1 H2).
  rewrite !Z2Nat.id, Z.add_0_l in H3 by lia. apply H3; lia.
Qed.

Lemma import_of_export_keeps_values_witness :
  view (cells (importData (parseCSV (exportAsCSV quote_state)) foo_state))
       (data (importData (parseCSV (exportAsCSV quote_state)) foo_state)) "B2"
  = Some (mkCell "7" None).
Proof.
  exact (import_of_export_keeps_values quote_state foo_state eq_refl quote_state_safe
           1 1 ltac:(unfold COLUMNS; lia) ltac:(unfold ROWS; lia)).
Defined.

(** ** The limits of the engine *)

(** X25.  When both rows of a range are 10^20 and both columns the same
    character, [parseRange] throws, whatever the sheet and the engine,
    given the fuel to fill an array: the row counter does not move, every
    round of the loop pushes one more cell, and [push] throws when the
    array is full. *)
Theorem stuck_range_throws {L : Limits} fuel data a :
  Ascii.eqb a ":" = false ->
  (array_limit + 2 < fuel)%nat ->
  parseRange fuel (String a "100000000000000000000" ++ ":"
                   ++ String a "100000000000000000000") data
  = Thrown.
Proof.
  intros Ha Hf. unfold parseRange.
  assert (Hi : includes ":" (String a "100000000000000000000") = false).
  { unfold includes. cbn [forallb_str]. rewrite Ha. reflexivity. }
  change (String a "100000000000000000000" ++ ":" ++ String a "100000000000000000000")
    with (String a "100000000000000000000"
          ++ String ":" (String a "100000000000000000000")).
  rewrite (split_on_app _ _ _ Hi), (includes_split_on_false _ _ Hi).
  cbn [charCodeAt0 slice1].
  change (sub (parseInt "100000000000000000000") (ofZ 1)) with (ofZ huge_row).
  pose proof (code_bounds a). rewrite sub_ofZ by lia.
  apply (for_rows_stuck_overflow data (code a - 65) array_limit fuel []);
    cbn [length]; lia.
Qed.

Lemma stuck_range_throws_witness :
  parseRange 2603 "A100000000000000000000:A100000000000000000000" sheet_1_x_3
  = Thrown.
Proof.
  apply (stuck_range_throws 2603 sheet_1_x_3 "A"); [reflexivity|].
  vm_compute. lia.
Defined.

(** X26.  On an operand with at least one value, [MIN] and [MAX] return
    the least and the greatest of the values when a call takes that many
    arguments, and throw when it does not: the values are spread as the
    arguments of [Math.min] and [Math.max]. *)
Theorem min_max_spread_their_values {L : Limits} fuel arg data values :
  nonempty arg = true -> no_line_terminator arg = true ->
  parseValues fuel (toUpperCase arg) data = Returned values ->
  values <> [] ->
  evaluateFormula fuel ("MIN(" ++ arg ++ ")") data
  = (if (length values <=? arguments_limit)%nat
     then Returned (toString (Math_min values)) else Thrown) /\
  evaluateFormula fuel ("MAX(" ++ arg ++ ")") data
  = (if (length values <=? arguments_limit)%nat
     then Returned (toString (Math_max values)) else Thrown).
Proof.
  intros Hn Hl Hv Hne.
  rewrite evaluateFormula_min, evaluateFormula_max by assumption.
  rewrite Hv. cbn [bind]. rewrite (parseValues_numbers _ _ _ _ Hv).
  destruct values as [|x values]; [congruence|].
  unfold spread. destruct (length (x :: values) <=? arguments_limit)%nat; split; reflexivity.
Qed.

(** [MIN] and [MAX] of three values, and [MIN] of 2601 values on an
    engine whose calls take 2600 arguments. *)
Lemma min_max_spread_their_values_witness :
  evaluateFormula 50 "MIN(A1:A3)" sheet_1_x_3 = Returned "0" /\
  evaluateFormula 50 "MAX(A1:A3)" sheet_1_x_3 = Returned "3" /\
  @evaluateFormula short_call_engine 2700 "MIN(A1:A2601)" sheet_1_x_3 = Thrown.
Proof.
  assert (Hv : parseValues 50 (toUpperCase "A1:A3") sheet_1_x_3
               = Returned [ofZ 1; ofZ 0; ofZ 3]) by (vm_compute; reflexivity).
  destruct (min_max_spread_their_values 50 "A1:A3" sheet_1_x_3 _ eq_refl eq_refl Hv)
    as [H1 H2]; [discriminate|].
  change (evaluateFormula 50 ("MIN(" ++ "A1:A3" ++ ")") sheet_1_x_3 = Returned "0" /\
          evaluateFormula 50 ("MAX(" ++ "A1:A3" ++ ")") sheet_1_x_3 = Returned "3" /\
          @evaluateFormula short_call_engine 2700 ("MIN(" ++ "A1:A2601" ++ ")")
            sheet_1_x_3 = Thrown).
  rewrite H1, H2. split; [vm_compute; reflexivity|]. split; [vm_compute; reflexivity|].
  remember (@parseValues short_call_engine 2700 (toUpperCase "A1:A2601") sheet_1_x_3)
    as r eqn:E.
  destruct r as [values| |]; [|vm_compute in E; discriminate E..].
  symmetry in E.
  assert (Hlen : length values = 2601%nat).
  { apply (f_equal (fun o => match o with Returned v => length v | _ => 0%nat end)) in E.
    vm_compute in E. symmetry. exact E. }
  destruct (@min_max_spread_their_values short_call_engine 2700 "A1:A2601" sheet_1_x_3
              values eq_refl eq_refl E) as [H3 _].
  { intros ->. discriminate Hlen. }
  rewrite H3, Hlen. vm_compute. reflexivity.
Defined.
